(** * chanop.py: command queue, user and mask caches, hostmask utilities

    A shallow embedding of the parts of [src/python/chanop.py] that implement
    the command queue ([CommandQueue], [queue_continue_cb],
    [queue_timeout_cb]), the case-insensitive containers
    ([CaseInsensibleString], [CaseInsensibleDict]), the mask and user caches
    ([MaskObject], [MaskList], [MaskCache], [UserList]) and the IRC string
    utilities ([is_hostmask], [get_nick], [get_user], [get_host],
    [hex_to_ip], [is_hostname], [pattern_match], [Ban.make_banmask]).

    Python [str] values are [string]s of 8-bit characters, Python integers
    are [Z], and a Python call that may raise is a computation in the error
    monad [py]. Module-level mutable globals are fields of explicit state
    records that every operation takes and returns. *)

From Stdlib Require Import ZArith Ascii String List Bool Lia.
From Stdlib Require Import Numbers.DecimalString.
From stdpp Require Import base option gmap strings list fin_maps.

Local Open Scope Z_scope.

(** ** Python exceptions and the error monad *)

Inductive exn : Type :=
  | IndexError
  | KeyError
  | ValueError
  | TypeError
  | AssertionError
  | SocketError.

Inductive py (A : Type) : Type :=
  | Ret (a : A)
  | Raise (e : exn).
Arguments Ret {A} a.
Arguments Raise {A} e.

Definition py_bind {A B : Type} (m : py A) (k : A -> py B) : py B :=
  match m with
  | Ret a => k a
  | Raise e => Raise e
  end.

Notation "'do' x <- m ; k" := (py_bind m (fun x => k))
  (at level 10, x name, m at level 100, k at level 200).

(** [try: m except: d] with a bare [except] clause. *)
Definition try_except {A : Type} (m : py A) (d : A) : A :=
  match m with
  | Ret a => a
  | Raise _ => d
  end.

Definition returns {A : Type} (m : py A) : bool :=
  match m with
  | Ret _ => true
  | Raise _ => false
  end.

(** ** Python [str] primitives *)

Module PyStr.

Definition len (s : string) : Z := Z.of_nat (String.length s).

Fixpoint find_from (c : ascii) (s : string) (i : Z) : Z :=
  match s with
  | EmptyString => -1
  | String x s' => if Ascii.eqb x c then i else find_from c s' (i + 1)
  end.

(** [s.find(c)] for a one-character needle: the first index, or -1. *)
Definition find (c : ascii) (s : string) : Z := find_from c s 0.

(** [s.count(c)] for a one-character needle. *)
Fixpoint count (c : ascii) (s : string) : Z :=
  match s with
  | EmptyString => 0
  | String x s' => (if Ascii.eqb x c then 1 else 0) + count c s'
  end.

(** Bound of a slice: negative bounds count from the end, and every bound
    is clamped to the string. *)
Definition clamp (n i : Z) : Z :=
  Z.max 0 (Z.min n (if i <? 0 then i + n else i)).

(** [s[a:b]] *)
Definition slice (s : string) (a b : Z) : string :=
  let a' := clamp (len s) a in
  let b' := clamp (len s) b in
  if a' <? b' then String.substring (Z.to_nat a') (Z.to_nat (b' - a')) s
  else EmptyString.

(** [s[a:]] and [s[:b]] *)
Definition slice_from (s : string) (a : Z) : string := slice s a (len s).
Definition slice_to (s : string) (b : Z) : string := slice s 0 b.

(** [s[i]], which raises [IndexError] out of range. *)
Definition getitem (s : string) (i : Z) : py ascii :=
  let j := if i <? 0 then i + len s else i in
  if j <? 0 then Raise IndexError
  else match String.get (Z.to_nat j) s with
       | Some c => Ret c
       | None => Raise IndexError
       end.

Definition is_upper (c : ascii) : bool :=
  let n := Z.of_nat (nat_of_ascii c) in (65 <=? n) && (n <=? 90).

Definition is_lower (c : ascii) : bool :=
  let n := Z.of_nat (nat_of_ascii c) in (97 <=? n) && (n <=? 122).

Definition is_digit (c : ascii) : bool :=
  let n := Z.of_nat (nat_of_ascii c) in (48 <=? n) && (n <=? 57).

Definition is_alnum (c : ascii) : bool := is_upper c || is_lower c || is_digit c.

(** C [isspace] in the C locale: space, and \t \n \v \f \r. *)
Definition is_space (c : ascii) : bool :=
  let n := Z.of_nat (nat_of_ascii c) in (n =? 32) || ((9 <=? n) && (n <=? 13)).

Definition lower_char (c : ascii) : ascii :=
  if is_upper c then ascii_of_nat (nat_of_ascii c + 32) else c.

Definition upper_char (c : ascii) : ascii :=
  if is_lower c then ascii_of_nat (nat_of_ascii c - 32) else c.

(** [s.lower()] and [s.upper()] on a byte string: ASCII letters only. *)
Fixpoint lower (s : string) : string :=
  match s with
  | EmptyString => EmptyString
  | String c s' => String (lower_char c) (lower s')
  end.

Fixpoint upper (s : string) : string :=
  match s with
  | EmptyString => EmptyString
  | String c s' => String (upper_char c) (upper s')
  end.

Fixpoint prefix (p s : string) : bool :=
  match p, s with
  | EmptyString, _ => true
  | String a p', String b s' => Ascii.eqb a b && prefix p' s'
  | String _ _, EmptyString => false
  end.

(** [p in s]: [p] occurs in [s] as a substring. *)
Fixpoint contains (p s : string) : bool :=
  prefix p s ||
  match s with
  | EmptyString => false
  | String _ s' => contains p s'
  end.

(** [s.split(c)] with an explicit one-character separator: always at least
    one piece, empty pieces kept. *)
Fixpoint split_on (c : ascii) (s : string) : list string :=
  match s with
  | EmptyString => [EmptyString]
  | String x s' =>
      if Ascii.eqb x c then EmptyString :: split_on c s'
      else match split_on c s' with
           | piece :: rest => String x piece :: rest
           | [] => [String x EmptyString]
           end
  end.

(** [s.split()]: pieces separated by runs of whitespace, none of them empty.
    [cur] is the piece being read, in reverse. *)
Fixpoint rev_string (acc s : string) : string :=
  match s with
  | EmptyString => acc
  | String c s' => rev_string (String c acc) s'
  end.

Definition flush (cur : string) (out : list string) : list string :=
  match cur with
  | EmptyString => out
  | _ => rev_string EmptyString cur :: out
  end.

Fixpoint split_ws_aux (s cur : string) : list string :=
  match s with
  | EmptyString => flush cur []
  | String c s' =>
      if is_space c then flush cur (split_ws_aux s' EmptyString)
      else split_ws_aux s' (String c cur)
  end.

Definition split_ws (s : string) : list string := split_ws_aux s EmptyString.

(** [s.lstrip()], [s.rstrip()] and [s.strip()] *)
Fixpoint lstrip (s : string) : string :=
  match s with
  | String c s' => if is_space c then lstrip s' else s
  | EmptyString => EmptyString
  end.

Definition rstrip (s : string) : string :=
  rev_string EmptyString (lstrip (rev_string EmptyString s)).

Definition strip (s : string) : string := rstrip (lstrip s).

(** [sep.join(l)] *)
Fixpoint join (sep : string) (l : list string) : string :=
  match l with
  | [] => EmptyString
  | [x] => x
  | x :: rest => x +:+ sep +:+ join sep rest
  end.

(** [str(n)] for an integer. *)
Definition of_Z (n : Z) : string := NilZero.string_of_int (Z.to_int n).

End PyStr.

(** ** Integer parsing: [int(s)] and [int(s, 16)]

    CPython's [PyInt_FromString]: leading whitespace, a sign, whitespace
    again, for base 16 an optional [0x] that a hexadecimal digit follows,
    digits, trailing whitespace. At least one character of the number itself
    has to be read, and a NUL byte anywhere is refused. The value is an
    unbounded integer. *)

Module PyInt.

Import PyStr.

(** [_PyLong_DigitValue]: 37 for a character that is no digit in any base. *)
Definition digit_value (c : ascii) : Z :=
  let n := Z.of_nat (nat_of_ascii c) in
  if is_digit c then n - 48
  else if is_lower c then n - 97 + 10
  else if is_upper c then n - 65 + 10
  else 37.

Fixpoint scan_digits (base : Z) (s : string) (acc : Z) (any : bool)
  : Z * bool * string :=
  match s with
  | String c s' =>
      let d := digit_value c in
      if d <? base then scan_digits base s' (acc * base + d) true
      else (acc, any, s)
  | EmptyString => (acc, any, s)
  end.

Definition strip_sign (s : string) : bool * string :=
  match s with
  | String "+" s' => (false, s')
  | String "-" s' => (true, s')
  | _ => (false, s)
  end.

(** The number after the sign: value, whether a character was read, rest. *)
Definition scan_number (base : Z) (s : string) : Z * bool * string :=
  if base =? 16 then
    match s with
    | String "0" s1 =>
        match s1 with
        | String x s2 =>
            if Ascii.eqb x "x" || Ascii.eqb x "X" then
              match s2 with
              | String d _ =>
                  if digit_value d <? 16 then scan_digits 16 s2 0 true
                  else (0, true, s1)
              | EmptyString => (0, true, s1)
              end
            else scan_digits 16 s1 0 true
        | EmptyString => (0, true, s1)
        end
    | _ => scan_digits 16 s 0 false
    end
  else scan_digits base s 0 false.

Definition has_nul (s : string) : bool := 0 <=? find "000" s.

Definition parse (base : Z) (s : string) : py Z :=
  if has_nul s then Raise ValueError
  else
    let '(neg, s1) := strip_sign (lstrip s) in
    let '(v, any, rest) := scan_number base (lstrip s1) in
    if negb any then Raise ValueError
    else match lstrip rest with
         | EmptyString => Ret (if neg then - v else v)
         | String _ _ => Raise ValueError
         end.

(** [for x in l: f(x)], collected, stopping at the first exception. *)
Fixpoint map_py {A B : Type} (f : A -> py B) (l : list A) : py (list B) :=
  match l with
  | [] => Ret []
  | x :: l' => do y <- f x; do ys <- map_py f l'; Ret (y :: ys)
  end.

(** [range(0, n, 2)] *)
Definition range2 (n : Z) : list Z :=
  List.map (fun i => 2 * Z.of_nat i) (seq 0 (Z.to_nat ((n + 1) / 2))).

End PyInt.

(** ** [socket.inet_aton]

    The C library's [inet_aton], as glibc implements it: up to four numbers
    separated by dots, each written as in C (a leading [0x] for hexadecimal,
    a leading [0] for octal), every number before a dot at most 255, the last
    one filling the remaining bytes, and nothing but whitespace allowed right
    after the last number. Python refuses a string with a NUL byte with a
    [TypeError] before it calls the C function. The result is the address as
    a 32-bit number. *)

Module Socket.

Import PyStr.

(** [strtoul(cp, &endp, 0)] on a string that starts with a digit. *)
Definition strtoul0 (cp : string) : Z * string :=
  match cp with
  | String "0" s1 =>
      match s1 with
      | String x (String d _ as s2) =>
          if (Ascii.eqb x "x" || Ascii.eqb x "X") && (PyInt.digit_value d <? 16)
          then let '(v, _, rest) := PyInt.scan_digits 16 s2 0 true in (v, rest)
          else let '(v, _, rest) := PyInt.scan_digits 8 s1 0 true in (v, rest)
      | _ => let '(v, _, rest) := PyInt.scan_digits 8 s1 0 true in (v, rest)
      end
  | _ => let '(v, _, rest) := PyInt.scan_digits 10 cp 0 false in (v, rest)
  end.

Definition last_part_max (parts : nat) : Z :=
  match parts with
  | O => 4294967295
  | 1%nat => 16777215
  | 2%nat => 65535
  | _ => 255
  end.

Definition pack (parts : list Z) (val : Z) : Z :=
  fold_left (fun acc p => acc + fst p * 2 ^ (24 - 8 * snd p))
            (combine parts [0; 1; 2]) val.

Fixpoint aton_loop (fuel : nat) (cp : string) (parts : list Z) : option Z :=
  match fuel with
  | O => None
  | S fuel' =>
      match cp with
      | EmptyString => None
      | String c _ =>
          if negb (is_digit c) then None
          else
            let '(val, rest) := strtoul0 cp in
            if 4294967295 <? val then None
            else
              match rest with
              | String "." rest' =>
                  if (3 <=? Z.of_nat (List.length parts)) || (255 <? val) then None
                  else aton_loop fuel' rest' (parts ++ [val])
              | String c' _ =>
                  if negb (is_space c') then None
                  else if last_part_max (List.length parts) <? val then None
                  else Some (pack parts val)
              | EmptyString =>
                  if last_part_max (List.length parts) <? val then None
                  else Some (pack parts val)
              end
      end
  end.

Definition inet_aton (s : string) : py Z :=
  if PyInt.has_nul s then Raise TypeError
  else match aton_loop (S (String.length s)) s [] with
       | Some a => Ret a
       | None => Raise SocketError
       end.

End Socket.

(** ** IRC utilities *)

Import PyStr.

(** [is_hostmask(s)] *)
Definition is_hostmask (s : string) : bool :=
  let n := find "!" s in
  let m := find "@" s in
  (n <? m - 1) && (1 <=? n) && (3 <=? m) && (m + 1 <? len s).

(** [is_ip(s)]: only [socket.error] is caught. *)
Definition is_ip (s : string) : py bool :=
  if negb (count "." s =? 3) then Ret false
  else match Socket.inet_aton s with
       | Ret _ => Ret true
       | Raise SocketError => Ret false
       | Raise e => Raise e
       end.

(** [_valid_label.search(label)] for [^[a-z\d\-]+$] compiled with [re.I]:
    one or more letters, digits or hyphens, up to the end of the string or
    up to a newline that ends the string. *)
Definition label_char (c : ascii) : bool := is_alnum c || Ascii.eqb c "-".

Fixpoint label_tail (s : string) : bool :=
  match s with
  | EmptyString => true
  | String c EmptyString => label_char c || Ascii.eqb c "010"
  | String c s' => label_char c && label_tail s'
  end.

Definition valid_label (label : string) : bool :=
  match label with
  | EmptyString => false
  | String c s' => label_char c && label_tail s'
  end.

Definition first_char (s : string) : option ascii := String.get 0 s.
Definition last_char (s : string) : option ascii :=
  String.get (String.length s - 1) s.

Definition label_ok (label : string) : bool :=
  negb (String.eqb label EmptyString)
  && (len label <=? 63)
  && negb (bool_decide (first_char label = Some "-"%char))
  && negb (bool_decide (last_char label = Some "-"%char))
  && valid_label label.

(** [is_hostname(s)] *)
Definition is_hostname (s : string) : bool :=
  if String.eqb s EmptyString || (255 <? len s) then false
  else
    let s := if bool_decide (last_char s = Some "."%char) then slice_to s (-1) else s in
    forallb label_ok (split_on "." s).

(** The regular expression that [pattern_match] compiles from a pattern,
    run by [regexp.search]: [*] stands for [.*], [?] for [.], every other
    character for itself; the expression is anchored by [^] and [$] and
    compiled with [re.I]. A dot matches any character but a newline, [$]
    matches at the end and before a newline that ends the string, and letters
    match without regard to case. The memo [_regexp_cache] stores the
    compiled expression under the pattern and has no other effect. *)
Definition newline : ascii := "010"%char.

Definition at_end (s : string) : bool :=
  match s with
  | EmptyString => true
  | String c EmptyString => Ascii.eqb c newline
  | _ => false
  end.

Fixpoint regexp_search (pattern s : string) : bool :=
  match pattern with
  | EmptyString => at_end s
  | String c pattern' =>
      if Ascii.eqb c "*" then
        (fix star (s : string) : bool :=
           regexp_search pattern' s ||
           match s with
           | String x s' => negb (Ascii.eqb x newline) && star s'
           | EmptyString => false
           end) s
      else
        match s with
        | String x s' =>
            (if Ascii.eqb c "?" then negb (Ascii.eqb x newline)
             else Ascii.eqb (lower_char c) (lower_char x))
            && regexp_search pattern' s'
        | EmptyString => false
        end
  end.

(** The second argument of [pattern_match] is one string or a sequence of
    strings; [isinstance(strings, str)] tells them apart. *)
Inductive strings_arg : Type :=
  | OneStr (s : string)
  | Strs (l : list string).

Definition as_list (strings : strings_arg) : list string :=
  match strings with
  | OneStr s => [s]
  | Strs l => l
  end.

(** [pattern_match(pattern, strings)] *)
Definition pattern_match (pattern : string) (strings : strings_arg) : list string :=
  List.filter (regexp_search pattern) (as_list strings).

(** [hostmask_pattern_match(pattern, strings)] *)
Definition hostmask_pattern_match (pattern : string) (strings : strings_arg)
  : list string :=
  if is_hostmask pattern then pattern_match pattern strings else [].

(** [get_nick(s)] *)
Definition get_nick (s : string) : py string :=
  let n := find "!" s in
  if n <? 1 then Ret EmptyString
  else
    do c <- getitem s 0;
    if Ascii.eqb c ":" then Ret (slice s 1 n) else Ret (slice_to s n).

(** [get_user(s, trim)] *)
Definition get_user (s : string) (trim : bool) : py string :=
  let n := find "!" s in
  let m := find "@" s in
  if (0 <? n) && (2 <? m) && (n <? m) then
    let s := slice s (n + 1) m in
    if trim then
      do c <- getitem s 0;
      if Ascii.eqb c "~" then Ret (slice_from s 1)
      else if String.eqb (slice_to s 2) "i=" || String.eqb (slice_to s 2) "n="
           then Ret (slice_from s 2)
      else Ret s
    else Ret s
  else Ret EmptyString.

(** [get_host(s)]: built from [find] and slices only, which never raise. *)
Definition get_host (s : string) : string :=
  let n := find "@" s in
  if n <? 3 then EmptyString
  else
    let m := find " " s in
    if (0 <? m) && (n <? m) then slice s (n + 1) m else slice_from s (n + 1).

(** [hex_to_ip(s)] *)
Definition hex_to_ip (s : string) : string :=
  if negb (len s =? 8) then EmptyString
  else
    try_except
      (do ip <- PyInt.map_py (fun n => PyInt.parse 16 (slice s n (n + 2)))
                             (PyInt.range2 (len s));
       Ret (join "." (List.map of_Z ip)))
      EmptyString.

(** [x in l] for a list of strings. *)
Definition str_in (x : string) (l : list string) : bool :=
  existsb (String.eqb x) l.

(** [Ban.make_banmask(hostmask)], with [self.banmask] as first argument. *)
Definition make_banmask (banmask : list string) (hostmask : string) : py string :=
  match banmask with
  | [] => Raise AssertionError
  | _ =>
      if str_in "exact" banmask then Ret hostmask
      else if str_in "webchat" banmask then
        do user <- get_user hostmask true;
        let decoded_ip := hex_to_ip user in
        let host := get_host hostmask in
        do targets_user <-
           (if is_hostname host then Ret false
            else do ip <- is_ip decoded_ip;
                 Ret (ip && negb (contains decoded_ip host)));
        if targets_user : bool then
          do u <- get_user hostmask false; Ret ("*!" +:+ u +:+ "@*")
        else Ret ("*!*@" +:+ host)
      else
        do nick <- (if str_in "nick" banmask then get_nick hostmask else Ret "*"%string);
        do user <- (if str_in "user" banmask then get_user hostmask false else Ret "*"%string);
        let host := if str_in "host" banmask then get_host hostmask else "*"%string in
        Ret (nick +:+ "!" +:+ user +:+ "@" +:+ host)
  end.

(** ** Case-insensitive keys and dictionaries

    [caseInsensibleKey] wraps a string in a [CaseInsensibleString], which is
    compared and hashed through its lowered text, wraps the members of a
    tuple one by one, and leaves any other key as it is. [fold_key k] is the
    text a wrapped key is compared and hashed by. *)

Class CaseInsensibleKey (K : Type) := fold_key : K -> K.

#[global] Instance string_case_key : CaseInsensibleKey string := lower.

#[global] Instance tuple_case_key {A B : Type}
  `{CaseInsensibleKey A} `{CaseInsensibleKey B} : CaseInsensibleKey (A * B) :=
  fun k => (fold_key (fst k), fold_key (snd k)).

#[global] Instance other_case_key : CaseInsensibleKey Z := fun k => k.

(** [CaseInsensibleString.__eq__] *)
Definition case_eq_key {K : Type} `{CaseInsensibleKey K} `{EqDecision K}
  (a b : K) : bool := bool_decide (fold_key a = fold_key b).

(** A [CaseInsensibleDict] maps the folded key to the key object that was
    stored first, in its own spelling, and to the value: assigning to a key
    that is present replaces the value and keeps the stored key object. *)
Module CaseInsensibleDict.
Section Dict.
Context {K : Type} `{Countable K} `{CaseInsensibleKey K} {V : Type}.

Definition t : Type := gmap K (K * V).

Definition stored_key (d : gmap K (K * V)) (k : K) : K :=
  match d !! fold_key k with
  | Some (k0, _) => k0
  | None => k
  end.

(** [d[k] = v] *)
Definition setitem (d : gmap K (K * V)) (k : K) (v : V) : gmap K (K * V) :=
  <[fold_key k := (stored_key d k, v)]> d.

(** [d[k]] *)
Definition getitem (d : gmap K (K * V)) (k : K) : py V :=
  match d !! fold_key k with
  | Some (_, v) => Ret v
  | None => Raise KeyError
  end.

(** [del d[k]] *)
Definition delitem (d : gmap K (K * V)) (k : K) : py (gmap K (K * V)) :=
  match d !! fold_key k with
  | Some _ => Ret (delete (fold_key k) d)
  | None => Raise KeyError
  end.

(** [k in d] *)
Definition contains (d : gmap K (K * V)) (k : K) : bool :=
  bool_decide (is_Some (d !! fold_key k)).

(** [d.keys()], [d.values()] and [d.items()], in the order of the model. *)
Definition keys (d : gmap K (K * V)) : list K :=
  List.map (fun e => fst (snd e)) (map_to_list d).
Definition values (d : gmap K (K * V)) : list V :=
  List.map (fun e => snd (snd e)) (map_to_list d).
Definition items (d : gmap K (K * V)) : list (K * V) :=
  List.map snd (map_to_list d).
End Dict.
End CaseInsensibleDict.

(** ** Python values held by the fields of a mask *)

Inductive pyval : Type :=
  | PNone
  | PInt (n : Z)
  | PStr (s : string)
  | PList (l : list string).

(** [if value:] *)
Definition truthy (v : pyval) : bool :=
  match v with
  | PNone => false
  | PInt n => negb (n =? 0)
  | PStr s => negb (String.eqb s EmptyString)
  | PList l => match l with [] => false | _ => true end
  end.

(** [int(value)] *)
Definition py_int (v : pyval) : py Z :=
  match v with
  | PInt n => Ret n
  | PStr s => PyInt.parse 10 s
  | PNone | PList _ => Raise TypeError
  end.

(** The keyword arguments [**d] of [MaskObject] and of [MaskCache.add]: an
    absent keyword is [None]. *)
Record mask_fields : Type := MaskFields {
  kw_hostmask : option pyval;
  kw_operator : option pyval;
  kw_date : option pyval;
  kw_expires : option pyval
}.

Definition no_fields : mask_fields := MaskFields None None None None.

Record MaskObject : Type := mkMaskObject {
  mask : string;
  hostmask : pyval;
  operator : pyval;
  date : pyval;
  expires : pyval
}.

Definition kw_default (o : option pyval) : pyval :=
  match o with
  | Some v => v
  | None => PNone
  end.

(** [MaskObject.__init__(mask, **d)]; [now] is the value of [now()]. *)
Definition MaskObject_init (now : Z) (mask : string) (d : mask_fields) : py MaskObject :=
  let date := kw_default (kw_date d) in
  do date <- (if truthy date then py_int date else Ret now);
  Ret (mkMaskObject mask (kw_default (kw_hostmask d)) (kw_default (kw_operator d))
                    (PInt date) (kw_default (kw_expires d))).

(** [if value: setattr(ban, attr, value)] for one keyword. *)
Definition merge_field (old : pyval) (new : option pyval) : pyval :=
  match new with
  | Some v => if truthy v then v else old
  | None => old
  end.

(** The loop [for attr, value in d.iteritems()] of [MaskList.__setitem__]. *)
Definition MaskObject_update (ban : MaskObject) (d : mask_fields) : MaskObject :=
  mkMaskObject (mask ban)
               (merge_field (hostmask ban) (kw_hostmask d))
               (merge_field (operator ban) (kw_operator d))
               (merge_field (date ban) (kw_date d))
               (merge_field (expires ban) (kw_expires d)).

Module MaskList.

Record t : Type := mk {
  masks : gmap string (string * MaskObject);
  fetch_time : Z
}.

(** [MaskList.__init__] *)
Definition init : t := mk ∅ 0.

(** [MaskList.__setitem__(mask, d)] *)
Definition setitem (now : Z) (l : t) (mask : string) (d : mask_fields) : py t :=
  if CaseInsensibleDict.contains (masks l) mask then
    do ban <- CaseInsensibleDict.getitem (masks l) mask;
    Ret (mk (CaseInsensibleDict.setitem (masks l) mask (MaskObject_update ban d))
            (fetch_time l))
  else
    do ban <- MaskObject_init now mask d;
    Ret (mk (CaseInsensibleDict.setitem (masks l) mask ban) (fetch_time l)).

Definition getitem (l : t) (mask : string) : py MaskObject :=
  CaseInsensibleDict.getitem (masks l) mask.

Definition delitem (l : t) (mask : string) : py t :=
  do m <- CaseInsensibleDict.delitem (masks l) mask; Ret (mk m (fetch_time l)).

Definition contains (l : t) (mask : string) : bool :=
  CaseInsensibleDict.contains (masks l) mask.

Definition nonempty {A : Type} (l : list A) : bool :=
  match l with [] => false | _ => true end.

(** [MaskList.searchByHostmask(hostmask)] *)
Definition searchByHostmask (l : t) (hostmask : string) : list string :=
  List.filter (fun mask => nonempty (hostmask_pattern_match mask (OneStr hostmask)))
              (CaseInsensibleDict.keys (masks l)).

(** [MaskList.searchByPattern(pattern)] *)
Definition searchByPattern (l : t) (pattern : string) : list string :=
  pattern_match pattern (Strs (CaseInsensibleDict.keys (masks l))).

(** [MaskList.purge()] *)
Definition purge (l : t) : t := l.

End MaskList.

(** ** [UserList]: nick to hostmask, and the nicks waiting for deletion *)

Module UserList.

Record t : Type := mk {
  users : gmap string (string * string);
  _temp_users : gmap string (string * Z)
}.

(** [UserList.__init__] *)
Definition init : t := mk ∅ ∅.

(** [UserList.__setitem__(nick, hostname)] *)
Definition setitem (l : t) (nick hostname : string) : py t :=
  let users' := CaseInsensibleDict.setitem (users l) nick hostname in
  if CaseInsensibleDict.contains (_temp_users l) nick then
    do temp' <- CaseInsensibleDict.delitem (_temp_users l) nick;
    Ret (mk users' temp')
  else Ret (mk users' (_temp_users l)).

Definition getitem (l : t) (nick : string) : py string :=
  CaseInsensibleDict.getitem (users l) nick.

Definition contains (l : t) (nick : string) : bool :=
  CaseInsensibleDict.contains (users l) nick.

(** [UserList.remove(nick)]; [now] is the value of [now()]. *)
Definition remove (now : Z) (l : t) (nick : string) : t :=
  mk (users l) (CaseInsensibleDict.setitem (_temp_users l) nick now).

(** One round of the loop of [UserList.purge]: both deletions sit in one
    [try] whose [KeyError] is passed over, so a nick that is waiting but is
    not in the list loses its mark and nothing else happens. *)
Definition purge_one (now : Z) (l : t) (item : string * Z) : t :=
  let '(nick, when) := item in
  if 3600 <? now - when then
    match CaseInsensibleDict.delitem (_temp_users l) nick with
    | Ret temp' =>
        match CaseInsensibleDict.delitem (users l) nick with
        | Ret users' => mk users' temp'
        | Raise _ => mk (users l) temp'
        end
    | Raise _ => l
    end
  else l.

(** [UserList.purge()]: the loop runs over a copy of the items. *)
Definition purge (now : Z) (l : t) : t :=
  fold_left (purge_one now) (CaseInsensibleDict.items (_temp_users l)) l.

End UserList.

(** ** The host application

    WeeChat keeps the hooks a script installs and hands back a pointer for
    each; [weechat.unhook] drops one. A hook is recorded with what it was
    installed for: a signal or modifier name, or the period, the number of
    calls and the due time of a timer, in milliseconds. *)

Inductive hook_kind : Type :=
  | SignalHook (signal : string)
  | ModifierHook (modifier : string)
  | TimerHook (interval max_calls due : Z).

Record hook : Type := mkHook {
  hook_id : nat;
  hook_what : hook_kind;
  hook_callback : string;
  hook_data : string
}.

#[global] Instance hook_kind_eq_dec : EqDecision hook_kind.
Proof. solve_decision. Defined.

#[global] Instance hook_eq_dec : EqDecision hook.
Proof. solve_decision. Defined.

(** [weechat.unhook(pointer)] *)
Definition unhook (hooks : list hook) (h : hook) : list hook :=
  List.filter (fun h' => negb (Nat.eqb (hook_id h') (hook_id h))) hooks.

(** What a script asks the host and does not change here: the buffers,
    whether a name is a channel name, and the nicks of a channel with the
    [user@host] of each ([None] when the host has no such list). The pointer
    of a buffer that does not exist is the empty string. *)
Record Host : Type := mkHost {
  buffer_search : string -> string -> string;
  irc_is_channel : string -> bool;
  infolist_irc_nick : string -> string -> option (list (string * string))
}.

(** The plugin's options; [weechat.config_get_plugin] reads an option
    that is not set as the empty string. *)
Definition config_get_plugin (config : gmap string string) (option : string) : string :=
  match config !! option with
  | Some v => v
  | None => EmptyString
  end.

(** ** [UserCache] *)

Module UserCache.

Abbreviation cache := (gmap (string * string) ((string * string) * UserList.t)).

(** The loop [while infolist.next()] of [generate_cache]. *)
Fixpoint fill (users : UserList.t) (nicks : list (string * string)) : py UserList.t :=
  match nicks with
  | [] => Ret users
  | (name, host) :: rest =>
      do users' <- UserList.setitem users name (name +:+ "!" +:+ host);
      fill users' rest
  end.

(** [self.generate_cache(server, channel)] *)
Definition generate_cache (host : Host) (c : cache) (server channel : string)
  : py (cache * UserList.t) :=
  match infolist_irc_nick host server channel with
  | None => Ret (c, UserList.init)
  | Some nicks =>
      do users <- fill UserList.init nicks;
      Ret (CaseInsensibleDict.setitem c (server, channel) users, users)
  end.

(** [self.get(server, channel)] *)
Definition get (host : Host) (c : cache) (server channel : string)
  : py (cache * UserList.t) :=
  match CaseInsensibleDict.getitem c (server, channel) with
  | Ret users => Ret (c, users)
  | Raise _ => generate_cache host c server channel
  end.

(** [self.getKeys(server, item)] *)
Definition getKeys (c : cache) (server item : string) : list (string * string) :=
  List.map fst
    (List.filter
       (fun e => case_eq_key (fst (fst e)) server
                 && (String.eqb item EmptyString || UserList.contains (snd e) item))
       (CaseInsensibleDict.items c)).

(** [self.hostFromNick(nick, server, channel)]: [None] when the loop over
    the keys finds none. *)
Definition hostFromNick (host : Host) (c : cache) (nick server channel : string)
  : py (cache * option string) :=
  do found <-
     (if String.eqb channel EmptyString then Ret (c, None)
      else
        do r <- get host c server channel;
        if UserList.contains (snd r) nick then
          do h <- UserList.getitem (snd r) nick; Ret (fst r, Some h)
        else Ret (fst r, None));
  match snd found with
  | Some h => Ret found
  | None =>
      match getKeys (fst found) server nick with
      | key :: _ =>
          do users <- CaseInsensibleDict.getitem (fst found) key;
          do h <- UserList.getitem users nick;
          Ret (fst found, Some h)
      | [] => Ret (fst found, None)
      end
  end.

End UserCache.

(** ** [MaskCache], the fetch queue and its callbacks *)

Module MaskCache.

Abbreviation cache := (gmap (string * string) ((string * string) * MaskList.t)).

(** The two instances: [banlist = MaskCache('b')], [mutelist = MaskCache('q')]. *)
Inductive instance : Type :=
  | Bans
  | Mutes.

(** [self.mode] *)
Definition mode (self : instance) : string :=
  match self with
  | Bans => "b"
  | Mutes => "q"
  end.

(** The two caches, the class attributes [hook_queue] and [hook_fetch] that
    they share, the host's hooks, the dictionary [isupport] (for each server
    the [CHANMODES] tuple it advertised, if any), the plugin's options, and
    what was handed to [weechat.command], [say] and [error]. *)
Record state : Type := mkState {
  banlist : cache;
  mutelist : cache;
  hook_queue : list (string * string * string);
  hook_fetch : list hook;
  hooks : list hook;
  next_hook : nat;
  isupport : gmap string (option (list string));
  config : gmap string string;
  commands_sent : list (string * string);
  said : list string;
  errors : list string
}.

Definition get_cache (self : instance) (st : state) : cache :=
  match self with
  | Bans => banlist st
  | Mutes => mutelist st
  end.

Definition set_cache (self : instance) (c : cache) (st : state) : state :=
  match self with
  | Bans =>
      mkState c (mutelist st) (hook_queue st) (hook_fetch st) (hooks st)
              (next_hook st) (isupport st) (config st) (commands_sent st) (said st) (errors st)
  | Mutes =>
      mkState (banlist st) c (hook_queue st) (hook_fetch st) (hooks st)
              (next_hook st) (isupport st) (config st) (commands_sent st) (said st) (errors st)
  end.

Definition set_queue (q : list (string * string * string)) (st : state) : state :=
  mkState (banlist st) (mutelist st) q (hook_fetch st) (hooks st)
          (next_hook st) (isupport st) (config st) (commands_sent st) (said st) (errors st).

Definition set_hooks (fetch all : list hook) (next : nat) (st : state) : state :=
  mkState (banlist st) (mutelist st) (hook_queue st) fetch all
          next (isupport st) (config st) (commands_sent st) (said st) (errors st).

Definition command (buffer cmd : string) (st : state) : state :=
  mkState (banlist st) (mutelist st) (hook_queue st) (hook_fetch st) (hooks st)
          (next_hook st) (isupport st) (config st) (commands_sent st ++ [(buffer, cmd)])
          (said st) (errors st).

Definition say (s : string) (st : state) : state :=
  mkState (banlist st) (mutelist st) (hook_queue st) (hook_fetch st) (hooks st)
          (next_hook st) (isupport st) (config st) (commands_sent st) (said st ++ [s]) (errors st).

Definition error (s : string) (st : state) : state :=
  mkState (banlist st) (mutelist st) (hook_queue st) (hook_fetch st) (hooks st)
          (next_hook st) (isupport st) (config st) (commands_sent st) (said st) (errors st ++ [s]).

(** [maskModes[mode]] *)
Definition maskModes (mode : string) : py instance :=
  if String.eqb mode "b" then Ret Bans
  else if String.eqb mode "q" then Ret Mutes
  else Raise KeyError.

(** [supported_modes(server, mode)] with a mode that is not empty. *)
Definition supported_modes (st : state) (server mode : string) : bool :=
  let modes :=
    match isupport st !! server with
    | Some (Some (first :: _)) => first
    | Some _ => EmptyString
    | None => config_get_plugin (config st) ("chanmodes." +:+ server)
    end in
  let modes := if String.eqb modes EmptyString then "b"%string else modes in
  PyStr.contains mode modes.

(** [self.initList(server, channel)] *)
Definition initList (c : cache) (server channel : string) : cache :=
  CaseInsensibleDict.setitem c (server, channel) MaskList.init.

(** [self.add(server, channel, mask, **kwargs)]: a list that was missing
    stays created when the assignment raises. *)
Definition add (now : Z) (c : cache) (server channel mask : string)
  (kwargs : mask_fields) : cache * py unit :=
  let key := (server, channel) in
  let c := if CaseInsensibleDict.contains c key then c else initList c server channel in
  match CaseInsensibleDict.getitem c key with
  | Raise e => (c, Raise e)
  | Ret l =>
      match MaskList.setitem now l mask kwargs with
      | Raise e => (c, Raise e)
      | Ret l' => (CaseInsensibleDict.setitem c key l', Ret tt)
      end
  end.

(** [self.remove(server, channel, mask)]; [mask] is [None] by default. *)
Definition remove (c : cache) (server channel : string) (mask : option string) : cache :=
  let key := (server, channel) in
  match mask with
  | None => try_except (CaseInsensibleDict.delitem c key) c
  | Some mask =>
      try_except
        (do l <- CaseInsensibleDict.getitem c key;
         do l' <- MaskList.delitem l mask;
         Ret (CaseInsensibleDict.setitem c key l'))
        c
  end.

(** [self.searchByHostmask(hostmask, server, channel)]; the hostmask is a
    string or [None]. *)
Definition searchByHostmask (c : cache) (hostmask : option string)
  (server channel : string) : list string :=
  match hostmask with
  | None => []
  | Some hostmask =>
      if String.eqb hostmask EmptyString then []
      else match CaseInsensibleDict.getitem c (server, channel) with
           | Ret l => MaskList.searchByHostmask l hostmask
           | Raise _ => []
           end
  end.

(** [self.searchByNick(nick, server, channel)], which may fill the user
    cache on the way. *)
Definition searchByNick (host : Host) (users : UserCache.cache) (c : cache)
  (nick server channel : string) : py (UserCache.cache * list string) :=
  do r <- UserCache.hostFromNick host users nick server channel;
  Ret (fst r, searchByHostmask c (snd r) server channel).

Definition key_in_queue (key : string * string * string)
  (q : list (string * string * string)) : bool :=
  bool_decide (key ∈ q).

(** [self.fetch(server, channel)]; [now] is the value of [now()]. *)
Definition fetch (host : Host) (now : Z) (self : instance) (st : state)
  (server channel : string) : state :=
  if negb (supported_modes st server (mode self)) then st
  else
    let too_soon :=
      match CaseInsensibleDict.getitem (get_cache self st) (server, channel) with
      | Ret l => now - MaskList.fetch_time l <? 60
      | Raise _ => false
      end in
    if too_soon then st
    else
      let buffer := buffer_search host "irc" ("server." +:+ server) in
      if String.eqb buffer EmptyString || negb (irc_is_channel host channel) then st
      else
        let key := (server, channel, mode self) in
        if key_in_queue key (hook_queue st) then st
        else
          let st := set_queue (hook_queue st ++ [key]) st in
          let st :=
            match hook_fetch st with
            | [] =>
                let h1 := mkHook (next_hook st) (ModifierHook "irc_in_367")
                                 "masklist_add_cb" EmptyString in
                let h2 := mkHook (S (next_hook st)) (ModifierHook "irc_in_368")
                                 "masklist_end_cb" EmptyString in
                set_hooks [h1; h2] (hooks st ++ [h1; h2]) (S (S (next_hook st))) st
            | _ => st
            end in
          let cmd := "/wait " +:+ of_Z (Z.of_nat (List.length (hook_queue st)))
                     +:+ " /mode " +:+ channel +:+ " " +:+ mode self in
          let st := say ("Fetching " +:+ channel +:+ " masks (+" +:+ mode self
                         +:+ " channelmode).") st in
          command buffer cmd st.

(** [string.split()[-4:]] *)
Definition last4 (l : list string) : list string :=
  skipn (List.length l - 4) l.

(** [masklist_add_cb(data, modifier, modifier_data, string)] *)
Definition masklist_add_cb (now : Z) (st : state) (modifier_data str : string)
  : state * py string :=
  match last4 (split_ws str) with
  | [channel; banmask; op; date] =>
      let server := modifier_data in
      match hook_queue st with
      | [] => (st, Raise IndexError)
      | (serv, chan, mode) :: _ =>
          if bool_decide ((serv, chan) = (server, channel)) then
            match maskModes mode with
            | Raise e => (st, Raise e)
            | Ret self =>
                let r := add now (get_cache self st) server channel banmask
                             (MaskFields None (Some (PStr op)) (Some (PStr date)) None) in
                (set_cache self (fst r) st, do _ <- snd r; Ret EmptyString)
            end
          else
            (error "Error: got mask from unexpected server/channel" st, Ret EmptyString)
      end
  | _ => (st, Raise ValueError)
  end.

(** [masklist_end_cb(data, modifier, modifier_data, string)], without the
    part that serves a pending completion of the input line, which reads
    the caches and writes to the input bar only. *)
Definition masklist_end_cb (st : state) : state * py string :=
  match hook_queue st with
  | [] => (st, Raise IndexError)
  | (server, channel, mode) :: rest =>
      let st := set_queue rest st in
      match maskModes mode with
      | Raise e => (st, Raise e)
      | Ret self =>
          let masklist := get_cache self st in
          let key := (server, channel) in
          let st :=
            if negb (CaseInsensibleDict.contains masklist key) then
              set_cache self (initList masklist server channel) st
            else
              let n := match CaseInsensibleDict.getitem masklist key with
                       | Ret l => Z.of_nat (size (MaskList.masks l))
                       | Raise _ => 0
                       end in
              say ("Got " +:+ channel +:+ " +" +:+ mode +:+ " masks ("
                   +:+ of_Z n +:+ " masks).") st in
          let st :=
            match hook_queue st with
            | [] => set_hooks [] (fold_left unhook (hook_fetch st) (hooks st))
                              (next_hook st) st
            | _ => st
            end in
          (st, Ret EmptyString)
      end
  end.

End MaskCache.

(** ** [CommandQueue], [queue_continue_cb] and [queue_timeout_cb] *)

Module CommandQueue.

(** The three message classes. [AddChannel.__init__] keeps the server and
    the channel only; every caller passes an integer [wait]. *)
Inductive Message : Type :=
  | Normal (command buffer : string) (wait : Z)
  | WaitForOp (command buffer : string) (wait : Z) (server channel nick : string)
  | AddChannel (server channel : string).

(** The [type] argument of [queue] with the keywords that go with it. *)
Inductive message_type : Type :=
  | TNormal
  | TWaitForOp (server channel nick : string)
  | TAddChannel (server channel : string).

(** [weechat_queue.commands] and [weechat_queue.wait], the globals
    [hook_signal] and [hook_timeout], the host's hooks and clock (in
    milliseconds), the plugin's options, and what was handed to
    [weechat.command] and [error]. *)
Record state : Type := mkState {
  commands : list Message;
  wait : Z;
  hook_signal : option hook;
  hook_timeout : option hook;
  hooks : list hook;
  next_hook : nat;
  clock : Z;
  config : gmap string string;
  commands_sent : list (string * string);
  errors : list string
}.

Definition set_commands (cs : list Message) (st : state) : state :=
  mkState cs (wait st) (hook_signal st) (hook_timeout st) (hooks st) (next_hook st)
          (clock st) (config st) (commands_sent st) (errors st).

Definition set_wait (w : Z) (st : state) : state :=
  mkState (commands st) w (hook_signal st) (hook_timeout st) (hooks st) (next_hook st)
          (clock st) (config st) (commands_sent st) (errors st).

Definition set_globals (s t : option hook) (st : state) : state :=
  mkState (commands st) (wait st) s t (hooks st) (next_hook st)
          (clock st) (config st) (commands_sent st) (errors st).

Definition set_hooks (hs : list hook) (next : nat) (st : state) : state :=
  mkState (commands st) (wait st) (hook_signal st) (hook_timeout st) hs next
          (clock st) (config st) (commands_sent st) (errors st).

Definition set_clock (t : Z) (st : state) : state :=
  mkState (commands st) (wait st) (hook_signal st) (hook_timeout st) (hooks st)
          (next_hook st) t (config st) (commands_sent st) (errors st).

Definition set_config (c : gmap string string) (st : state) : state :=
  mkState (commands st) (wait st) (hook_signal st) (hook_timeout st) (hooks st)
          (next_hook st) (clock st) c (commands_sent st) (errors st).

(** [weechat.command(buffer, command)] *)
Definition command (buffer cmd : string) (st : state) : state :=
  mkState (commands st) (wait st) (hook_signal st) (hook_timeout st) (hooks st)
          (next_hook st) (clock st) (config st) (commands_sent st ++ [(buffer, cmd)])
          (errors st).

(** [error(s)] *)
Definition error (s : string) (st : state) : state :=
  mkState (commands st) (wait st) (hook_signal st) (hook_timeout st) (hooks st)
          (next_hook st) (clock st) (config st) (commands_sent st) (errors st ++ [s]).

(** [weechat.unhook(pointer)] on a global that may be [None]. *)
Definition unhook_global (h : option hook) (st : state) : state :=
  match h with
  | Some h => set_hooks (unhook (hooks st) h) (next_hook st) st
  | None => st
  end.

(** [weechat.hook_signal] and [weechat.hook_timer]: the new hook and the
    state that holds it. *)
Definition install (what : hook_kind) (callback data : string) (st : state)
  : hook * state :=
  let h := mkHook (next_hook st) what callback data in
  (h, set_hooks (hooks st ++ [h]) (S (next_hook st)) st).

Definition debug_is_2 (st : state) : bool :=
  String.eqb (config_get_plugin (config st) "debug") "2".

(** [Message.__call__] *)
Definition Message_call (cmd buffer : string) (w : Z) (st : state) : state * bool :=
  let cmd := if negb (w =? 0) then "/wait " +:+ of_Z w +:+ " " +:+ cmd else cmd in
  if debug_is_2 st then (st, true)
  else (command buffer cmd st, true).

(** [get_config_list(config)] *)
Definition get_config_list (st : state) (option : string) : list string :=
  let value := config_get_plugin (config st) option in
  if String.eqb value EmptyString then [] else split_on "," value.

(** [CaseInsensibleSet(iterable)]: the members without repetition, compared
    through their folded text. The order in which Python walks a set is not
    fixed; here it is the order of arrival. *)
Definition set_mem (x : string) (l : list string) : bool :=
  existsb (fun y => case_eq_key x y) l.

Definition set_add (l : list string) (x : string) : list string :=
  if set_mem x l then l else l ++ [x].

Definition CaseInsensibleSet (l : list string) : list string :=
  fold_left set_add l [].

(** [pack()]: the state after the call and the value returned. *)
Definition call (host : Host) (pack : Message) (st : state) : state * bool :=
  match pack with
  | Normal cmd buffer w => Message_call cmd buffer w st
  | WaitForOp cmd buffer w server channel nick =>
      let st := unhook_global (hook_timeout st) st in
      let st := unhook_global (hook_signal st) st in
      let '(hs, st) := install (SignalHook (server +:+ ",irc_in2_MODE"))
                               "queue_continue_cb"
                               ("MODE " +:+ channel +:+ " +o " +:+ nick) st in
      let st := set_globals (Some hs) (hook_timeout st) st in
      let '(ht, st) := install (TimerHook (60 * 1000) 1 (clock st + 60 * 1000))
                               "queue_timeout_cb"
                               (server +:+ "." +:+ channel) st in
      let st := set_globals (hook_signal st) (Some ht) st in
      let st := fst (Message_call cmd buffer w st) in
      if debug_is_2 st then (st, true) else (st, false)
  | AddChannel server channel =>
      if String.eqb channel EmptyString || negb (irc_is_channel host channel)
      then (st, true)
      else
        let option := "watchlist." +:+ server in
        let channels := CaseInsensibleSet (get_config_list st option) in
        if negb (set_mem channel channels) then
          (set_config (<[option := join "," (set_add channels channel)]> (config st)) st,
           true)
        else (st, true)
  end.

(** [self.queue(cmd, type, wait, buffer=..., **kwargs)]: [Message.__init__]
    asserts that the command is not empty. *)
Definition queue (st : state) (cmd : string) (type : message_type) (w : Z)
  (buffer : string) : py state :=
  do pack <-
     match type with
     | TNormal =>
         if String.eqb cmd EmptyString then Raise AssertionError
         else Ret (Normal cmd buffer (wait st))
     | TWaitForOp server channel nick =>
         if String.eqb cmd EmptyString then Raise AssertionError
         else Ret (WaitForOp cmd buffer (wait st) server channel nick)
     | TAddChannel server channel => Ret (AddChannel server channel)
     end;
  Ret (set_commands (commands st ++ [pack]) (set_wait (wait st + w) st)).

(** [self.clear()] *)
Definition clear (st : state) : state := set_wait 0 (set_commands [] st).

(** The [while self.commands] loop of [run]; [cs] is [self.commands]. *)
Fixpoint run_loop (host : Host) (cs : list Message) (st : state) : state :=
  match cs with
  | [] => set_wait 0 st
  | pack :: rest =>
      let '(st', rt) := call host pack (set_commands rest st) in
      if rt then run_loop host rest st' else st'
  end.

(** [self.run()], wrapped by [safe_check] *)
Definition run (host : Host) (st : state) : state :=
  if 20 <? Z.of_nat (List.length (commands st)) then
    clear (error "Limit of 20 commands in queue reached, aborting." st)
  else run_loop host (commands st) st.

(** [signal_data.split(' ', 1)[1]] *)
Fixpoint after_first_space (s : string) : py string :=
  match s with
  | EmptyString => Raise IndexError
  | String c s' => if Ascii.eqb c " " then Ret s' else after_first_space s'
  end.

(** [queue_continue_cb(data, signal, signal_data)] *)
Definition queue_continue_cb (host : Host) (st : state) (data signal_data : string)
  : state * py unit :=
  match after_first_space signal_data with
  | Raise e => (st, Raise e)
  | Ret rest =>
      if String.eqb (strip rest) data then
        let st := unhook_global (hook_signal st) st in
        let st := unhook_global (hook_timeout st) st in
        let st := set_globals None None st in
        (run host st, Ret tt)
      else (st, Ret tt)
  end.

(** [queue_timeout_cb(channel, count)] *)
Definition queue_timeout_cb (st : state) (channel : string) : state :=
  let st := error ("Couldn't get op in '" +:+ channel
                   +:+ "', purging command queue...") st in
  let st := unhook_global (hook_signal st) st in
  let st := set_globals None None st in
  clear st.

(** *** The host's side: sending a signal and letting time pass *)

(** WeeChat's [string_match]: without regard to case, with [*] for any run
    of characters. *)
Fixpoint string_match (mask s : string) : bool :=
  match mask with
  | EmptyString => match s with EmptyString => true | _ => false end
  | String c mask' =>
      if Ascii.eqb c "*" then
        (fix star (s : string) : bool :=
           string_match mask' s ||
           match s with
           | String _ s' => star s'
           | EmptyString => false
           end) s
      else
        match s with
        | String x s' => Ascii.eqb (lower_char c) (lower_char x) && string_match mask' s'
        | EmptyString => false
        end
  end.

(** One hook receives a signal, if it is still installed. *)
Definition deliver (host : Host) (signal signal_data : string) (st : state) (h : hook)
  : state :=
  match hook_what h with
  | SignalHook mask =>
      if bool_decide (h ∈ hooks st) && string_match mask signal
         && String.eqb (hook_callback h) "queue_continue_cb"
      then fst (queue_continue_cb host st (hook_data h) signal_data)
      else st
  | _ => st
  end.

(** [weechat.hook_signal_send(signal, ..., signal_data)]: every signal hook
    whose name matches is called. *)
Definition signal_send (host : Host) (st : state) (signal signal_data : string) : state :=
  fold_left (deliver host signal signal_data) (hooks st) st.

(** One timer that is due is called, and dropped after its last call. *)
Definition fire (st : state) (h : hook) : state :=
  match hook_what h with
  | TimerHook interval max_calls due =>
      if bool_decide (h ∈ hooks st) && (due <=? clock st) then
        let st := if String.eqb (hook_callback h) "queue_timeout_cb"
                  then queue_timeout_cb st (hook_data h) else st in
        if max_calls =? 1 then set_hooks (unhook (hooks st) h) (next_hook st) st
        else
          let h' := mkHook (hook_id h)
                           (TimerHook interval (Z.max 0 (max_calls - 1)) (due + interval))
                           (hook_callback h) (hook_data h) in
          set_hooks (List.map (fun x => if Nat.eqb (hook_id x) (hook_id h) then h' else x)
                              (hooks st))
                    (next_hook st) st
      else st
  | _ => st
  end.

(** [ms] milliseconds pass: the timers that have become due are called. *)
Definition elapse (st : state) (ms : Z) : state :=
  let st := set_clock (clock st + ms) st in
  fold_left fire (hooks st) st.

(** What reaches the script from outside while the queue waits. *)
Inductive event : Type :=
  | Signal (signal signal_data : string)
  | Elapse (ms : Z).

Definition step (host : Host) (st : state) (ev : event) : state :=
  match ev with
  | Signal signal signal_data => signal_send host st signal signal_data
  | Elapse ms => elapse st ms
  end.

Definition steps (host : Host) (st : state) (evs : list event) : state :=
  fold_left (step host) evs st.

End CommandQueue.

(** ** Vocabulary of the statements *)

(** [c] occurs in [s]. *)
Definition occurs (c : ascii) (s : string) : Prop :=
  exists i : nat, String.get i s = Some c.

(** The invariant of a case-insensitive dictionary: a stored key object
    sits under its own folded text. *)
Definition dict_ok {K V : Type} `{Countable K} `{CaseInsensibleKey K}
  (d : gmap K (K * V)) : Prop :=
  forall (i k0 : K) (v : V), d !! i = Some (k0, v) -> fold_key k0 = i.

Definition UserList_ok (l : UserList.t) : Prop :=
  dict_ok (UserList.users l) /\ dict_ok (UserList._temp_users l).

(** A field of a mask after an add with the keyword value [new]: a value
    that is given and not empty replaces the old one, anything else keeps
    it. *)
Definition merges (old : pyval) (new : option pyval) (result : pyval) : Prop :=
  (forall v, new = Some v -> truthy v = true -> result = v) /\
  (new = None \/ (exists v, new = Some v /\ truthy v = false) -> result = old).

(** The time at which a nick was marked for deletion, if it is. *)
Definition pending_since (l : UserList.t) (nick : string) : option Z :=
  match UserList._temp_users l !! fold_key nick with
  | Some (_, when) => Some when
  | None => None
  end.

(** Whether some item of [its] sits under [i] and is older than an hour. *)
Definition expired_in (now : Z) (its : list (string * Z)) (i : string) : bool :=
  existsb (fun it => bool_decide (fold_key (fst it) = i) && (3600 <? now - snd it)) its.

(** ** Example data *)

(** A list of masks with one mask of the shape of a hostmask and one
    without it, both set by "op!o@example.net" at time 100. *)
Definition example_fields : mask_fields :=
  MaskFields None (Some (PStr "op!o@example.net")) (Some (PInt 100)) None.

Definition example_masklist : MaskList.t :=
  try_except
    (do l <- MaskList.setitem 100 MaskList.init "*!*@Host.Example" example_fields;
     MaskList.setitem 100 l "$a:account" example_fields)
    MaskList.init.

(** A host with a buffer for every server, with the usual channel prefixes,
    and without nick lists. *)
Definition example_host : Host :=
  mkHost
    (fun plugin name =>
       if String.eqb plugin "irc" && prefix "server." name then "0x1" +:+ name
       else EmptyString)
    (fun channel =>
       match channel with
       | String c _ => PyStr.contains (String c EmptyString) "#&+!"
       | EmptyString => false
       end)
    (fun _ _ => None).

(** The caches when the script is loaded. *)
Definition masks_init : MaskCache.state :=
  MaskCache.mkState ∅ ∅ [] [] [] 0 ∅ ∅ [] [] [].

(** A fetch of the bans of [#chan] on [freenode] at time 1000, the end of
    the listing, and a second fetch ten seconds after the first. *)
Definition fetch_first : MaskCache.state :=
  MaskCache.fetch example_host 1000 MaskCache.Bans masks_init "freenode" "#chan".

Definition fetch_completed : MaskCache.state :=
  fst (MaskCache.masklist_end_cb fetch_first).

Definition fetch_second : MaskCache.state :=
  MaskCache.fetch example_host 1010 MaskCache.Bans fetch_completed "freenode" "#chan".

(** While the bans of [#chan] are being fetched, one entry of the list of
    [#chan] arrives, and then one entry that names [#other]. *)
Definition entry_expected : MaskCache.state :=
  fst (MaskCache.masklist_add_cb 1001 fetch_first "freenode"
         ":irc.example 367 me #chan *!*@one.example op!o@example.net 1271814548").

Definition entry_unexpected : MaskCache.state :=
  fst (MaskCache.masklist_add_cb 1002 entry_expected "freenode"
         ":irc.example 367 me #other *!*@two.example op!o@example.net 1271814549").

(** ** The command queue while it waits *)

(** The hooks of the queue: there are none, or the two that the last
    [WaitForOp] installed, a signal hook for [queue_continue_cb] and a timer
    for [queue_timeout_cb] that is called once. *)
Definition waiting_on (st : CommandQueue.state) (hs ht : hook) : Prop :=
  CommandQueue.hook_signal st = Some hs /\
  CommandQueue.hook_timeout st = Some ht /\
  CommandQueue.hooks st = [hs; ht] /\
  hook_id hs <> hook_id ht /\
  (exists mask, hook_what hs = SignalHook mask) /\
  hook_callback hs = "queue_continue_cb"%string /\
  (exists interval due, hook_what ht = TimerHook interval 1 due) /\
  hook_callback ht = "queue_timeout_cb"%string.

Definition idle (st : CommandQueue.state) : Prop :=
  CommandQueue.hook_signal st = None /\
  CommandQueue.hook_timeout st = None /\
  CommandQueue.hooks st = [].

Definition hooks_ok (st : CommandQueue.state) : Prop :=
  idle st \/ exists hs ht, waiting_on st hs ht.

(** A signal confirms the op that a [WaitForOp] for [server], [channel] and
    [nick] waits for: its name matches the name the hook was installed for,
    and its text after the first space, stripped, is the expected mode
    change. *)
Definition confirms (server channel nick signal signal_data : string) : bool :=
  CommandQueue.string_match (server +:+ ",irc_in2_MODE") signal
  && match CommandQueue.after_first_space signal_data with
     | Ret rest => String.eqb (strip rest) ("MODE " +:+ channel +:+ " +o " +:+ nick)
     | Raise _ => false
     end.

(** An event that is no confirmation: another signal, or time that passes. *)
Definition quiet (server channel nick : string) (ev : CommandQueue.event) : Prop :=
  match ev with
  | CommandQueue.Signal signal signal_data =>
      confirms server channel nick signal signal_data = false
  | CommandQueue.Elapse ms => 0 <= ms
  end.

(** The time that passes during a list of events. *)
Fixpoint elapsed (evs : list CommandQueue.event) : Z :=
  match evs with
  | [] => 0
  | CommandQueue.Elapse ms :: evs' => ms + elapsed evs'
  | CommandQueue.Signal _ _ :: evs' => elapsed evs'
  end.

(** The command as [Message.__call__] sends it. *)
Definition sent_as (cmd : string) (w : Z) : string :=
  if w =? 0 then cmd else "/wait " +:+ of_Z w +:+ " " +:+ cmd.

(** The queue when the script is loaded, with the given options. *)
Definition queue_init (config : gmap string string) : CommandQueue.state :=
  CommandQueue.mkState [] 0 None None [] 0 0 config [] [].

(** [n] times [queue(cmd)] with a normal message for buffer [buffer]. *)
Fixpoint queue_many (n : nat) (cmd buffer : string) (st : CommandQueue.state)
  : py CommandQueue.state :=
  match n with
  | O => Ret st
  | S n' =>
      do st' <- CommandQueue.queue st cmd CommandQueue.TNormal 1 buffer;
      queue_many n' cmd buffer st'
  end.

(** What [get_op] and a kick queue on [#chan] when the user is not op. *)
Definition example_queue (config : gmap string string) : CommandQueue.state :=
  try_except
    (do st <- CommandQueue.queue (queue_init config) "/msg chanserv op #chan me"
                (CommandQueue.TWaitForOp "freenode" "#chan" "me") 1 "0xbuf";
     do st <- CommandQueue.queue st "" (CommandQueue.TAddChannel "freenode" "#chan")
                0 "0xbuf";
     CommandQueue.queue st "/kick troll bye" CommandQueue.TNormal 1 "0xbuf")
    (queue_init config).

(** The queue right after a [WaitForOp] for [server], [channel] and [nick]
    was called in state [st] and sent [sent] to [buffer]: the steps [rest]
    are left, and the two hooks are installed, the timer being due at
    [due]. *)
Definition suspended (rest : list CommandQueue.Message)
  (buffer sent server channel nick : string) (due : Z) (st : CommandQueue.state)
  : CommandQueue.state :=
  let hs := mkHook (CommandQueue.next_hook st)
                   (SignalHook (server +:+ ",irc_in2_MODE"))
                   "queue_continue_cb" ("MODE " +:+ channel +:+ " +o " +:+ nick) in
  let ht := mkHook (S (CommandQueue.next_hook st))
                   (TimerHook (60 * 1000) 1 due)
                   "queue_timeout_cb" (server +:+ "." +:+ channel) in
  CommandQueue.mkState rest (CommandQueue.wait st) (Some hs) (Some ht) [hs; ht]
    (S (S (CommandQueue.next_hook st))) (CommandQueue.clock st)
    (CommandQueue.config st)
    (CommandQueue.commands_sent st ++ [(buffer, sent)]) (CommandQueue.errors st).

(** The queue with its two hooks taken away. *)
Definition unhooked (st : CommandQueue.state) : CommandQueue.state :=
  CommandQueue.set_globals None None
    (CommandQueue.set_hooks [] (CommandQueue.next_hook st) st).

(** ** Addresses in hexadecimal and in dotted form *)

(** The lower-case hexadecimal digit of a number below 16. *)
Definition hex_digit (n : Z) : ascii :=
  if n <? 10 then ascii_of_nat (Z.to_nat (48 + n)) else ascii_of_nat (Z.to_nat (87 + n)).

(** An octet as two hexadecimal digits. *)
Definition hex2 (n : Z) : string :=
  String (hex_digit (n / 16)) (String (hex_digit (n mod 16)) EmptyString).

(** The user name a web gateway makes of the address [a.b.c.d]. *)
Definition hex_of_ip (a b c d : Z) : string := hex2 a +:+ hex2 b +:+ hex2 c +:+ hex2 d.

(** The address [a.b.c.d] as text. *)
Definition dotted_quad (a b c d : Z) : string := join "." [of_Z a; of_Z b; of_Z c; of_Z d].

(** Every number below [n] passes the test [f]. *)
Definition all_below (n : nat) (f : Z -> bool) : bool :=
  forallb (fun i => f (Z.of_nat i)) (seq 0 n).

(** Every character of [s] passes the test [f]. *)
Fixpoint all_chars (f : ascii -> bool) (s : string) : bool :=
  match s with
  | EmptyString => true
  | String c s' => f c && all_chars f s'
  end.

(** Where the digits of a number end: at the end of the string or at a dot. *)
Definition ends_number (rest : string) : Prop :=
  rest = EmptyString \/ exists r, rest = String "." r.

(** ** Queues of normal messages *)

(** [queue(cmd, buffer=buffer)] for each command of a list, in order. *)
Fixpoint queue_all (cmds : list (string * string)) (st : CommandQueue.state)
  : py CommandQueue.state :=
  match cmds with
  | [] => Ret st
  | (cmd, buffer) :: rest =>
      do st' <- CommandQueue.queue st cmd CommandQueue.TNormal 1 buffer;
      queue_all rest st'
  end.

(** The normal messages that [queue_all] makes when the queue's [wait] is
    [w], and what is sent when they are called. *)
Fixpoint normals (w : Z) (cmds : list (string * string)) : list CommandQueue.Message :=
  match cmds with
  | [] => []
  | (cmd, buffer) :: rest => CommandQueue.Normal cmd buffer w :: normals (w + 1) rest
  end.

Fixpoint sent_normals (w : Z) (cmds : list (string * string)) : list (string * string) :=
  match cmds with
  | [] => []
  | (cmd, buffer) :: rest => (buffer, sent_as cmd w) :: sent_normals (w + 1) rest
  end.


(** ** The fetch queue and its hooks *)

(** A hook that calls one of the two callbacks of a fetch. *)
Definition fetch_hook (h : hook) : bool :=
  String.eqb (hook_callback h) "masklist_add_cb"
  || String.eqb (hook_callback h) "masklist_end_cb".

(** The pair of hooks that [fetch] installs. *)
Definition fetch_hooks (hs : list hook) : Prop :=
  exists h1 h2,
    hs = [h1; h2] /\
    hook_what h1 = ModifierHook "irc_in_367" /\
    hook_callback h1 = "masklist_add_cb"%string /\
    hook_what h2 = ModifierHook "irc_in_368" /\
    hook_callback h2 = "masklist_end_cb"%string.

(** No request is queued twice, every request names one of the two caches,
    [hook_fetch] holds the hooks of the two callbacks that the host has, and
    these are the pair of [fetch] while a request is queued and none
    otherwise. *)
Definition fetch_ok (st : MaskCache.state) : Prop :=
  NoDup (MaskCache.hook_queue st) /\
  (forall key, In key (MaskCache.hook_queue st) ->
               exists self, MaskCache.maskModes (snd key) = Ret self) /\
  List.filter fetch_hook (MaskCache.hooks st) = MaskCache.hook_fetch st /\
  (MaskCache.hook_queue st = [] -> MaskCache.hook_fetch st = []) /\
  (MaskCache.hook_queue st <> [] -> fetch_hooks (MaskCache.hook_fetch st)).

(** ** [time_elapsed]

    [time_elapsed(elapsed, ret, level)] on integers. Each call appends one
    part to [ret] and calls itself on what is left, which is less than the
    unit just written, so five calls are the most there can be; [fuel]
    counts them. *)
Fixpoint time_elapsed_loop (fuel : nat) (elapsed : Z) (ret : list string) (level : Z)
  : option string :=
  match fuel with
  | O => None
  | S fuel =>
      if elapsed =? 0 then Some EmptyString
      else
        let '(part, elapsed) :=
          if 31536000 <? elapsed then
            (of_Z (elapsed / 31536000) +:+ "y", elapsed mod 31536000)
          else if 86400 <? elapsed then
            (of_Z (elapsed / 86400) +:+ "d", elapsed mod 86400)
          else if 3600 <? elapsed then
            (of_Z (elapsed / 3600) +:+ "h", elapsed mod 3600)
          else if 60 <? elapsed then
            (of_Z (elapsed / 60) +:+ "m", elapsed mod 60)
          else (of_Z elapsed +:+ "s", 0) in
        let ret := ret ++ [part] in
        if (level <=? Z.of_nat (List.length ret)) || (elapsed =? 0)
        then Some (join " " ret)
        else time_elapsed_loop fuel elapsed ret level
  end.

(** [time_elapsed(elapsed, level=level)] *)
Definition time_elapsed (elapsed level : Z) : option string :=
  time_elapsed_loop 5 elapsed [] level.

(** ** A host with a list of nicks *)

(** The host of the examples when it is in [#chan] on [freenode] with two
    nicks, each with its [user@host]. *)
Definition example_host_in_channel : Host :=
  mkHost
    (buffer_search example_host)
    (irc_is_channel example_host)
    (fun server channel =>
       if String.eqb server "freenode" && String.eqb channel "#chan"
       then Some [("Alice", "~alice@host.example"); ("bob", "bob@10.0.0.1")]%string
       else None).

(** ** Signals that keep the user cache *)

(** [s.lstrip(c)] for one character. *)
Fixpoint lstrip_char (c : ascii) (s : string) : string :=
  match s with
  | String x s' => if Ascii.eqb x c then lstrip_char c s' else s
  | EmptyString => EmptyString
  end.

(** [s.rfind(c)] for a one-character needle: the last index, or -1. *)
Fixpoint rfind_from (c : ascii) (s : string) (i last : Z) : Z :=
  match s with
  | EmptyString => last
  | String x s' => rfind_from c s' (i + 1) (if Ascii.eqb x c then i else last)
  end.

Definition rfind (c : ascii) (s : string) : Z := rfind_from c s 0 (-1).

(** [l[i]] *)
Definition list_getitem (l : list string) (i : nat) : py string :=
  match nth_error l i with
  | Some x => Ret x
  | None => Raise IndexError
  end.

(** [is_tracked(server, channel)]; [chanop_channels] is a
    [CaseInsensibleSet] of pairs. *)
Definition is_tracked (chanop_channels : list (string * string))
  (server channel : string) : bool :=
  existsb (fun k => case_eq_key k (server, channel)) chanop_channels.

(** What the decorator [signal_parse] hands to the callback: the server,
    the channel and the nick. *)
Definition signal_parse (signal signal_data : string)
  : py (string * string * string) :=
  let server := slice_to signal (find "," signal) in
  do word <- list_getitem (split_ws signal_data) 2;
  let channel := lstrip_char ":" word in
  do nick <- get_nick signal_data;
  Ret (server, channel, nick).

(** [join_cb], decorated; [own_nick server] is
    [weechat.info_get('irc_nick', server)]. *)
Definition join_cb (host : Host) (own_nick : string -> string)
  (chanop_channels : list (string * string)) (users : UserCache.cache)
  (signal signal_data : string) : py UserCache.cache :=
  do args <- signal_parse signal signal_data;
  let '(server, channel, nick) := args in
  let key := (server, channel) in
  if String.eqb nick (own_nick server) then
    if is_tracked chanop_channels server channel then
      do r <- UserCache.generate_cache host users server channel; Ret (fst r)
    else Ret users
  else if CaseInsensibleDict.contains users key then
    let hostname := slice signal_data 1 (find " " signal_data) in
    do l <- CaseInsensibleDict.getitem users key;
    do l' <- UserList.setitem l nick hostname;
    Ret (CaseInsensibleDict.setitem users key l')
  else Ret users.

(** [part_cb], decorated; [now] is the value of [now()]. *)
Definition part_cb (now : Z) (users : UserCache.cache) (signal signal_data : string)
  : py UserCache.cache :=
  do args <- signal_parse signal signal_data;
  let '(server, channel, nick) := args in
  let key := (server, channel) in
  if CaseInsensibleDict.contains users key then
    do l <- CaseInsensibleDict.getitem users key;
    Ret (CaseInsensibleDict.setitem users key (UserList.remove now l nick))
  else Ret users.

(** The loop [for key in keys] of [quit_cb] and [nick_cb], with the body
    [f] applied to the list of each key. *)
Fixpoint for_keys (f : UserList.t -> py UserList.t) (keys : list (string * string))
  (users : UserCache.cache) : py UserCache.cache :=
  match keys with
  | [] => Ret users
  | key :: rest =>
      do l <- CaseInsensibleDict.getitem users key;
      do l' <- f l;
      for_keys f rest (CaseInsensibleDict.setitem users key l')
  end.

(** The decorator [signal_parse_no_channel] around a callback [f] that
    gets the keys, the nick and the signal data. *)
Definition signal_parse_no_channel
  (f : list (string * string) -> string -> string -> UserCache.cache -> py UserCache.cache)
  (users : UserCache.cache) (signal signal_data : string) : py UserCache.cache :=
  let server := slice_to signal (find "," signal) in
  do nick <- get_nick signal_data;
  let keys := UserCache.getKeys users server nick in
  match keys with
  | [] => Ret users
  | _ => f keys nick signal_data users
  end.

(** [quit_cb], decorated *)
Definition quit_cb (now : Z) (users : UserCache.cache) (signal signal_data : string)
  : py UserCache.cache :=
  signal_parse_no_channel
    (fun keys nick _ users =>
       for_keys (fun l => Ret (UserList.remove now l nick)) keys users)
    users signal signal_data.

(** [nick_cb], decorated *)
Definition nick_cb (now : Z) (users : UserCache.cache) (signal signal_data : string)
  : py UserCache.cache :=
  signal_parse_no_channel
    (fun keys nick signal_data users =>
       let hostname := slice signal_data 1 (find " " signal_data) in
       let newnick := slice_from signal_data (rfind " " signal_data + 2) in
       let newhostname :=
         newnick +:+ "!" +:+ slice_from hostname (find "!" hostname + 1) in
       for_keys (fun l => UserList.setitem (UserList.remove now l nick) newnick newhostname)
                keys users)
    users signal signal_data.

(** A string without whitespace. *)
Definition no_space (s : string) : bool := all_chars (fun c => negb (is_space c)) s.

(** ** [ServerChannelDict.purge] and the garbage collector *)

Section Purge.
Context {V : Type}.

(** The first loop of [ServerChannelDict.purge]: the lists of the channels
    that are not tracked are deleted. [keys] is [self.keys()], a copy. *)
Fixpoint drop_untracked (chanop_channels : list (string * string))
  (keys : list (string * string)) (c : gmap (string * string) ((string * string) * V))
  : py (gmap (string * string) ((string * string) * V)) :=
  match keys with
  | [] => Ret c
  | key :: rest =>
      if negb (is_tracked chanop_channels (fst key) (snd key)) then
        do c' <- CaseInsensibleDict.delitem c key;
        drop_untracked chanop_channels rest c'
      else drop_untracked chanop_channels rest c
  end.

(** [ServerChannelDict.purge()]; [purge_data] is the [purge] of the lists
    the dictionary holds. *)
Definition ServerChannelDict_purge (purge_data : V -> V)
  (chanop_channels : list (string * string))
  (c : gmap (string * string) ((string * string) * V))
  : py (gmap (string * string) ((string * string) * V)) :=
  do c' <- drop_untracked chanop_channels (CaseInsensibleDict.keys c) c;
  Ret (fmap (fun e => (fst e, purge_data (snd e))) c').

End Purge.

(** [garbage_collector_cb], without what it writes to the debug buffer:
    the two caches of masks and the cache of users after it. *)
Definition garbage_collector_cb (now : Z) (chanop_channels : list (string * string))
  (banlist mutelist : MaskCache.cache) (users : UserCache.cache)
  : py (MaskCache.cache * MaskCache.cache * UserCache.cache) :=
  do b <- ServerChannelDict_purge MaskList.purge chanop_channels banlist;
  do m <- ServerChannelDict_purge MaskList.purge chanop_channels mutelist;
  do u <- ServerChannelDict_purge (UserList.purge now) chanop_channels users;
  Ret (b, m, u).
(** * Properties *)

(** ** Strings *)

Lemma find_from_range (c : ascii) (s : string) (i : Z) :
  find_from c s i = -1 \/ (i <= find_from c s i < i + len s).
Proof.
  revert i. induction s as [|x s IH]; intros i; simpl.
  - now left.
  - destruct (Ascii.eqb x c).
    + right. unfold len. simpl String.length. lia.
    + destruct (IH (i + 1)) as [E|R]; [now left|right].
      unfold len in *. simpl String.length. lia.
Qed.

Lemma find_range (c : ascii) (s : string) :
  find c s = -1 \/ (0 <= find c s < len s).
Proof. unfold find. destruct (find_from_range c s 0); [now left|right; lia]. Qed.

Lemma find_from_absent (c : ascii) (s : string) (i : Z) :
  ~ occurs c s -> find_from c s i = -1.
Proof.
  revert i. induction s as [|x s IH]; intros i Hno; simpl; [reflexivity|].
  destruct (Ascii.eqb_spec x c) as [->|Hne].
  - exfalso. apply Hno. now exists 0%nat.
  - apply IH. intros [j Hj]. apply Hno. now exists (S j).
Qed.

Lemma find_absent (c : ascii) (s : string) : ~ occurs c s -> find c s = -1.
Proof. apply find_from_absent. Qed.

Lemma find_from_present (c : ascii) (s : string) (i : Z) :
  find_from c s i <> -1 -> 0 <= i -> occurs c s.
Proof.
  revert i. induction s as [|x s IH]; intros i Hf Hi; simpl in Hf; [congruence|].
  destruct (Ascii.eqb_spec x c) as [->|Hne].
  - now exists 0%nat.
  - destruct (IH (i + 1) Hf ltac:(lia)) as [j Hj]. now exists (S j).
Qed.

Lemma find_present (c : ascii) (s : string) : find c s <> -1 -> occurs c s.
Proof. intros Hf. now apply (find_from_present c s 0). Qed.

Lemma getitem_0_nonempty (s : string) :
  0 < len s -> exists c, getitem s 0 = Ret c.
Proof.
  destruct s as [|c s]; unfold len; simpl; [lia|].
  intros _. exists c. reflexivity.
Qed.

Lemma substring_length (n m : nat) (s : string) :
  (n + m <= String.length s)%nat -> String.length (String.substring n m s) = m.
Proof.
  revert n m. induction s as [|c s IH]; intros n m Hle; simpl in Hle.
  - assert (n = 0%nat) by lia. assert (m = 0%nat) by lia. subst. reflexivity.
  - destruct n as [|n]; simpl.
    + destruct m as [|m]; simpl; [reflexivity|].
      f_equal. apply (IH 0%nat m). lia.
    + apply IH. lia.
Qed.

Lemma slice_length (s : string) (a b : Z) :
  0 <= a -> a <= b -> b <= len s -> len (slice s a b) = b - a.
Proof.
  intros Ha Hab Hb. unfold slice, clamp.
  destruct (a <? 0) eqn:Ea; [apply Z.ltb_lt in Ea; lia|].
  destruct (b <? 0) eqn:Eb; [apply Z.ltb_lt in Eb; lia|].
  rewrite (Z.min_r (len s) a) by lia. rewrite (Z.min_r (len s) b) by lia.
  rewrite !Z.max_r by lia.
  destruct (a <? b) eqn:Eab.
  - unfold len in *. rewrite substring_length; lia.
  - apply Z.ltb_ge in Eab. unfold len. simpl. lia.
Qed.

(** ** The hostmask part extractors *)

Lemma get_nick_without_bang (s : string) :
  ~ occurs "!" s -> get_nick s = Ret EmptyString.
Proof.
  intros Hno. unfold get_nick. rewrite (find_absent _ _ Hno). reflexivity.
Qed.

Lemma get_nick_returns (s : string) : exists r, get_nick s = Ret r.
Proof.
  unfold get_nick. destruct (find "!" s <? 1) eqn:E; [now eexists|].
  apply Z.ltb_ge in E.
  destruct (find_range "!" s) as [F|F]; [lia|].
  destruct (getitem_0_nonempty s ltac:(lia)) as [c ->]. simpl.
  destruct (Ascii.eqb c ":"); now eexists.
Qed.

Lemma get_user_without_separator (s : string) (trim : bool) :
  ~ occurs "!" s \/ ~ occurs "@" s -> get_user s trim = Ret EmptyString.
Proof.
  intros [Hno|Hno]; unfold get_user; rewrite (find_absent _ _ Hno).
  - reflexivity.
  - rewrite andb_false_r. reflexivity.
Qed.

Lemma get_user_returns (s : string) : exists r, get_user s false = Ret r.
Proof.
  unfold get_user.
  destruct ((0 <? find "!" s) && (2 <? find "@" s) && (find "!" s <? find "@" s));
    now eexists.
Qed.

Lemma get_host_without_at (s : string) : ~ occurs "@" s -> get_host s = EmptyString.
Proof.
  intros Hno. unfold get_host. rewrite (find_absent _ _ Hno). reflexivity.
Qed.

(** C9, as the code has it: each extractor looks only for the separators it
    needs. [get_nick] returns the empty string whenever the [!] is missing,
    [get_host] whenever the [@] is missing, and [get_user] whenever either is
    missing; [get_nick] and [get_user] (without trimming) return on every
    string, and [get_host] is built from operations that cannot raise. *)
Theorem extractors_on_malformed_input (s : string) :
  (~ occurs "!" s -> get_nick s = Ret EmptyString) /\
  (~ occurs "@" s -> get_host s = EmptyString) /\
  (~ occurs "!" s \/ ~ occurs "@" s ->
   forall trim, get_user s trim = Ret EmptyString) /\
  (exists r, get_nick s = Ret r) /\
  (exists r, get_user s false = Ret r).
Proof.
  split; [apply get_nick_without_bang|].
  split; [apply get_host_without_at|].
  split; [intros Hno trim; now apply get_user_without_separator|].
  split; [apply get_nick_returns|apply get_user_returns].
Qed.

Lemma find_from_none (c : ascii) (s : string) (k : Z) :
  0 <= k -> find_from c s k = -1 -> ~ occurs c s.
Proof.
  revert k. induction s as [|x s IH]; intros k Hk Hf [i Hi]; simpl in *;
    [discriminate|].
  destruct (Ascii.eqb_spec x c) as [->|Hne]; [lia|].
  destruct i as [|i]; simpl in Hi; [congruence|].
  apply (IH (k + 1) ltac:(lia) Hf). now exists i.
Qed.

Lemma no_char_in_literal (c : ascii) (s : string) :
  find c s = -1 -> ~ occurs c s.
Proof. apply find_from_none. lia. Qed.

Lemma extractors_on_malformed_input_witness :
  get_nick "nickname" = Ret EmptyString /\
  get_host "nick!user" = EmptyString /\
  get_user "user@host" true = Ret EmptyString.
Proof.
  destruct (extractors_on_malformed_input "nickname") as (Hn & _).
  destruct (extractors_on_malformed_input "nick!user") as (_ & Hh & _).
  destruct (extractors_on_malformed_input "user@host") as (_ & _ & Hu & _).
  split; [|split].
  - apply Hn. apply no_char_in_literal. reflexivity.
  - apply Hh. apply no_char_in_literal. reflexivity.
  - apply Hu. left. apply no_char_in_literal. reflexivity.
Defined.

(** C9 as stated fails: a string with a [!] and no [@] still has a nick, and
    a string with an [@] and no [!] still has a host. *)
Lemma extractors_nonempty_on_malformed_input :
  ~ occurs "@" "nick!user" /\ get_nick "nick!user" = Ret "nick"%string /\
  ~ occurs "!" "abc@host" /\ get_host "abc@host" = "host"%string.
Proof.
  split; [apply no_char_in_literal; reflexivity|].
  split; [reflexivity|].
  split; [apply no_char_in_literal; reflexivity|reflexivity].
Qed.

(** ** Searching masks by hostmask *)

Lemma is_hostmask_needs_separators (p : string) :
  ~ occurs "!" p \/ ~ occurs "@" p -> is_hostmask p = false.
Proof.
  intros [Hno|Hno]; unfold is_hostmask; rewrite (find_absent _ _ Hno).
  - rewrite andb_false_r. reflexivity.
  - rewrite andb_false_r. reflexivity.
Qed.

Lemma hostmask_pattern_match_not_hostmask (p : string) (xs : strings_arg) :
  is_hostmask p = false -> hostmask_pattern_match p xs = [].
Proof. intros Hp. unfold hostmask_pattern_match. now rewrite Hp. Qed.

Lemma hostmask_pattern_match_found (p : string) (xs : strings_arg) :
  MaskList.nonempty (hostmask_pattern_match p xs) = true -> is_hostmask p = true.
Proof.
  unfold hostmask_pattern_match. destruct (is_hostmask p); [reflexivity|discriminate].
Qed.

Lemma MaskList_searchByHostmask_shape (l : MaskList.t) (hostmask m : string) :
  In m (MaskList.searchByHostmask l hostmask) ->
  In m (CaseInsensibleDict.keys (MaskList.masks l)) /\ is_hostmask m = true.
Proof.
  unfold MaskList.searchByHostmask. rewrite filter_In. intros [Hin Hm].
  split; [exact Hin|]. now apply hostmask_pattern_match_found in Hm.
Qed.

Lemma MaskCache_searchByHostmask_shape (c : MaskCache.cache) (hostmask : option string)
  (server channel m : string) :
  In m (MaskCache.searchByHostmask c hostmask server channel) -> is_hostmask m = true.
Proof.
  unfold MaskCache.searchByHostmask.
  destruct hostmask as [h|]; [|intros []].
  destruct (String.eqb h EmptyString); [intros []|].
  destruct (CaseInsensibleDict.getitem c (server, channel)) as [l|e]; [|intros []].
  intros Hin. now apply MaskList_searchByHostmask_shape in Hin.
Qed.

(** C10: a pattern that is not shaped like a hostmask matches nothing, so
    the searches by hostmask and by nick return only stored masks of the
    shape [nick!user@host], and a cached mask without that shape (one
    without [!] or without [@], for instance) is never among their results. *)
Theorem hostmask_search_only_finds_hostmasks :
  (forall (p : string) (xs : strings_arg),
      is_hostmask p = false -> hostmask_pattern_match p xs = []) /\
  (forall p : string, ~ occurs "!" p \/ ~ occurs "@" p -> is_hostmask p = false) /\
  (forall (l : MaskList.t) (hostmask m : string),
      In m (MaskList.searchByHostmask l hostmask) ->
      In m (CaseInsensibleDict.keys (MaskList.masks l)) /\ is_hostmask m = true) /\
  (forall (l : MaskList.t) (hostmask m : string),
      is_hostmask m = false -> ~ In m (MaskList.searchByHostmask l hostmask)) /\
  (forall (c : MaskCache.cache) (hostmask : option string) (server channel m : string),
      is_hostmask m = false ->
      ~ In m (MaskCache.searchByHostmask c hostmask server channel)) /\
  (forall (host : Host) (users users' : UserCache.cache) (c : MaskCache.cache)
          (nick server channel m : string) (found : list string),
      MaskCache.searchByNick host users c nick server channel = Ret (users', found) ->
      is_hostmask m = false -> ~ In m found).
Proof.
  split; [apply hostmask_pattern_match_not_hostmask|].
  split; [apply is_hostmask_needs_separators|].
  split; [apply MaskList_searchByHostmask_shape|].
  split.
  { intros l h m Hm Hin. apply MaskList_searchByHostmask_shape in Hin. destruct Hin. congruence. }
  split.
  { intros c h server channel m Hm Hin.
    apply MaskCache_searchByHostmask_shape in Hin. congruence. }
  intros host users users' c nick server channel m found Hs Hm Hin.
  unfold MaskCache.searchByNick in Hs.
  destruct (UserCache.hostFromNick host users nick server channel) as [r|e];
    simpl in Hs; [|discriminate].
  injection Hs as _ <-.
  apply MaskCache_searchByHostmask_shape in Hin. congruence.
Qed.

(** ** The webchat ban mask *)

Lemma occurs_append (c : ascii) (a b : string) :
  occurs c (a +:+ b) <-> occurs c a \/ occurs c b.
Proof.
  induction a as [|x a IH]; simpl.
  - split; [now right|]. intros [[i Hi]|H]; [destruct i; discriminate|exact H].
  - split.
    + intros [[|i] Hi]; simpl in Hi.
      * left. now exists 0%nat.
      * destruct (proj1 IH) as [[j Hj]|Hb]; [now exists i| |now right].
        left. now exists (S j).
    + intros [[[|i] Hi]|Hb].
      * now exists 0%nat.
      * simpl in Hi. destruct (proj2 IH) as [j Hj]; [left; now exists i|].
        now exists (S j).
      * destruct (proj2 IH) as [j Hj]; [now right|]. now exists (S j).
Qed.

Lemma has_nul_false (s : string) : ~ occurs "000" s -> PyInt.has_nul s = false.
Proof.
  intros Hno. unfold PyInt.has_nul. rewrite (find_absent _ _ Hno). reflexivity.
Qed.

Lemma string_of_uint_no_nul (d : Decimal.uint) :
  ~ occurs "000" (NilEmpty.string_of_uint d).
Proof.
  induction d; simpl; intros [i Hi];
    try (destruct i as [|i]; simpl in Hi; [discriminate|]; apply IHd; now exists i).
  destruct i; discriminate.
Qed.

Lemma of_Z_no_nul (n : Z) : ~ occurs "000" (of_Z n).
Proof.
  unfold of_Z, NilZero.string_of_int, NilZero.string_of_uint.
  destruct (Z.to_int n) as [d|d].
  - destruct d; try apply string_of_uint_no_nul.
    intros [[|[|i]] Hi]; discriminate.
  - intros [[|i] Hi]; simpl in Hi; [discriminate|].
    destruct d; try (apply (string_of_uint_no_nul _ (ex_intro _ i Hi))).
    destruct i as [|[|i]]; discriminate.
Qed.

Lemma join_no_nul (l : list string) :
  Forall (fun x => ~ occurs "000" x) l -> ~ occurs "000" (join "." l).
Proof.
  induction 1 as [|x l Hx Hl IH]; simpl.
  - intros [[|i] Hi]; discriminate.
  - destruct l as [|y l]; [exact Hx|].
    intros Hocc. apply occurs_append in Hocc as [Hocc|Hocc]; [now apply Hx|].
    apply occurs_append in Hocc as [Hocc|Hocc]; [|now apply IH].
    destruct Hocc as [[|[|i]] Hi]; discriminate.
Qed.

Lemma hex_to_ip_no_nul (s : string) : ~ occurs "000" (hex_to_ip s).
Proof.
  unfold hex_to_ip. destruct (negb (len s =? 8)).
  - intros [[|i] Hi]; discriminate.
  - destruct (PyInt.map_py _ _) as [ip|e]; simpl.
    + apply join_no_nul. apply List.Forall_forall. intros x Hx.
      apply in_map_iff in Hx as (n & <- & _). apply of_Z_no_nul.
    + intros [[|i] Hi]; discriminate.
Qed.

Lemma is_ip_hex_to_ip_returns (s : string) : exists b, is_ip (hex_to_ip s) = Ret b.
Proof.
  unfold is_ip. destruct (negb (count "." (hex_to_ip s) =? 3)); [now eexists|].
  unfold Socket.inet_aton. rewrite (has_nul_false _ (hex_to_ip_no_nul s)).
  destruct (Socket.aton_loop _ _ _); now eexists.
Qed.

Lemma get_user_trim_returns (s : string) :
  is_hostmask s = true -> exists r, get_user s true = Ret r.
Proof.
  unfold is_hostmask, get_user. intros Hm.
  apply andb_prop in Hm as [Hm H4]. apply andb_prop in Hm as [Hm H3].
  apply andb_prop in Hm as [H1 H2].
  apply Z.ltb_lt in H1, H4. apply Z.leb_le in H2, H3.
  replace (0 <? find "!" s) with true by (symmetry; apply Z.ltb_lt; lia).
  replace (2 <? find "@" s) with true by (symmetry; apply Z.ltb_lt; lia).
  replace (find "!" s <? find "@" s) with true by (symmetry; apply Z.ltb_lt; lia).
  simpl.
  destruct (getitem_0_nonempty (slice s (find "!" s + 1) (find "@" s))) as [c ->].
  { rewrite slice_length; lia. }
  simpl. destruct (Ascii.eqb c "~"); [now eexists|].
  destruct (_ || _); now eexists.
Qed.

(** C8: with the webchat strategy, on a hostmask, [make_banmask] returns
    the mask [*!user@*] when the host part is not a valid hostname, the
    (trimmed) user part decodes as a hex-encoded IPv4 address and the decoded
    address does not occur in the host part, and the mask [*!*@host] in every
    other case. *)
Theorem make_banmask_webchat (banmask : list string) (hostmask : string) :
  str_in "webchat" banmask = true ->
  str_in "exact" banmask = false ->
  is_hostmask hostmask = true ->
  exists (trimmed user : string) (decodes : bool),
    get_user hostmask true = Ret trimmed /\
    get_user hostmask false = Ret user /\
    is_ip (hex_to_ip trimmed) = Ret decodes /\
    let host := get_host hostmask in
    let targets_user :=
      negb (is_hostname host) && decodes && negb (contains (hex_to_ip trimmed) host) in
    (targets_user = true ->
     make_banmask banmask hostmask = Ret ("*!" +:+ user +:+ "@*")) /\
    (targets_user = false ->
     make_banmask banmask hostmask = Ret ("*!*@" +:+ host)).
Proof.
  intros Hw He Hm.
  destruct (get_user_trim_returns hostmask Hm) as [trimmed Ht].
  destruct (get_user_returns hostmask) as [user Hu].
  destruct (is_ip_hex_to_ip_returns trimmed) as [decodes Hd].
  exists trimmed, user, decodes. repeat split; try assumption.
  - intros Hc. unfold make_banmask.
    destruct banmask as [|b bs]; [discriminate|].
    rewrite He, Hw, Ht. simpl py_bind. rewrite Hd.
    destruct (is_hostname (get_host hostmask)); [discriminate|]. simpl in *.
    rewrite Hc, Hu. reflexivity.
  - intros Hc. unfold make_banmask.
    destruct banmask as [|b bs]; [discriminate|].
    rewrite He, Hw, Ht. simpl py_bind. rewrite Hd.
    destruct (is_hostname (get_host hostmask)); [reflexivity|]. simpl in *.
    rewrite Hc. reflexivity.
Qed.

Lemma make_banmask_webchat_witness :
  make_banmask ["webchat"%string] "nick!~7f000001@gateway/web/freenode/x-abc"
  = Ret "*!~7f000001@*"%string /\
  make_banmask ["webchat"%string] "nick!~user@host.example.org"
  = Ret "*!*@host.example.org"%string.
Proof.
  split.
  - destruct (make_banmask_webchat ["webchat"%string]
                "nick!~7f000001@gateway/web/freenode/x-abc"
                eq_refl eq_refl eq_refl)
      as (t & u & d & Ht & Hu & Hd & Huser & _).
    vm_compute in Ht. injection Ht as <-.
    vm_compute in Hu. injection Hu as <-.
    vm_compute in Hd. injection Hd as <-.
    apply Huser. vm_compute. reflexivity.
  - destruct (make_banmask_webchat ["webchat"%string]
                "nick!~user@host.example.org" eq_refl eq_refl eq_refl)
      as (t & u & d & Ht & Hu & Hd & _ & Hhost).
    vm_compute in Ht. injection Ht as <-.
    vm_compute in Hu. injection Hu as <-.
    vm_compute in Hd. injection Hd as <-.
    apply Hhost. vm_compute. reflexivity.
Defined.

(** ** Case-insensitive dictionaries *)

Lemma lower_upper_char (c : ascii) : lower_char (upper_char c) = lower_char c.
Proof. destruct c as [[] [] [] [] [] [] [] []]; reflexivity. Qed.

Lemma lower_lower_char (c : ascii) : lower_char (lower_char c) = lower_char c.
Proof. destruct c as [[] [] [] [] [] [] [] []]; reflexivity. Qed.

Lemma lower_upper (s : string) : lower (upper s) = lower s.
Proof. induction s as [|c s IH]; simpl; [reflexivity|]. now rewrite lower_upper_char, IH. Qed.

Lemma lower_lower (s : string) : lower (lower s) = lower s.
Proof. induction s as [|c s IH]; simpl; [reflexivity|]. now rewrite lower_lower_char, IH. Qed.

Section DictFacts.
Context {K : Type} `{Countable K} `{CaseInsensibleKey K} {V : Type}.
Implicit Types (d : gmap K (K * V)) (k : K) (v : V).

Lemma getitem_setitem d k k' v :
  fold_key k = fold_key k' ->
  CaseInsensibleDict.getitem (CaseInsensibleDict.setitem d k v) k' = Ret v.
Proof.
  intros E. unfold CaseInsensibleDict.getitem, CaseInsensibleDict.setitem.
  rewrite <- E, lookup_insert_eq. reflexivity.
Qed.

Lemma getitem_setitem_other d k k' v :
  fold_key k <> fold_key k' ->
  CaseInsensibleDict.getitem (CaseInsensibleDict.setitem d k v) k'
  = CaseInsensibleDict.getitem d k'.
Proof.
  intros E. unfold CaseInsensibleDict.getitem, CaseInsensibleDict.setitem.
  now rewrite lookup_insert_ne.
Qed.

Lemma contains_setitem d k k' v :
  fold_key k = fold_key k' ->
  CaseInsensibleDict.contains (CaseInsensibleDict.setitem d k v) k' = true.
Proof.
  intros E. unfold CaseInsensibleDict.contains, CaseInsensibleDict.setitem.
  rewrite <- E, lookup_insert_eq. apply bool_decide_eq_true. eauto.
Qed.

Lemma contains_fold d k k' :
  fold_key k = fold_key k' ->
  CaseInsensibleDict.contains d k = CaseInsensibleDict.contains d k'.
Proof. intros E. unfold CaseInsensibleDict.contains. now rewrite E. Qed.

Lemma getitem_fold d k k' :
  fold_key k = fold_key k' ->
  CaseInsensibleDict.getitem d k = CaseInsensibleDict.getitem d k'.
Proof. intros E. unfold CaseInsensibleDict.getitem. now rewrite E. Qed.

Lemma contains_true d k :
  CaseInsensibleDict.contains d k = true <-> is_Some (d !! fold_key k).
Proof. unfold CaseInsensibleDict.contains. apply bool_decide_eq_true. Qed.

Lemma contains_false d k :
  CaseInsensibleDict.contains d k = false <-> d !! fold_key k = None.
Proof.
  unfold CaseInsensibleDict.contains. rewrite bool_decide_eq_false.
  rewrite <- eq_None_not_Some. reflexivity.
Qed.

Lemma delitem_present d k :
  CaseInsensibleDict.contains d k = true ->
  CaseInsensibleDict.delitem d k = Ret (delete (fold_key k) d).
Proof.
  intros Hc. apply contains_true in Hc as [x Hx].
  unfold CaseInsensibleDict.delitem. now rewrite Hx.
Qed.

Lemma delitem_absent d k :
  CaseInsensibleDict.contains d k = false ->
  CaseInsensibleDict.delitem d k = Raise KeyError.
Proof.
  intros Hc. apply contains_false in Hc.
  unfold CaseInsensibleDict.delitem. now rewrite Hc.
Qed.

Lemma dict_ok_empty : dict_ok (∅ : gmap K (K * V)).
Proof. intros i k0 v Hl. rewrite lookup_empty in Hl. discriminate. Qed.

Lemma dict_ok_setitem d k v : dict_ok d -> dict_ok (CaseInsensibleDict.setitem d k v).
Proof.
  intros Hok i k0 v0. unfold CaseInsensibleDict.setitem, CaseInsensibleDict.stored_key.
  destruct (decide (fold_key k = i)) as [<-|Hne].
  - rewrite lookup_insert_eq. intros [= <- <-].
    destruct (d !! fold_key k) as [[k1 v1]|] eqn:E; [|reflexivity].
    now apply Hok in E.
  - rewrite lookup_insert_ne by assumption. apply Hok.
Qed.

Lemma dict_ok_delete d i : dict_ok d -> dict_ok (delete i d).
Proof.
  intros Hok j k0 v. destruct (decide (i = j)) as [<-|Hne].
  - rewrite lookup_delete_eq. discriminate.
  - rewrite lookup_delete_ne by assumption. apply Hok.
Qed.
End DictFacts.

(** C7: a key of a case-insensitive dictionary is looked up through its
    folded text. A value stored under one spelling of a key is returned for
    every other spelling, membership agrees for all spellings, and deleting
    through one spelling removes the entry for all of them; upper-casing or
    lower-casing a string key is such a respelling. *)
Theorem case_insensitive_lookup {K V : Type} `{Countable K} `{CaseInsensibleKey K}
  (d : gmap K (K * V)) (k k' : K) (v : V) :
  fold_key k = fold_key k' ->
  CaseInsensibleDict.getitem (CaseInsensibleDict.setitem d k v) k' = Ret v /\
  CaseInsensibleDict.contains (CaseInsensibleDict.setitem d k v) k' = true /\
  CaseInsensibleDict.getitem d k = CaseInsensibleDict.getitem d k' /\
  CaseInsensibleDict.contains d k = CaseInsensibleDict.contains d k' /\
  (exists d',
      CaseInsensibleDict.delitem (CaseInsensibleDict.setitem d k v) k' = Ret d' /\
      forall k'', fold_key k'' = fold_key k ->
                  CaseInsensibleDict.contains d' k'' = false /\
                  CaseInsensibleDict.getitem d' k'' = Raise KeyError) /\
  (forall s : string, fold_key (upper s) = fold_key s /\ fold_key (lower s) = fold_key s).
Proof.
  intros E.
  split; [now apply getitem_setitem|].
  split; [now apply contains_setitem|].
  split; [now apply getitem_fold|].
  split; [now apply contains_fold|].
  split.
  - eexists. split.
    + apply delitem_present. now apply contains_setitem.
    + intros k'' E''. rewrite <- E, <- E''.
      unfold CaseInsensibleDict.contains, CaseInsensibleDict.getitem.
      rewrite lookup_delete_eq. split; [|reflexivity].
      apply bool_decide_eq_false. intros [x Hx]. discriminate.
  - intros s. split; [apply lower_upper|apply lower_lower].
Qed.

Lemma case_insensitive_lookup_witness :
  CaseInsensibleDict.getitem
    (CaseInsensibleDict.setitem (∅ : gmap string (string * Z)) "Alice"%string 7)
    "ALICE"%string = Ret 7 /\
  CaseInsensibleDict.getitem
    (CaseInsensibleDict.setitem (∅ : gmap (string * string) ((string * string) * Z))
                                ("Freenode", "#Chan")%string 7)
    ("freenode", "#CHAN")%string = Ret 7.
Proof.
  split.
  - apply (case_insensitive_lookup (∅ : gmap string (string * Z))
             "Alice"%string "ALICE"%string 7). reflexivity.
  - apply (case_insensitive_lookup (∅ : gmap (string * string) ((string * string) * Z))
             ("Freenode", "#Chan")%string ("freenode", "#CHAN")%string 7). reflexivity.
Defined.

(** ** Merging the fields of a mask *)

Lemma merge_field_merges (old : pyval) (new : option pyval) :
  merges old new (merge_field old new).
Proof.
  split.
  - intros v -> Hv. simpl. now rewrite Hv.
  - intros [->|(v & -> & Hv)]; simpl; [reflexivity|]. now rewrite Hv.
Qed.

Lemma MaskList_setitem_existing (now : Z) (l : MaskList.t) (m : string)
  (d : mask_fields) (ban : MaskObject) :
  MaskList.getitem l m = Ret ban ->
  MaskList.setitem now l m d
  = Ret (MaskList.mk
           (CaseInsensibleDict.setitem (MaskList.masks l) m (MaskObject_update ban d))
           (MaskList.fetch_time l)).
Proof.
  unfold MaskList.getitem, MaskList.setitem. intros Hg.
  assert (Hc : CaseInsensibleDict.contains (MaskList.masks l) m = true).
  { apply contains_true. unfold CaseInsensibleDict.getitem in Hg.
    destruct (MaskList.masks l !! fold_key m); [eauto|discriminate]. }
  rewrite Hc, Hg. reflexivity.
Qed.

Lemma size_setitem_existing {V : Type} (d : gmap string (string * V)) (k : string) (v : V) :
  CaseInsensibleDict.contains d k = true ->
  size (CaseInsensibleDict.setitem d k v) = size d.
Proof.
  intros Hc. apply contains_true in Hc as [x Hx].
  unfold CaseInsensibleDict.setitem.
  rewrite <- (insert_delete_eq d (fold_key k) (CaseInsensibleDict.stored_key d k, v)).
  rewrite map_size_insert_None by apply lookup_delete_eq.
  rewrite <- (insert_delete_id d (fold_key k) x Hx) at 2.
  rewrite map_size_insert_None by apply lookup_delete_eq. reflexivity.
Qed.

(** C6: adding a mask with operator "A" and date 100 and adding it again
    with date 200 only leaves one record for the mask, with operator "A" and
    date 200. In general an add of a mask that is already stored keeps the
    number of records, and in the stored record every field that is given
    with a value that is not empty takes that value, and every other field
    keeps the value it had. *)
Theorem mask_merge (now : Z) (l : MaskList.t) (m : string) :
  (exists (l1 l2 : MaskList.t) (ban : MaskObject),
      MaskList.setitem now l m
        (MaskFields None (Some (PStr "A")) (Some (PInt 100)) None) = Ret l1 /\
      MaskList.setitem now l1 m (MaskFields None None (Some (PInt 200)) None) = Ret l2 /\
      MaskList.getitem l2 m = Ret ban /\
      operator ban = PStr "A" /\ date ban = PInt 200 /\
      size (MaskList.masks l2) = size (MaskList.masks l1)) /\
  (forall (d : mask_fields) (old : MaskObject),
      MaskList.getitem l m = Ret old ->
      exists (l' : MaskList.t) (ban : MaskObject),
        MaskList.setitem now l m d = Ret l' /\
        MaskList.getitem l' m = Ret ban /\
        size (MaskList.masks l') = size (MaskList.masks l) /\
        mask ban = mask old /\
        merges (hostmask old) (kw_hostmask d) (hostmask ban) /\
        merges (operator old) (kw_operator d) (operator ban) /\
        merges (date old) (kw_date d) (date ban) /\
        merges (expires old) (kw_expires d) (expires ban)).
Proof.
  split.
  - set (d1 := MaskFields None (Some (PStr "A")) (Some (PInt 100)) None).
    set (d2 := MaskFields None None (Some (PInt 200)) None).
    assert (H1 : exists l1 ban1, MaskList.setitem now l m d1 = Ret l1 /\
                                 MaskList.getitem l1 m = Ret ban1 /\
                                 operator ban1 = PStr "A").
    { unfold MaskList.setitem.
      destruct (CaseInsensibleDict.contains (MaskList.masks l) m) eqn:Hc.
      - apply contains_true in Hc as [[k0 old] Hold].
        unfold CaseInsensibleDict.getitem at 1. rewrite Hold. simpl.
        eexists _, _. split; [reflexivity|]. split.
        + unfold MaskList.getitem. simpl. now apply getitem_setitem.
        + reflexivity.
      - simpl. eexists _, _. split; [reflexivity|]. split.
        + unfold MaskList.getitem. simpl. now apply getitem_setitem.
        + reflexivity. }
    destruct H1 as (l1 & ban1 & Hs1 & Hg1 & Hop).
    exists l1. eexists _, _. split; [exact Hs1|].
    rewrite (MaskList_setitem_existing now l1 m d2 ban1 Hg1).
    split; [reflexivity|]. split.
    + unfold MaskList.getitem. simpl. now apply getitem_setitem.
    + split; [exact Hop|]. split; [reflexivity|]. simpl.
      apply size_setitem_existing. apply contains_true.
      unfold MaskList.getitem, CaseInsensibleDict.getitem in Hg1.
      destruct (MaskList.masks l1 !! fold_key m); [eauto|discriminate].
  - intros d old Hold.
    rewrite (MaskList_setitem_existing now l m d old Hold).
    eexists _, _. split; [reflexivity|]. split.
    + unfold MaskList.getitem. simpl. now apply getitem_setitem.
    + split.
      { simpl. apply size_setitem_existing. apply contains_true.
        unfold MaskList.getitem, CaseInsensibleDict.getitem in Hold.
        destruct (MaskList.masks l !! fold_key m); [eauto|discriminate]. }
      split; [reflexivity|].
      repeat split; apply merge_field_merges.
Qed.

(** ** Leaving and coming back: the user list *)

Lemma UserList_ok_init : UserList_ok UserList.init.
Proof. split; apply dict_ok_empty. Qed.

Lemma UserList_setitem_returns (l : UserList.t) (nick hostname : string) :
  UserList.setitem l nick hostname
  = Ret (UserList.mk (CaseInsensibleDict.setitem (UserList.users l) nick hostname)
                     (delete (fold_key nick) (UserList._temp_users l))).
Proof.
  unfold UserList.setitem.
  destruct (CaseInsensibleDict.contains (UserList._temp_users l) nick) eqn:Hc.
  - rewrite (delitem_present _ _ Hc). reflexivity.
  - apply contains_false in Hc. now rewrite delete_id.
Qed.

Lemma UserList_ok_setitem (l l' : UserList.t) (nick hostname : string) :
  UserList_ok l -> UserList.setitem l nick hostname = Ret l' -> UserList_ok l'.
Proof.
  intros [Hu Ht]. rewrite UserList_setitem_returns. intros [= <-]. split; simpl.
  - now apply dict_ok_setitem.
  - now apply dict_ok_delete.
Qed.

Lemma UserList_ok_remove (now : Z) (l : UserList.t) (nick : string) :
  UserList_ok l -> UserList_ok (UserList.remove now l nick).
Proof. intros [Hu Ht]. split; simpl; [exact Hu|now apply dict_ok_setitem]. Qed.

(** One round of the loop of [purge], on an item that is still marked. *)
Lemma purge_one_spec (now : Z) (l : UserList.t) (nick : string) (when : Z) :
  is_Some (UserList._temp_users l !! fold_key nick) ->
  UserList.purge_one now l (nick, when)
  = if 3600 <? now - when
    then UserList.mk (delete (fold_key nick) (UserList.users l))
                     (delete (fold_key nick) (UserList._temp_users l))
    else l.
Proof.
  intros Hin. unfold UserList.purge_one.
  destruct (3600 <? now - when); [|reflexivity].
  rewrite delitem_present by now apply contains_true.
  destruct (CaseInsensibleDict.contains (UserList.users l) nick) eqn:Hc.
  - now rewrite (delitem_present _ _ Hc).
  - rewrite (delitem_absent _ _ Hc). apply contains_false in Hc.
    now rewrite (delete_id _ _ Hc).
Qed.

Lemma purge_fold_spec (now : Z) (its : list (string * Z)) (l : UserList.t) :
  NoDup (List.map (fun it => fold_key (fst it)) its) ->
  (forall it, In it its -> is_Some (UserList._temp_users l !! fold_key (fst it))) ->
  forall i : string,
    UserList.users (fold_left (UserList.purge_one now) its l) !! i
    = (if expired_in now its i then None else UserList.users l !! i) /\
    UserList._temp_users (fold_left (UserList.purge_one now) its l) !! i
    = (if expired_in now its i then None else UserList._temp_users l !! i).
Proof.
  revert l. induction its as [|[nick when] its IH]; intros l Hnd Hin i.
  - split; reflexivity.
  - cbn [fold_left]. unfold expired_in. cbn [existsb fst snd].
    fold (expired_in now its i).
    cbn [List.map fst] in Hnd. apply NoDup_cons in Hnd as [Hnotin Hnd].
    rewrite purge_one_spec by (apply (Hin (nick, when)); now left).
    assert (Hrest : forall l', (forall j, j <> fold_key nick ->
                        UserList._temp_users l' !! j = UserList._temp_users l !! j) ->
                    forall it, In it its ->
                               is_Some (UserList._temp_users l' !! fold_key (fst it))).
    { intros l' Hsame it Hit. rewrite Hsame; [apply Hin; now right|].
      intros E. apply Hnotin. rewrite <- E.
      apply list_elem_of_In, in_map_iff. now exists it. }
    destruct (3600 <? now - when) eqn:Hexp.
    + destruct (IH (UserList.mk (delete (fold_key nick) (UserList.users l))
                                 (delete (fold_key nick) (UserList._temp_users l)))
                   Hnd) with (i := i) as [Hu Ht].
      { apply Hrest. intros j Hj. simpl. now rewrite lookup_delete_ne. }
      rewrite Hu, Ht. simpl.
      destruct (decide (fold_key nick = i)) as [<-|Hne].
      * rewrite bool_decide_eq_true_2 by reflexivity. simpl.
        rewrite !lookup_delete_eq. now destruct (expired_in now its (fold_key nick)).
      * rewrite bool_decide_eq_false_2 by assumption. simpl.
        now rewrite !lookup_delete_ne.
    + destruct (IH l Hnd) with (i := i) as [Hu Ht].
      { apply Hrest. reflexivity. }
      rewrite Hu, Ht. now rewrite andb_false_r.
Qed.

Lemma expired_in_items (now : Z) (temp : gmap string (string * Z)) (i : string) :
  dict_ok temp ->
  expired_in now (CaseInsensibleDict.items temp) i
  = match temp !! i with
    | Some (_, when) => 3600 <? now - when
    | None => false
    end.
Proof.
  intros Hok. unfold expired_in, CaseInsensibleDict.items.
  destruct (temp !! i) as [[k0 when]|] eqn:E.
  - destruct (3600 <? now - when) eqn:Hexp.
    + apply existsb_exists. exists (k0, when). split.
      * apply in_map_iff. exists (i, (k0, when)). split; [reflexivity|].
        apply list_elem_of_In, elem_of_map_to_list. exact E.
      * simpl. rewrite (Hok _ _ _ E), Hexp.
        now rewrite bool_decide_eq_true_2.
    + apply not_true_is_false. intros Hex.
      apply existsb_exists in Hex as ([k1 w1] & Hit & Hb).
      apply in_map_iff in Hit as ([j [k2 w2]] & [= -> ->] & Hj).
      apply list_elem_of_In, elem_of_map_to_list in Hj. simpl in Hb.
      apply andb_prop in Hb as [Hk Hw]. apply bool_decide_eq_true in Hk.
      rewrite (Hok _ _ _ Hj) in Hk. subst j. rewrite E in Hj.
      injection Hj as -> ->. congruence.
  - apply not_true_is_false. intros Hex.
    apply existsb_exists in Hex as ([k1 w1] & Hit & Hb).
    apply in_map_iff in Hit as ([j [k2 w2]] & [= -> ->] & Hj).
    apply list_elem_of_In, elem_of_map_to_list in Hj. simpl in Hb.
    apply andb_prop in Hb as [Hk Hw]. apply bool_decide_eq_true in Hk.
    rewrite (Hok _ _ _ Hj) in Hk. subst j. congruence.
Qed.

Lemma purge_spec (now : Z) (l : UserList.t) (i : string) :
  UserList_ok l ->
  UserList.users (UserList.purge now l) !! i
  = match UserList._temp_users l !! i with
    | Some (_, when) => if 3600 <? now - when then None else UserList.users l !! i
    | None => UserList.users l !! i
    end /\
  UserList._temp_users (UserList.purge now l) !! i
  = match UserList._temp_users l !! i with
    | Some (k0, when) => if 3600 <? now - when then None else Some (k0, when)
    | None => None
    end.
Proof.
  intros [Hu Ht]. unfold UserList.purge.
  destruct (purge_fold_spec now (CaseInsensibleDict.items (UserList._temp_users l)) l)
    with (i := i) as [Eu Et].
  - unfold CaseInsensibleDict.items. rewrite List.map_map.
    assert (Hfst : List.map (fun x => fold_key (fst (snd x)))
                            (map_to_list (UserList._temp_users l))
                   = List.map fst (map_to_list (UserList._temp_users l))).
    { apply map_ext_in. intros [j [k0 w]] Hj. simpl.
      apply list_elem_of_In, elem_of_map_to_list in Hj. now apply Ht in Hj. }
    rewrite Hfst. apply NoDup_fst_map_to_list.
  - intros [k0 w] Hit. unfold CaseInsensibleDict.items in Hit.
    apply in_map_iff in Hit as ([j [k1 w1]] & [= -> ->] & Hj).
    apply list_elem_of_In, elem_of_map_to_list in Hj. simpl.
    rewrite (Ht _ _ _ Hj). eauto.
  - rewrite Eu, Et, (expired_in_items now _ i Ht).
    destruct (UserList._temp_users l !! i) as [[k0 when]|]; [|now split].
    destruct (3600 <? now - when); now split.
Qed.

Lemma purge_lookup (now : Z) (l : UserList.t) (k : string) :
  UserList_ok l ->
  (forall when, pending_since l k = Some when -> 3600 < now - when ->
                UserList.contains (UserList.purge now l) k = false /\
                pending_since (UserList.purge now l) k = None) /\
  (pending_since l k = None \/
   (exists when, pending_since l k = Some when /\ now - when <= 3600) ->
   UserList.getitem (UserList.purge now l) k = UserList.getitem l k /\
   UserList.contains (UserList.purge now l) k = UserList.contains l k /\
   pending_since (UserList.purge now l) k = pending_since l k).
Proof.
  intros Hok. destruct (purge_spec now l (fold_key k) Hok) as [Eu Et].
  unfold pending_since, UserList.contains, UserList.getitem,
    CaseInsensibleDict.contains, CaseInsensibleDict.getitem.
  rewrite Eu, Et.
  destruct (UserList._temp_users l !! fold_key k) as [[k0 w]|].
  - split.
    + intros when [= <-] Hold.
      replace (3600 <? now - w) with true by (symmetry; apply Z.ltb_lt; lia).
      split; [|reflexivity]. apply bool_decide_eq_false. intros [x Hx]. discriminate.
    + intros [Hn|(when & [= <-] & Hyoung)]; [discriminate|].
      replace (3600 <? now - w) with false by (symmetry; apply Z.ltb_ge; lia).
      repeat split.
  - split; [intros when Hn; discriminate|]. intros _. repeat split.
Qed.

(** C5: leaving marks the nick with the time and deletes nothing, so every
    lookup answers as before; adding the nick again stores the new hostmask
    and takes the mark away; [purge] deletes the nicks that have been marked
    for more than an hour, from the list and from the marks, and leaves every
    other nick and mark as it was; so a nick that left and came back with a
    new hostmask is found with that hostmask before and after any [purge]. *)
Theorem user_pending_removal (l : UserList.t) (nick : string) :
  UserList_ok l ->
  (forall t0 : Z,
      pending_since (UserList.remove t0 l nick) nick = Some t0 /\
      forall k, UserList.getitem (UserList.remove t0 l nick) k = UserList.getitem l k /\
                UserList.contains (UserList.remove t0 l nick) k = UserList.contains l k) /\
  (forall hostname : string,
      exists l', UserList.setitem l nick hostname = Ret l' /\
                 UserList.getitem l' nick = Ret hostname /\
                 pending_since l' nick = None) /\
  (forall (now : Z) (k : string),
      (forall when, pending_since l k = Some when -> 3600 < now - when ->
                    UserList.contains (UserList.purge now l) k = false /\
                    pending_since (UserList.purge now l) k = None) /\
      (pending_since l k = None \/
       (exists when, pending_since l k = Some when /\ now - when <= 3600) ->
       UserList.getitem (UserList.purge now l) k = UserList.getitem l k /\
       UserList.contains (UserList.purge now l) k = UserList.contains l k /\
       pending_since (UserList.purge now l) k = pending_since l k)) /\
  (forall (t0 now : Z) (hostname : string),
      exists l2, UserList.setitem (UserList.remove t0 l nick) nick hostname = Ret l2 /\
                 UserList.getitem l2 nick = Ret hostname /\
                 pending_since l2 nick = None /\
                 UserList.getitem (UserList.purge now l2) nick = Ret hostname /\
                 pending_since (UserList.purge now l2) nick = None).
Proof.
  intros Hok.
  assert (Hset : forall l0 hostname,
             exists l', UserList.setitem l0 nick hostname = Ret l' /\
                        UserList.getitem l' nick = Ret hostname /\
                        pending_since l' nick = None).
  { intros l0 hostname. rewrite UserList_setitem_returns. eexists. split; [reflexivity|].
    split.
    - unfold UserList.getitem. simpl. now apply getitem_setitem.
    - unfold pending_since. simpl. now rewrite lookup_delete_eq. }
  split; [|split; [|split]].
  - intros t0. split.
    + unfold pending_since, UserList.remove, CaseInsensibleDict.setitem. simpl.
      now rewrite lookup_insert_eq.
    + intros k. split; reflexivity.
  - apply Hset.
  - intros now k. now apply purge_lookup.
  - intros t0 now hostname.
    destruct (Hset (UserList.remove t0 l nick) hostname) as (l2 & Hs & Hg & Hp).
    exists l2. split; [exact Hs|]. split; [exact Hg|]. split; [exact Hp|].
    assert (Hok2 : UserList_ok l2).
    { apply (UserList_ok_setitem _ _ _ _ (UserList_ok_remove t0 l nick Hok) Hs). }
    destruct (purge_lookup now l2 nick Hok2) as [_ Hkeep].
    destruct Hkeep as (Eg & _ & Ep); [now left|].
    rewrite Eg, Ep. now split.
Qed.

Lemma user_pending_removal_witness :
  exists l2,
    UserList.setitem (UserList.remove 1000 UserList.init "Alice") "Alice"
                     "alice!user@new.example.org" = Ret l2 /\
    UserList.getitem l2 "Alice" = Ret "alice!user@new.example.org"%string /\
    pending_since l2 "Alice" = None /\
    UserList.getitem (UserList.purge 99999 l2) "Alice"
    = Ret "alice!user@new.example.org"%string /\
    pending_since (UserList.purge 99999 l2) "Alice" = None.
Proof.
  destruct (user_pending_removal UserList.init "Alice" UserList_ok_init)
    as (_ & _ & _ & H).
  exact (H 1000 99999 "alice!user@new.example.org"%string).
Defined.

Lemma mask_merge_witness :
  exists (l' : MaskList.t) (ban : MaskObject),
    MaskList.setitem 500 example_masklist "*!*@host.example"
                     (MaskFields None (Some (PStr "")) (Some (PInt 200)) None) = Ret l' /\
    MaskList.getitem l' "*!*@host.example" = Ret ban /\
    operator ban = PStr "op!o@example.net" /\ date ban = PInt 200.
Proof.
  destruct (mask_merge 500 example_masklist "*!*@host.example") as [_ H].
  destruct (H (MaskFields None (Some (PStr "")) (Some (PInt 200)) None)
              (mkMaskObject "*!*@Host.Example" PNone (PStr "op!o@example.net")
                            (PInt 100) PNone)
              eq_refl)
    as (l' & ban & Hs & Hg & _ & _ & _ & Hop & Hdate & _).
  exists l', ban. split; [exact Hs|]. split; [exact Hg|]. split.
  - apply Hop. right. exists (PStr ""). split; reflexivity.
  - apply (proj1 Hdate (PInt 200)); reflexivity.
Defined.

Lemma hostmask_search_only_finds_hostmasks_witness :
  hostmask_pattern_match "*.example" (OneStr "irc.example") = [] /\
  ~ In "$a:account"%string
       (MaskList.searchByHostmask example_masklist "nick!user@host.example").
Proof.
  destruct hostmask_search_only_finds_hostmasks as (H1 & _ & _ & H4 & _).
  split.
  - apply H1. reflexivity.
  - apply H4. reflexivity.
Defined.

Example example_search :
  MaskList.searchByHostmask example_masklist "nick!user@host.example"
  = ["*!*@Host.Example"%string].
Proof. vm_compute. reflexivity. Qed.

(** ** Fetching the masks of a channel *)

Example example_fetch_first :
  MaskCache.hook_queue fetch_first = [("freenode", "#chan", "b")%string] /\
  MaskCache.commands_sent fetch_first
  = [("0x1server.freenode", "/wait 1 /mode #chan b")%string] /\
  List.length (MaskCache.hook_fetch fetch_first) = 2%nat.
Proof. vm_compute. repeat split. Qed.

(** A key that is in the queue is not fetched again. *)
Lemma fetch_in_flight (host : Host) (now : Z) (self : MaskCache.instance)
  (st : MaskCache.state) (server channel : string) :
  In (server, channel, MaskCache.mode self) (MaskCache.hook_queue st) ->
  MaskCache.fetch host now self st server channel = st.
Proof.
  intros Hin. unfold MaskCache.fetch.
  destruct (negb (MaskCache.supported_modes st server (MaskCache.mode self)));
    [reflexivity|].
  destruct (match CaseInsensibleDict.getitem _ _ with Ret _ => _ | Raise _ => _ end);
    [reflexivity|].
  destruct (_ || _); [reflexivity|].
  unfold MaskCache.key_in_queue. rewrite bool_decide_eq_true_2; [reflexivity|].
  now apply list_elem_of_In.
Qed.

(** A fetch either does nothing or queues its key and sends one command. *)
Lemma fetch_effect (host : Host) (now : Z) (self : MaskCache.instance)
  (st : MaskCache.state) (server channel : string) :
  let st' := MaskCache.fetch host now self st server channel in
  st' = st \/
  (MaskCache.hook_queue st'
   = MaskCache.hook_queue st ++ [(server, channel, MaskCache.mode self)] /\
   exists buffer cmd,
     MaskCache.commands_sent st' = MaskCache.commands_sent st ++ [(buffer, cmd)]).
Proof.
  unfold MaskCache.fetch.
  destruct (negb (MaskCache.supported_modes st server (MaskCache.mode self)));
    [now left|].
  destruct (match CaseInsensibleDict.getitem _ _ with Ret _ => _ | Raise _ => _ end);
    [now left|].
  destruct (_ || _); [now left|].
  destruct (MaskCache.key_in_queue _ _); [now left|].
  right. simpl.
  destruct (MaskCache.hook_fetch st); simpl; (split; [reflexivity|]); now eexists _, _.
Qed.

(** Two fetches of one key with nothing in between: one entry, one command. *)
Lemma fetch_twice (host : Host) (now now' : Z) (self : MaskCache.instance)
  (st : MaskCache.state) (server channel : string) :
  let st1 := MaskCache.fetch host now self st server channel in
  st1 <> st ->
  MaskCache.fetch host now' self st1 server channel = st1.
Proof.
  intros st1 Hne. apply fetch_in_flight.
  destruct (fetch_effect host now self st server channel) as [E|[Eq _]];
    [contradiction|].
  fold st1 in Eq. rewrite Eq. apply in_or_app. right. now left.
Qed.

Lemma MaskList_setitem_fetch_time (now : Z) (l l' : MaskList.t) (m : string)
  (d : mask_fields) :
  MaskList.setitem now l m d = Ret l' -> MaskList.fetch_time l' = MaskList.fetch_time l.
Proof.
  unfold MaskList.setitem.
  destruct (CaseInsensibleDict.contains (MaskList.masks l) m).
  - destruct (CaseInsensibleDict.getitem (MaskList.masks l) m); simpl; [|discriminate].
    now intros [= <-].
  - destruct (MaskObject_init now m d); simpl; [|discriminate]. now intros [= <-].
Qed.

(** No list ever gets a [fetch_time] other than the 0 it is created with:
    the end of a listing leaves the time of a list that exists as it is and
    creates a missing list with time 0. *)
Lemma masklist_end_cb_fetch_time (st : MaskCache.state) (self : MaskCache.instance)
  (key : string * string) (l' : MaskList.t) :
  CaseInsensibleDict.getitem
    (MaskCache.get_cache self (fst (MaskCache.masklist_end_cb st))) key = Ret l' ->
  MaskList.fetch_time l' = 0 \/
  CaseInsensibleDict.getitem (MaskCache.get_cache self st) key = Ret l'.
Proof.
  unfold MaskCache.masklist_end_cb.
  destruct (MaskCache.hook_queue st) as [|[[server channel] mode] rest] eqn:Hq;
    [now right|].
  destruct (MaskCache.maskModes mode) as [self'|e]; [|now right].
  destruct self, self', rest;
    cbn -[CaseInsensibleDict.getitem CaseInsensibleDict.contains
          CaseInsensibleDict.setitem];
    destruct (CaseInsensibleDict.contains _ _) eqn:Hc;
    cbn -[CaseInsensibleDict.getitem CaseInsensibleDict.contains
          CaseInsensibleDict.setitem];
    intros Hg; try (right; exact Hg).
  all: unfold MaskCache.initList in Hg;
    destruct (decide (fold_key (server, channel) = fold_key key)) as [E|E];
    [ rewrite (getitem_setitem _ _ _ _ E) in Hg; injection Hg as <-; now left
    | rewrite (getitem_setitem_other _ _ _ _ E) in Hg; right; exact Hg ].
Qed.

(** C3 on the code: the bans of a channel are fetched, the listing ends,
    and a second fetch ten seconds after the first is sent all the same. One
    command went out before the end of the listing and two have gone out
    after the second fetch; the list of the channel has [fetch_time] 0 after
    the listing, as no statement of the program assigns [fetch_time]. *)
Theorem fetch_again_after_completion :
  MaskCache.hook_queue fetch_first = [("freenode", "#chan", "b")%string] /\
  MaskCache.commands_sent fetch_first
  = [("0x1server.freenode", "/wait 1 /mode #chan b")%string] /\
  MaskCache.hook_queue fetch_completed = [] /\
  (exists l, CaseInsensibleDict.getitem (MaskCache.banlist fetch_completed)
                                        ("freenode", "#chan")%string = Ret l /\
             MaskList.fetch_time l = 0) /\
  MaskCache.hook_queue fetch_second = [("freenode", "#chan", "b")%string] /\
  MaskCache.commands_sent fetch_second
  = [("0x1server.freenode", "/wait 1 /mode #chan b");
     ("0x1server.freenode", "/wait 1 /mode #chan b")]%string.
Proof.
  split; [reflexivity|]. split; [reflexivity|]. split; [reflexivity|].
  split; [eexists; split; reflexivity|].
  split; reflexivity.
Qed.

(** ** Entries of a listing *)

Lemma MaskList_setitem_stores (now : Z) (l : MaskList.t) (m : string) (d : mask_fields) :
  (forall v, kw_date d = Some v -> truthy v = true -> exists n, py_int v = Ret n) ->
  exists l' ban, MaskList.setitem now l m d = Ret l' /\ MaskList.getitem l' m = Ret ban.
Proof.
  intros Hdate. unfold MaskList.setitem.
  destruct (CaseInsensibleDict.contains (MaskList.masks l) m) eqn:Hc.
  - apply contains_true in Hc as [[k0 old] Hold].
    unfold CaseInsensibleDict.getitem at 1. rewrite Hold. simpl.
    eexists _, _. split; [reflexivity|].
    unfold MaskList.getitem. simpl. now apply getitem_setitem.
  - unfold MaskObject_init.
    assert (Hd : exists n, (if truthy (kw_default (kw_date d))
                            then py_int (kw_default (kw_date d)) else Ret now) = Ret n).
    { destruct (truthy (kw_default (kw_date d))) eqn:Ht; [|now eexists].
      destruct (kw_date d) as [v|]; simpl in *; [|discriminate].
      now apply Hdate. }
    destruct Hd as [n ->]. simpl.
    eexists _, _. split; [reflexivity|].
    unfold MaskList.getitem. simpl. now apply getitem_setitem.
Qed.

Lemma MaskCache_add_stores (now : Z) (c : MaskCache.cache) (server channel m : string)
  (d : mask_fields) :
  (forall v, kw_date d = Some v -> truthy v = true -> exists n, py_int v = Ret n) ->
  exists l ban,
    snd (MaskCache.add now c server channel m d) = Ret tt /\
    CaseInsensibleDict.getitem (fst (MaskCache.add now c server channel m d))
                               (server, channel) = Ret l /\
    MaskList.getitem l m = Ret ban.
Proof.
  intros Hdate. unfold MaskCache.add.
  set (c1 := if CaseInsensibleDict.contains c (server, channel) then c
             else MaskCache.initList c server channel).
  assert (Hl : exists l, CaseInsensibleDict.getitem c1 (server, channel) = Ret l).
  { unfold c1. destruct (CaseInsensibleDict.contains c (server, channel)) eqn:Hc.
    - apply contains_true in Hc as [[k0 l] Hl].
      exists l. unfold CaseInsensibleDict.getitem. now rewrite Hl.
    - eexists. unfold MaskCache.initList. now apply getitem_setitem. }
  destruct Hl as [l ->].
  destruct (MaskList_setitem_stores now l m d Hdate) as (l' & ban & -> & Hg).
  exists l', ban. simpl. split; [reflexivity|]. split; [|exact Hg].
  now apply getitem_setitem.
Qed.

(** C4, as the code has it: an entry of a listing that names another server
    or channel than the head of the fetch queue is reported as an error and
    dropped: both caches and the queue stay as they are. An entry that names
    the server and the channel of the head (with a date that reads as a
    number) is stored in the list of that key. *)
Theorem masklist_add_cb_head (now : Z) (st : MaskCache.state)
  (server str channel banmask op date serv chan mode : string)
  (rest : list (string * string * string)) :
  MaskCache.last4 (split_ws str) = [channel; banmask; op; date] ->
  MaskCache.hook_queue st = (serv, chan, mode) :: rest ->
  let st' := fst (MaskCache.masklist_add_cb now st server str) in
  ((serv, chan) <> (server, channel) ->
   snd (MaskCache.masklist_add_cb now st server str) = Ret EmptyString /\
   MaskCache.banlist st' = MaskCache.banlist st /\
   MaskCache.mutelist st' = MaskCache.mutelist st /\
   MaskCache.hook_queue st' = MaskCache.hook_queue st /\
   MaskCache.errors st'
   = MaskCache.errors st ++ ["Error: got mask from unexpected server/channel"%string]) /\
  ((serv, chan) = (server, channel) ->
   forall (self : MaskCache.instance) (n : Z),
     MaskCache.maskModes mode = Ret self ->
     PyInt.parse 10 date = Ret n ->
     snd (MaskCache.masklist_add_cb now st server str) = Ret EmptyString /\
     MaskCache.errors st' = MaskCache.errors st /\
     exists l ban,
       CaseInsensibleDict.getitem (MaskCache.get_cache self st') (serv, chan) = Ret l /\
       MaskList.getitem l banmask = Ret ban).
Proof.
  intros Hsplit Hq st'. subst st'. unfold MaskCache.masklist_add_cb.
  rewrite Hsplit, Hq. split.
  - intros Hne. rewrite bool_decide_eq_false_2 by assumption.
    cbn [fst snd]. split; [reflexivity|]. split; [reflexivity|].
    split; [reflexivity|]. split; [|reflexivity]. simpl. exact Hq.
  - intros E self n Hmode Hdate. rewrite bool_decide_eq_true_2 by assumption.
    rewrite Hmode. injection E as -> ->.
    destruct (MaskCache_add_stores now (MaskCache.get_cache self st) server channel
                banmask (MaskFields None (Some (PStr op)) (Some (PStr date)) None))
      as (l & ban & Hr & Hl & Hb).
    { simpl. intros v [= <-] _. exists n. exact Hdate. }
    cbn [fst snd]. rewrite Hr. split; [reflexivity|]. split.
    + destruct self; reflexivity.
    + exists l, ban. split; [|exact Hb]. destruct self; exact Hl.
Qed.

Lemma masklist_add_cb_head_witness :
  MaskCache.banlist entry_unexpected = MaskCache.banlist entry_expected /\
  MaskCache.errors entry_unexpected
  = MaskCache.errors entry_expected
    ++ ["Error: got mask from unexpected server/channel"%string].
Proof.
  destruct (masklist_add_cb_head 1002 entry_expected "freenode"
              ":irc.example 367 me #other *!*@two.example op!o@example.net 1271814549"
              "#other" "*!*@two.example" "op!o@example.net" "1271814549"
              "freenode" "#chan" "b" [] eq_refl eq_refl) as [H _].
  destruct H as (_ & Hb & _ & _ & He); [discriminate|].
  split; [exact Hb|exact He].
Defined.

(** C4 as stated fails: while the bans of [#chan] are fetched, an entry that
    names [#other] is reported and is not added to the list of [#chan], which
    holds the one mask it held before. *)
Lemma unexpected_entry_is_dropped :
  MaskCache.hook_queue entry_expected = [("freenode", "#chan", "b")%string] /\
  MaskCache.errors entry_unexpected
  = ["Error: got mask from unexpected server/channel"%string] /\
  (exists l,
      CaseInsensibleDict.getitem (MaskCache.banlist entry_unexpected)
                                 ("freenode", "#chan")%string = Ret l /\
      MaskList.contains l "*!*@one.example" = true /\
      MaskList.contains l "*!*@two.example" = false /\
      size (MaskList.masks l) = 1%nat) /\
  MaskCache.banlist entry_unexpected = MaskCache.banlist entry_expected.
Proof.
  split; [reflexivity|]. split; [reflexivity|]. split; [|reflexivity].
  eexists. split; [reflexivity|]. repeat split.
Qed.

(** ** The command queue *)

Import CommandQueue.

Lemma unhook_pair_second (hs ht : hook) :
  hook_id hs <> hook_id ht -> unhook [hs; ht] ht = [hs].
Proof.
  intros Hne. unfold unhook. simpl.
  rewrite (proj2 (Nat.eqb_neq _ _) Hne), Nat.eqb_refl. reflexivity.
Qed.

Lemma unhook_pair_first (hs ht : hook) :
  hook_id hs <> hook_id ht -> unhook [hs; ht] hs = [ht].
Proof.
  intros Hne. unfold unhook. simpl.
  rewrite Nat.eqb_refl, (proj2 (Nat.eqb_neq _ _) (not_eq_sym Hne)). reflexivity.
Qed.

Lemma unhook_single (h : hook) : unhook [h] h = [].
Proof. unfold unhook. simpl. now rewrite Nat.eqb_refl. Qed.

Lemma call_WaitForOp (host : Host) (st : state)
  (cmd buffer : string) (w : Z) (server channel nick : string) :
  hooks_ok st -> debug_is_2 st = false ->
  call host (WaitForOp cmd buffer w server channel nick) st
  = (suspended (commands st) buffer (sent_as cmd w) server channel nick
               (clock st + 60 * 1000) st, false).
Proof.
  intros Hok Hdbg. destruct st as [cs wt gs gt hs nx ck cf sent errs].
  unfold debug_is_2 in Hdbg. simpl in Hdbg.
  assert (Hsent : (if negb (w =? 0) then "/wait " +:+ of_Z w +:+ " " +:+ cmd else cmd)
                  = sent_as cmd w).
  { unfold sent_as. now destruct (w =? 0). }
  destruct Hok as [(Hs & Ht & Hh)|(h1 & h2 & Hs & Ht & Hh & Hne & _)];
    simpl in Hs, Ht, Hh; subst gs gt hs.
  - unfold call, suspended, Message_call, debug_is_2. cbn. rewrite Hdbg. cbn.
    rewrite Hdbg, Hsent. reflexivity.
  - unfold call, suspended, Message_call, debug_is_2, unhook_global.
    cbn -[unhook]. rewrite (unhook_pair_second _ _ Hne).
    cbn -[unhook]. rewrite unhook_single. cbn.
    rewrite Hdbg. cbn. rewrite Hdbg, Hsent. reflexivity.
Qed.

Lemma hooks_ok_set_commands (cs : list Message) (st : state) :
  hooks_ok st -> hooks_ok (set_commands cs st).
Proof. destruct st. exact (fun H => H). Qed.

(** [run] on a queue that starts with a [WaitForOp]. *)
Lemma run_suspends (host : Host) (st : state)
  (cmd buffer : string) (w : Z) (server channel nick : string) (rest : list Message) :
  commands st = WaitForOp cmd buffer w server channel nick :: rest ->
  (List.length (commands st) <= 20)%nat ->
  hooks_ok st -> debug_is_2 st = false ->
  run host st
  = suspended rest buffer (sent_as cmd w) server channel nick (clock st + 60 * 1000) st.
Proof.
  intros Hcs Hlen Hok Hdbg. unfold run.
  replace (20 <? Z.of_nat (List.length (commands st))) with false
    by (symmetry; apply Z.ltb_ge; lia).
  rewrite Hcs. cbn [run_loop].
  rewrite call_WaitForOp.
  - destruct st; reflexivity.
  - now apply hooks_ok_set_commands.
  - destruct st; exact Hdbg.
Qed.

Section Suspended.
Variables (host : Host) (rest : list Message).
Variables (buffer sent server channel nick : string) (due : Z).

Let W (st : state) : state := suspended rest buffer sent server channel nick due st.

Lemma suspended_set_clock (st : state) (t : Z) :
  set_clock t (W st) = W (set_clock t st).
Proof. destruct st; reflexivity. Qed.

Lemma head_in_hooks (h h' : hook) : bool_decide (h ∈ [h; h']) = true.
Proof. apply bool_decide_eq_true. apply list_elem_of_here. Qed.

Lemma second_in_hooks (h h' : hook) : bool_decide (h' ∈ [h; h']) = true.
Proof. apply bool_decide_eq_true. apply list_elem_of_further, list_elem_of_here. Qed.

(** A signal that is no confirmation changes nothing. *)
Lemma signal_send_quiet (st : state) (signal signal_data : string) :
  confirms server channel nick signal signal_data = false ->
  signal_send host (W st) signal signal_data = W st.
Proof.
  intros Hq. destruct st as [cs wt gs gt hs nx ck cf snt errs].
  unfold confirms in Hq.
  unfold signal_send, W, suspended, deliver.
  cbn -[bool_decide unhook run String.append string_match String.eqb Z.add Z.mul].
  rewrite head_in_hooks.
  destruct (string_match (server +:+ ",irc_in2_MODE") signal); cbn [andb] in *.
  - change (String.eqb "queue_continue_cb" "queue_continue_cb") with true.
    cbn iota. unfold queue_continue_cb.
    destruct (after_first_space signal_data) as [r|e]; cbn [fst].
    + rewrite Hq. reflexivity.
    + reflexivity.
  - reflexivity.
Qed.

(** A confirmation takes both hooks away and runs the queue. *)
Lemma signal_send_confirms (st : state) (signal signal_data : string) :
  confirms server channel nick signal signal_data = true ->
  signal_send host (W st) signal signal_data = run host (unhooked (W st)).
Proof.
  intros Hc. destruct st as [cs wt gs gt hs nx ck cf snt errs].
  unfold confirms in Hc. apply andb_prop in Hc as [Hm Hd].
  unfold signal_send, W, suspended, deliver.
  cbn -[bool_decide unhook run String.append string_match String.eqb Z.add Z.mul
        queue_continue_cb].
  rewrite head_in_hooks, Hm.
  change (String.eqb "queue_continue_cb" "queue_continue_cb") with true.
  cbn [andb]. cbn iota. unfold queue_continue_cb.
  destruct (after_first_space signal_data) as [r|e]; [|discriminate].
  rewrite Hd. unfold unhook_global, unhooked.
  cbn -[unhook run String.append Z.add Z.mul].
  rewrite unhook_pair_first by (cbn; lia).
  cbn -[unhook run String.append Z.add Z.mul]. rewrite unhook_single.
  reflexivity.
Qed.

(** Time that does not reach the due time only moves the clock. *)
Lemma elapse_early (st : state) (ms : Z) :
  clock st + ms < due ->
  elapse (W st) ms = W (set_clock (clock st + ms) st).
Proof.
  intros Hearly. destruct st as [cs wt gs gt hs nx ck cf snt errs].
  cbn [clock] in Hearly.
  unfold elapse, W, suspended, fire.
  cbn -[bool_decide unhook String.append String.eqb Z.add Z.mul Z.leb].
  rewrite second_in_hooks.
  replace (due <=? ck + ms) with false by (symmetry; apply Z.leb_gt; lia).
  reflexivity.
Qed.

(** Time that reaches the due time calls [queue_timeout_cb], once. *)
Lemma elapse_due (st : state) (ms : Z) :
  due <= clock st + ms ->
  elapse (W st) ms
  = mkState [] 0 None None [] (S (S (next_hook st))) (clock st + ms) (config st)
            (commands_sent st ++ [(buffer, sent)])
            (errors st ++ ["Couldn't get op in '" +:+ (server +:+ "." +:+ channel)
                           +:+ "', purging command queue..."]).
Proof.
  intros Hdue. destruct st as [cs wt gs gt hs nx ck cf snt errs].
  cbn [clock] in Hdue.
  unfold elapse, W, suspended, fire.
  cbn -[bool_decide unhook String.append String.eqb Z.add Z.mul Z.leb
        queue_timeout_cb].
  rewrite second_in_hooks.
  replace (due <=? ck + ms) with true by (symmetry; apply Z.leb_le; lia).
  change (String.eqb "queue_timeout_cb" "queue_timeout_cb") with true.
  cbn [andb]. cbn iota.
  unfold queue_timeout_cb, unhook_global.
  cbn -[unhook String.append Z.add Z.mul].
  rewrite unhook_pair_first by (cbn; lia).
  cbn -[unhook String.append Z.add Z.mul]. rewrite unhook_single.
  reflexivity.
Qed.

(** Events that are no confirmation and stay short of the due time. *)
Lemma steps_quiet (evs : list event) (st : state) :
  Forall (quiet server channel nick) evs ->
  clock st + elapsed evs < due ->
  steps host (W st) evs = W (set_clock (clock st + elapsed evs) st).
Proof.
  intros Hq. revert st. induction Hq as [|ev evs Hev Hevs IH]; intros st Hshort.
  - cbn. rewrite Z.add_0_r. destruct st; reflexivity.
  - unfold steps in *. cbn [fold_left]. destruct ev as [signal sd|ms]; cbn [step elapsed] in *.
    + rewrite signal_send_quiet by exact Hev. now apply IH.
    + assert (0 <= elapsed evs).
      { clear -Hevs. induction Hevs as [|e es He Hes IHes]; cbn; [lia|].
        destruct e; cbn in He; lia. }
      rewrite elapse_early by lia.
      rewrite IH by (destruct st; cbn in *; lia).
      replace (clock (set_clock (clock st + ms) st) + elapsed evs)
        with (clock st + (ms + elapsed evs)) by (destruct st; cbn; lia).
      destruct st; reflexivity.
Qed.
End Suspended.

(** Without hooks no event reaches the script. *)
Lemma steps_idle (host : Host) (st : state) (evs : list event) :
  hooks st = [] -> steps host st evs = set_clock (clock st + elapsed evs) st.
Proof.
  revert st. induction evs as [|ev evs IH]; intros st Hh.
  - cbn. rewrite Z.add_0_r. destruct st; reflexivity.
  - unfold steps in *. cbn [fold_left].
    destruct ev as [signal sd|ms]; cbn [step elapsed].
    + unfold signal_send. rewrite Hh. cbn [fold_left]. now apply IH.
    + unfold elapse. destruct st as [cs wt gs gt hs nx ck cf snt errs].
      cbn in Hh. subst hs. cbn [hooks set_clock fold_left].
      rewrite IH by reflexivity. cbn [clock set_clock commands wait hook_signal
        hook_timeout hooks next_hook config commands_sent errors].
      now rewrite Z.add_assoc.
Qed.

(** C1, as the code has it: unless the option [debug] is "2", a [WaitForOp]
    at the head of a queue of at most 20 steps sends its command, installs
    the signal hook and the one-shot timer of 60 seconds, and stops [run]
    with the remaining steps queued. A signal that confirms the op takes both
    hooks away and runs the queue again on the remaining steps; a signal that
    does not confirm it changes nothing. When no confirmation arrives and 60
    seconds have passed, the timer reports the timeout, the signal hook is
    taken away and the queue is emptied; nothing is reported a second time.
    The queue waits in the same way at any later time short of the 60
    seconds: after other signals and after time has passed, the remaining
    steps are still queued, nothing more was sent or reported, a signal that
    confirms the op then takes both hooks away and runs the queue on the
    remaining steps, and any other signal changes nothing. *)
Theorem wait_for_op_suspends (host : Host) (st : state)
  (cmd buffer : string) (w : Z) (server channel nick : string) (rest : list Message) :
  commands st = WaitForOp cmd buffer w server channel nick :: rest ->
  (List.length (commands st) <= 20)%nat ->
  hooks_ok st ->
  debug_is_2 st = false ->
  let st1 := run host st in
  (commands st1 = rest /\
   commands_sent st1 = commands_sent st ++ [(buffer, sent_as cmd w)] /\
   errors st1 = errors st /\
   exists hs ht, waiting_on st1 hs ht /\
                 hook_what hs = SignalHook (server +:+ ",irc_in2_MODE") /\
                 hook_what ht = TimerHook (60 * 1000) 1 (clock st + 60 * 1000)) /\
  (forall signal signal_data,
      confirms server channel nick signal signal_data = true ->
      signal_send host st1 signal signal_data = run host (unhooked st1) /\
      commands (unhooked st1) = rest /\
      idle (unhooked st1)) /\
  (forall signal signal_data,
      confirms server channel nick signal signal_data = false ->
      signal_send host st1 signal signal_data = st1) /\
  (forall (evs later : list event) (ms : Z),
      Forall (quiet server channel nick) evs ->
      elapsed evs < 60 * 1000 ->
      60 * 1000 <= elapsed evs + ms ->
      let st2 := steps host st1 evs in
      let st3 := elapse st2 ms in
      commands st2 = rest /\
      errors st2 = errors st /\
      commands st3 = [] /\
      wait st3 = 0 /\
      idle st3 /\
      errors st3 = errors st ++ ["Couldn't get op in '" +:+ (server +:+ "." +:+ channel)
                                 +:+ "', purging command queue..."] /\
      errors (steps host st3 later) = errors st3 /\
      commands (steps host st3 later) = []) /\
  (forall (evs : list event) (signal signal_data : string),
      Forall (quiet server channel nick) evs ->
      elapsed evs < 60 * 1000 ->
      let st2 := steps host st1 evs in
      commands st2 = rest /\
      commands_sent st2 = commands_sent st1 /\
      errors st2 = errors st /\
      clock st2 = clock st + elapsed evs /\
      (exists hs ht, waiting_on st2 hs ht /\
                     hook_what ht = TimerHook (60 * 1000) 1 (clock st + 60 * 1000)) /\
      (confirms server channel nick signal signal_data = true ->
       signal_send host st2 signal signal_data = run host (unhooked st2) /\
       commands (unhooked st2) = rest /\
       commands_sent (unhooked st2) = commands_sent st1 /\
       errors (unhooked st2) = errors st /\
       idle (unhooked st2)) /\
      (confirms server channel nick signal signal_data = false ->
       signal_send host st2 signal signal_data = st2)).
Proof.
  intros Hcs Hlen Hok Hdbg st1.
  assert (E1 : st1 = suspended rest buffer (sent_as cmd w) server channel nick
                               (clock st + 60 * 1000) st).
  { now apply run_suspends. }
  clearbody st1. subst st1.
  split; [|split; [|split; [|split]]].
  - split; [reflexivity|]. split; [reflexivity|]. split; [reflexivity|].
    exists (mkHook (next_hook st) (SignalHook (server +:+ ",irc_in2_MODE"))
                   "queue_continue_cb" ("MODE " +:+ channel +:+ " +o " +:+ nick)),
           (mkHook (S (next_hook st)) (TimerHook (60 * 1000) 1 (clock st + 60 * 1000))
                   "queue_timeout_cb" (server +:+ "." +:+ channel)).
    split; [|split; reflexivity].
    unfold waiting_on, suspended. cbn.
    split; [reflexivity|]. split; [reflexivity|]. split; [reflexivity|].
    split; [lia|]. split; [now eexists|]. split; [reflexivity|].
    split; [now eexists _, _|reflexivity].
  - intros signal sd Hc. split; [now apply signal_send_confirms|].
    split; [reflexivity|]. repeat split.
  - intros signal sd Hq. now apply signal_send_quiet.
  - intros evs later ms Hquiet Hshort Hlong st2 st3. subst st3 st2.
    rewrite steps_quiet by (assumption || lia).
    rewrite elapse_due by (destruct st; cbn; lia).
    split; [reflexivity|]. split; [reflexivity|]. split; [reflexivity|].
    split; [reflexivity|]. split; [repeat split|]. split; [destruct st; reflexivity|].
    rewrite steps_idle by reflexivity. split; reflexivity.
  - intros evs signal sd Hquiet Hshort st2. subst st2.
    rewrite steps_quiet by (assumption || lia).
    split; [reflexivity|]. split; [reflexivity|]. split; [destruct st; reflexivity|].
    split; [destruct st; reflexivity|]. split; [|split].
    + exists (mkHook (next_hook st) (SignalHook (server +:+ ",irc_in2_MODE"))
                     "queue_continue_cb" ("MODE " +:+ channel +:+ " +o " +:+ nick)),
             (mkHook (S (next_hook st)) (TimerHook (60 * 1000) 1 (clock st + 60 * 1000))
                     "queue_timeout_cb" (server +:+ "." +:+ channel)).
      split; [|reflexivity].
      unfold waiting_on, suspended. destruct st. cbn.
      split; [reflexivity|]. split; [reflexivity|]. split; [reflexivity|].
      split; [lia|]. split; [now eexists|]. split; [reflexivity|].
      split; [now eexists _, _|reflexivity].
    + intros Hc. split; [now apply signal_send_confirms|].
      split; [reflexivity|]. split; [reflexivity|]. split; [destruct st; reflexivity|].
      repeat split.
    + intros Hq. now apply signal_send_quiet.
Qed.

Lemma wait_for_op_suspends_witness :
  commands (run example_host (example_queue ∅))
  = [AddChannel "freenode" "#chan"; Normal "/kick troll bye" "0xbuf" 1] /\
  commands_sent (run example_host (example_queue ∅))
  = [("0xbuf", "/msg chanserv op #chan me")%string] /\
  commands_sent
    (signal_send example_host
       (steps example_host (run example_host (example_queue ∅))
              [Elapse 30000; Signal "freenode,irc_in2_MODE" ":x!y@z MODE #chan +v me"])
       "freenode,irc_in2_MODE" ":x!y@z MODE #chan +o me")
  = [("0xbuf", "/msg chanserv op #chan me"); ("0xbuf", "/wait 1 /kick troll bye")]%string.
Proof.
  destruct (wait_for_op_suspends example_host (example_queue ∅)
              "/msg chanserv op #chan me" "0xbuf" 0 "freenode" "#chan" "me"
              [AddChannel "freenode" "#chan"; Normal "/kick troll bye" "0xbuf" 1])
    as [(Hc & Hs & _) (_ & _ & _ & Hlater)].
  - vm_compute. reflexivity.
  - vm_compute. lia.
  - left. repeat split.
  - vm_compute. reflexivity.
  - split; [exact Hc|]. split; [exact Hs|].
    destruct (Hlater [Elapse 30000; Signal "freenode,irc_in2_MODE" ":x!y@z MODE #chan +v me"]
                     "freenode,irc_in2_MODE"%string ":x!y@z MODE #chan +o me"%string)
      as (_ & _ & _ & _ & _ & Hconf & _).
    + constructor; [cbn; lia|]. constructor; [vm_compute; reflexivity|constructor].
    + vm_compute. reflexivity.
    + destruct Hconf as [Hrun _]; [vm_compute; reflexivity|].
      rewrite Hrun. vm_compute. reflexivity.
Defined.

(** C1 as stated fails: with the option [debug] set to "2" the [WaitForOp]
    does not stop the queue. [run] goes on through the steps after it, and
    nothing is left queued. *)
Lemma wait_for_op_does_not_suspend_in_debug_mode :
  commands (example_queue {["debug"%string := "2"%string]})
  = [WaitForOp "/msg chanserv op #chan me" "0xbuf" 0 "freenode" "#chan" "me";
     AddChannel "freenode" "#chan"; Normal "/kick troll bye" "0xbuf" 1] /\
  hooks_ok (example_queue {["debug"%string := "2"%string]}) /\
  commands (run example_host (example_queue {["debug"%string := "2"%string]})) = [] /\
  commands (run example_host (example_queue {["debug"%string := "2"%string]}))
  <> [AddChannel "freenode" "#chan"; Normal "/kick troll bye" "0xbuf" 1].
Proof.
  split; [vm_compute; reflexivity|].
  split; [left; repeat split|].
  split; [vm_compute; reflexivity|].
  vm_compute. intros H. discriminate H.
Qed.

(** ** The limit of 20 commands *)

Lemma queue_appends (st st' : state) (cmd : string) (type : message_type) (w : Z)
  (buffer : string) :
  queue st cmd type w buffer = Ret st' ->
  (exists pack, commands st' = commands st ++ [pack]) /\
  wait st' = wait st + w /\
  errors st' = errors st /\
  commands_sent st' = commands_sent st.
Proof.
  unfold queue. destruct type as [|server channel nick|server channel].
  - destruct (String.eqb cmd EmptyString); [discriminate|]. cbn.
    intros [= <-]. destruct st; cbn. split; [now eexists|now repeat split].
  - destruct (String.eqb cmd EmptyString); [discriminate|]. cbn.
    intros [= <-]. destruct st; cbn. split; [now eexists|now repeat split].
  - cbn. intros [= <-]. destruct st; cbn. split; [now eexists|now repeat split].
Qed.

(** C2, as the code has it: [queue] only appends, whatever the length of
    the queue; the limit is checked by [run]. When [run] finds more than 20
    steps in the queue it reports the limit once and empties the queue: none
    of the steps is called, so nothing is sent, no hook is touched and no
    option is written. *)
Theorem overflow_is_checked_by_run (host : Host) (st : state) :
  (forall (cmd : string) (type : message_type) (w : Z) (buffer : string) (st' : state),
      queue st cmd type w buffer = Ret st' ->
      List.length (commands st') = S (List.length (commands st)) /\
      (exists pack, commands st' = commands st ++ [pack]) /\
      errors st' = errors st) /\
  ((20 < List.length (commands st))%nat ->
   commands (run host st) = [] /\
   wait (run host st) = 0 /\
   errors (run host st)
   = errors st ++ ["Limit of 20 commands in queue reached, aborting."%string] /\
   commands_sent (run host st) = commands_sent st /\
   hooks (run host st) = hooks st /\
   hook_signal (run host st) = hook_signal st /\
   hook_timeout (run host st) = hook_timeout st /\
   config (run host st) = config st).
Proof.
  split.
  - intros cmd type w buffer st' Hq.
    destruct (queue_appends _ _ _ _ _ _ Hq) as ([pack Hp] & _ & He & _).
    split; [|split; [now exists pack|exact He]].
    rewrite Hp, length_app. cbn. lia.
  - intros Hlen. unfold run.
    replace (20 <? Z.of_nat (List.length (commands st))) with true
      by (symmetry; apply Z.ltb_lt; lia).
    destruct st; cbn. repeat split.
Qed.

Lemma overflow_is_checked_by_run_witness :
  exists st,
    queue_many 21 "/kick troll" "0xbuf" (queue_init ∅) = Ret st /\
    commands (run example_host st) = [] /\
    errors (run example_host st)
    = ["Limit of 20 commands in queue reached, aborting."%string] /\
    commands_sent (run example_host st) = [].
Proof.
  eexists. split; [vm_compute; reflexivity|].
  match goal with
  | |- commands (run _ ?s) = _ /\ _ =>
      destruct (overflow_is_checked_by_run example_host s) as [_ H]
  end.
  destruct H as (Hc & _ & He & Hs & _); [vm_compute; lia|].
  split; [exact Hc|]. split; [exact He|exact Hs].
Defined.

(** C2 as stated fails: after a 21st step is queued the queue holds 21
    steps and nothing has been reported. *)
Lemma queue_of_21_is_not_cleared :
  exists st,
    queue_many 21 "/kick troll" "0xbuf" (queue_init ∅) = Ret st /\
    List.length (commands st) = 21%nat /\
    errors st = [].
Proof.
  eexists. split; [vm_compute; reflexivity|]. split; vm_compute; reflexivity.
Qed.

(** * Further properties of the code *)

(** ** Hostmasks put together and taken apart *)

Lemma len_append (a b : string) : len (a +:+ b) = len a + len b.
Proof.
  unfold len. induction a as [|x a IH].
  - change (EmptyString +:+ b) with b. simpl. lia.
  - change (String x a +:+ b) with (String x (a +:+ b)).
    change (String.length (String x (a +:+ b))) with (S (String.length (a +:+ b))).
    change (String.length (String x a)) with (S (String.length a)). lia.
Qed.

Lemma len_nonneg (s : string) : 0 <= len s.
Proof. unfold len. lia. Qed.

Lemma occurs_cons (c x : ascii) (s : string) :
  occurs c (String x s) <-> x = c \/ occurs c s.
Proof.
  split.
  - intros [[|i] Hi]; simpl in Hi; [left; congruence|right; now exists i].
  - intros [->|[i Hi]]; [now exists 0%nat|now exists (S i)].
Qed.

Lemma find_from_append (c : ascii) (a b : string) (i : Z) :
  ~ occurs c a -> find_from c (a +:+ String c b) i = i + len a.
Proof.
  revert i. induction a as [|x a IH]; intros i Hno.
  - simpl. rewrite Ascii.eqb_refl. unfold len. simpl. lia.
  - change (String x a +:+ String c b) with (String x (a +:+ String c b)).
    simpl. destruct (Ascii.eqb_spec x c) as [->|Hne].
    + exfalso. apply Hno. apply occurs_cons. now left.
    + rewrite IH.
      * unfold len. simpl String.length. lia.
      * intros Ho. apply Hno. apply occurs_cons. now right.
Qed.

Lemma find_append (c : ascii) (a b : string) :
  ~ occurs c a -> find c (a +:+ String c b) = len a.
Proof. intros Hno. unfold find. now rewrite find_from_append. Qed.

Lemma substring_skip (a b : string) (m : nat) :
  String.substring (String.length a) m (a +:+ b) = String.substring 0 m b.
Proof. induction a as [|x a IH]; [reflexivity|exact IH]. Qed.

Lemma substring_prefix (a b : string) :
  String.substring 0 (String.length a) (a +:+ b) = a.
Proof.
  induction a as [|x a IH]; simpl.
  - now destruct b.
  - change (String x a +:+ b) with (String x (a +:+ b)). now rewrite IH.
Qed.

Lemma substring_all (a : string) : String.substring 0 (String.length a) a = a.
Proof. induction a as [|x a IH]; simpl; [reflexivity|now rewrite IH]. Qed.

(** The middle of three pieces, as a slice. *)
Lemma slice_middle (a b c : string) :
  slice (a +:+ b +:+ c) (len a) (len a + len b) = b.
Proof.
  unfold slice, clamp. rewrite !len_append.
  pose proof (len_nonneg a). pose proof (len_nonneg b). pose proof (len_nonneg c).
  replace (len a <? 0) with false by (symmetry; apply Z.ltb_ge; lia).
  replace (len a + len b <? 0) with false by (symmetry; apply Z.ltb_ge; lia).
  rewrite !Z.min_r by lia. rewrite !Z.max_r by lia.
  destruct (len a <? len a + len b) eqn:E.
  - replace (len a + len b - len a) with (len b) by lia.
    unfold len. rewrite !Nat2Z.id. rewrite substring_skip. apply substring_prefix.
  - apply Z.ltb_ge in E. assert (len b = 0) by lia.
    destruct b; [reflexivity|]. unfold len in *. simpl in *. lia.
Qed.

Lemma slice_to_prefix (a b : string) : slice_to (a +:+ b) (len a) = a.
Proof.
  unfold slice_to. pose proof (slice_middle EmptyString a b) as H.
  simpl in H. exact H.
Qed.

Lemma slice_from_suffix (a b : string) : slice_from (a +:+ b) (len a) = b.
Proof.
  unfold slice_from. pose proof (slice_middle a b EmptyString) as H.
  assert (E : b +:+ EmptyString = b).
  { clear. induction b as [|x b IH]; [reflexivity|].
    change (String x b +:+ "") with (String x (b +:+ "")). now rewrite IH. }
  rewrite E in H. rewrite len_append. exact H.
Qed.

Lemma append_assoc (a b c : string) : (a +:+ b) +:+ c = a +:+ (b +:+ c).
Proof.
  induction a as [|x a IH]; [reflexivity|].
  change (String x a +:+ b) with (String x (a +:+ b)).
  change (String x (a +:+ b) +:+ c) with (String x ((a +:+ b) +:+ c)).
  now rewrite IH.
Qed.

Lemma occurs_single (c x : ascii) : occurs c (String x EmptyString) <-> x = c.
Proof.
  rewrite occurs_cons. split; [|now left].
  intros [E|[i Hi]]; [exact E|destruct i; discriminate].
Qed.

(** Where the separators of [nick!user@host] are found. *)
Lemma hostmask_finds (nick user host : string) :
  ~ occurs "!" nick -> ~ occurs "@" nick -> ~ occurs " " nick ->
  ~ occurs "@" user -> ~ occurs " " user ->
  ~ occurs " " host ->
  let s := nick +:+ "!" +:+ user +:+ "@" +:+ host in
  find "!" s = len nick /\
  find "@" s = len nick + 1 + len user /\
  find " " s = -1.
Proof.
  intros Hbang Hat Hsp Huat Husp Hhsp s. split; [|split].
  - unfold s. change ("!" +:+ user +:+ "@" +:+ host)
      with (String "!" (user +:+ "@" +:+ host)). now apply find_append.
  - replace s with ((nick +:+ "!" +:+ user) +:+ String "@" host)
      by (unfold s; rewrite !append_assoc; reflexivity).
    rewrite find_append.
    + rewrite !len_append. change (len "!") with 1. lia.
    + intros Ho. apply occurs_append in Ho as [Ho|Ho]; [contradiction|].
      apply occurs_append in Ho as [Ho|Ho]; [|contradiction].
      apply occurs_single in Ho. discriminate.
  - apply find_absent. unfold s. intros Ho.
    apply occurs_append in Ho as [Ho|Ho]; [contradiction|].
    apply occurs_append in Ho as [Ho|Ho]; [apply occurs_single in Ho; discriminate|].
    apply occurs_append in Ho as [Ho|Ho]; [contradiction|].
    apply occurs_append in Ho as [Ho|Ho]; [apply occurs_single in Ho; discriminate|].
    contradiction.
Qed.

Lemma hostmask_user_slice (nick user host : string) :
  slice (nick +:+ "!" +:+ user +:+ "@" +:+ host) (len nick + 1) (len nick + 1 + len user)
  = user.
Proof.
  pose proof (slice_middle (nick +:+ "!") user ("@" +:+ host)) as Hm.
  rewrite len_append in Hm. change (len "!") with 1 in Hm.
  now rewrite append_assoc in Hm.
Qed.

Lemma hostmask_host_slice (nick user host : string) :
  slice_from (nick +:+ "!" +:+ user +:+ "@" +:+ host) (len nick + 1 + len user + 1) = host.
Proof.
  pose proof (slice_from_suffix (nick +:+ "!" +:+ user +:+ "@") host) as Hm.
  rewrite !len_append in Hm. change (len "!") with 1 in Hm. change (len "@") with 1 in Hm.
  rewrite !append_assoc in Hm.
  replace (len nick + (1 + (len user + 1))) with (len nick + 1 + len user + 1) in Hm by lia.
  exact Hm.
Qed.

Lemma hostmask_parts (nick user host : string) :
  nick <> EmptyString ->
  first_char nick <> Some ":"%char ->
  ~ occurs "!" nick -> ~ occurs "@" nick -> ~ occurs " " nick ->
  ~ occurs "@" user -> ~ occurs " " user ->
  ~ occurs " " host ->
  2 <= len nick + len user ->
  let s := nick +:+ "!" +:+ user +:+ "@" +:+ host in
  get_nick s = Ret nick /\
  get_nick (":" +:+ s) = Ret nick /\
  get_user s false = Ret user /\
  get_host s = host.
Proof.
  intros Hne Hcolon Hbang Hat Hsp Huat Husp Hhsp Hlen s.
  pose proof (len_nonneg nick). pose proof (len_nonneg user).
  assert (Hnick : 1 <= len nick).
  { destruct nick; [contradiction|]. unfold len. simpl String.length. lia. }
  destruct (hostmask_finds nick user host Hbang Hat Hsp Huat Husp Hhsp)
    as (Fbang & Fat & Fsp).
  fold s in Fbang, Fat, Fsp.
  split; [|split; [|split]].
  - unfold get_nick. rewrite Fbang.
    replace (len nick <? 1) with false by (symmetry; apply Z.ltb_ge; lia).
    destruct nick as [|c nick']; [contradiction|].
    change (getitem s 0) with (Ret (A := ascii) c). cbn [py_bind].
    destruct (Ascii.eqb_spec c ":") as [->|_]; [now contradiction Hcolon|].
    unfold s. now rewrite slice_to_prefix.
  - unfold get_nick.
    change (":" +:+ s) with (String ":" s).
    assert (F : find "!" (String ":" s) = 1 + len nick).
    { unfold find. simpl. fold (find_from "!" s 1). unfold s.
      change ("!" +:+ user +:+ "@" +:+ host)
        with (String "!" (user +:+ "@" +:+ host)).
      now rewrite find_from_append. }
    rewrite F.
    replace (1 + len nick <? 1) with false by (symmetry; apply Z.ltb_ge; lia).
    change (getitem (String ":" s) 0) with (Ret (A := ascii) ":"%char). cbn [py_bind].
    rewrite Ascii.eqb_refl.
    pose proof (slice_middle ":" nick ("!" +:+ user +:+ "@" +:+ host)) as Hm.
    change (len ":") with 1 in Hm. f_equal. exact Hm.
  - unfold get_user. rewrite Fbang, Fat.
    destruct ((0 <? len nick) && (2 <? len nick + 1 + len user)
              && (len nick <? len nick + 1 + len user)) eqn:Hc.
    + unfold s. now rewrite hostmask_user_slice.
    + assert (len user = 0).
      { apply andb_false_iff in Hc as [Hc|Hc]; [apply andb_false_iff in Hc as [Hc|Hc]|];
          apply Z.ltb_ge in Hc; lia. }
      destruct user; [reflexivity|]. unfold len in *. simpl in *. lia.
  - unfold get_host. rewrite Fat, Fsp.
    replace (len nick + 1 + len user <? 3) with false by (symmetry; apply Z.ltb_ge; lia).
    replace ((0 <? -1) && (len nick + 1 + len user <? -1)) with false by reflexivity.
    unfold s. apply hostmask_host_slice.
Qed.

(** X1: A hostmask put together from a nick, a user and a host is taken apart
    into the same three parts: the nick is not empty, is not led by a colon
    and has no [!], the nick and the user have no [@], none of the parts has
    a space, and the nick and the user have two characters or more between
    them (the [@] is looked for from index 3 on). The nick is also read from
    the form with a leading colon that raw signal data has. *)
Theorem hostmask_parts_round_trip (nick user host : string) :
  nick <> EmptyString ->
  first_char nick <> Some ":"%char ->
  ~ occurs "!" nick -> ~ occurs "@" nick -> ~ occurs " " nick ->
  ~ occurs "@" user -> ~ occurs " " user ->
  ~ occurs " " host ->
  2 <= len nick + len user ->
  let s := nick +:+ "!" +:+ user +:+ "@" +:+ host in
  get_nick s = Ret nick /\
  get_nick (":" +:+ s) = Ret nick /\
  get_user s false = Ret user /\
  get_host s = host.
Proof. apply hostmask_parts. Qed.

Lemma hostmask_parts_round_trip_witness :
  get_nick "troll!~evil@host.example.net" = Ret "troll"%string /\
  get_nick ":troll!~evil@host.example.net" = Ret "troll"%string /\
  get_user "troll!~evil@host.example.net" false = Ret "~evil"%string /\
  get_host "troll!~evil@host.example.net" = "host.example.net"%string.
Proof.
  apply (hostmask_parts_round_trip "troll" "~evil" "host.example.net").
  - discriminate.
  - discriminate.
  - apply no_char_in_literal; reflexivity.
  - apply no_char_in_literal; reflexivity.
  - apply no_char_in_literal; reflexivity.
  - apply no_char_in_literal; reflexivity.
  - apply no_char_in_literal; reflexivity.
  - apply no_char_in_literal; reflexivity.
  - vm_compute. discriminate.
Defined.

(** ** Patterns *)

Lemma lower_char_is_star (c : ascii) : Ascii.eqb (lower_char c) "*" = Ascii.eqb c "*".
Proof. destruct c as [[] [] [] [] [] [] [] []]; reflexivity. Qed.

Lemma lower_char_is_question (c : ascii) : Ascii.eqb (lower_char c) "?" = Ascii.eqb c "?".
Proof. destruct c as [[] [] [] [] [] [] [] []]; reflexivity. Qed.

Lemma lower_char_is_newline (c : ascii) :
  Ascii.eqb (lower_char c) newline = Ascii.eqb c newline.
Proof. destruct c as [[] [] [] [] [] [] [] []]; reflexivity. Qed.

Lemma at_end_lower (s : string) : at_end (lower s) = at_end s.
Proof.
  destruct s as [|c [|c' s]]; [reflexivity| |reflexivity].
  simpl. apply lower_char_is_newline.
Qed.

Lemma regexp_search_lower_pattern (p s : string) :
  regexp_search (lower p) s = regexp_search p s.
Proof.
  revert s. induction p as [|c p IH]; intros s; [reflexivity|].
  cbn [lower regexp_search]. rewrite lower_char_is_star.
  destruct (Ascii.eqb c "*").
  - induction s as [|x s IHs]; [now rewrite IH|].
    rewrite IH, IHs. reflexivity.
  - destruct s as [|x s]; [reflexivity|].
    rewrite lower_char_is_question, lower_lower_char, IH. reflexivity.
Qed.

Lemma regexp_search_lower_subject (p s : string) :
  regexp_search p (lower s) = regexp_search p s.
Proof.
  revert s. induction p as [|c p IH]; intros s; [apply at_end_lower|].
  cbn [regexp_search]. destruct (Ascii.eqb c "*").
  - induction s as [|x s IHs]; [reflexivity|].
    cbn -[regexp_search lower_char newline].
    rewrite lower_char_is_newline, IHs.
    change (String (lower_char x) (lower s)) with (lower (String x s)).
    now rewrite IH.
  - destruct s as [|x s]; [reflexivity|].
    cbn [lower]. rewrite lower_char_is_newline, lower_lower_char, IH. reflexivity.
Qed.

(** X2: Matching a pattern takes no account of case, in the pattern or in the
    strings it is matched against: respelling either in upper or in lower
    case selects the same strings. (So it does no harm that the memo of
    compiled patterns finds a pattern under a key of another spelling.) *)
Theorem pattern_match_ignores_case (pattern : string) (l : list string) :
  pattern_match (upper pattern) (Strs l) = pattern_match pattern (Strs l) /\
  pattern_match (lower pattern) (Strs l) = pattern_match pattern (Strs l) /\
  (forall s : string,
      regexp_search pattern (upper s) = regexp_search pattern s /\
      regexp_search pattern (lower s) = regexp_search pattern s) /\
  List.map lower (pattern_match pattern (Strs (List.map upper l)))
  = List.map lower (pattern_match pattern (Strs l)).
Proof.
  assert (Hup : forall s, regexp_search (upper pattern) s = regexp_search pattern s).
  { intros s. rewrite <- (regexp_search_lower_pattern (upper pattern)), lower_upper.
    apply regexp_search_lower_pattern. }
  assert (Hsub : forall s, regexp_search pattern (upper s) = regexp_search pattern s).
  { intros s. rewrite <- (regexp_search_lower_subject pattern (upper s)), lower_upper.
    apply regexp_search_lower_subject. }
  split; [|split; [|split]].
  - unfold pattern_match. apply filter_ext. exact Hup.
  - unfold pattern_match. apply filter_ext. apply regexp_search_lower_pattern.
  - intros s. split; [apply Hsub|apply regexp_search_lower_subject].
  - unfold pattern_match. cbn [as_list].
    induction l as [|x l IH]; [reflexivity|]. cbn [List.map List.filter].
    rewrite Hsub. destruct (regexp_search pattern x); cbn [List.map].
    + now rewrite IH, lower_upper.
    + exact IH.
Qed.

Lemma regexp_search_self (s : string) : regexp_search s s = true.
Proof.
  induction s as [|c s IH]; [reflexivity|].
  cbn [regexp_search]. destruct (Ascii.eqb_spec c "*") as [->|Hstar].
  - apply orb_true_iff. right. cbn [negb Ascii.eqb Bool.eqb newline andb].
    destruct s as [|x s]; [now rewrite IH|]. now rewrite IH.
  - rewrite Ascii.eqb_refl, IH.
    destruct (Ascii.eqb_spec c "?") as [->|_]; reflexivity.
Qed.

Lemma regexp_search_star (s : string) :
  ~ occurs newline s -> regexp_search "*" s = true.
Proof.
  intros Hno. cbn [regexp_search Ascii.eqb Bool.eqb].
  induction s as [|x s IH]; [reflexivity|].
  apply orb_true_iff. right. apply andb_true_iff. split.
  - apply negb_true_iff. apply Ascii.eqb_neq. intros ->.
    apply Hno. apply occurs_cons. now left.
  - apply IH. intros Ho. apply Hno. apply occurs_cons. now right.
Qed.

(** X3: A stored mask is found by a search for its own text, in any spelling:
    by every pattern that is the mask up to the case of its letters. A
    search for [*] finds every stored mask that has no newline, and a search
    finds stored masks only. *)
Theorem searchByPattern_finds_stored (l : MaskList.t) (m : string) :
  In m (CaseInsensibleDict.keys (MaskList.masks l)) ->
  In m (MaskList.searchByPattern l m) /\
  In m (MaskList.searchByPattern l (upper m)) /\
  In m (MaskList.searchByPattern l (lower m)) /\
  (forall p, lower p = lower m -> In m (MaskList.searchByPattern l p)) /\
  (~ occurs newline m -> In m (MaskList.searchByPattern l "*")) /\
  (forall p x, In x (MaskList.searchByPattern l p) ->
               In x (CaseInsensibleDict.keys (MaskList.masks l))).
Proof.
  intros Hin. unfold MaskList.searchByPattern, pattern_match. cbn [as_list].
  split; [|split; [|split; [|split; [|split]]]].
  - apply filter_In. split; [exact Hin|apply regexp_search_self].
  - apply filter_In. split; [exact Hin|].
    rewrite <- regexp_search_lower_pattern, lower_upper, regexp_search_lower_pattern.
    apply regexp_search_self.
  - apply filter_In. split; [exact Hin|].
    rewrite regexp_search_lower_pattern. apply regexp_search_self.
  - intros p Hp. apply filter_In. split; [exact Hin|].
    rewrite <- regexp_search_lower_pattern, Hp, regexp_search_lower_pattern.
    apply regexp_search_self.
  - intros Hno. apply filter_In. split; [exact Hin|now apply regexp_search_star].
  - intros p x Hx. now apply filter_In in Hx.
Qed.

Lemma searchByPattern_finds_stored_witness :
  In "*!*@Host.Example"%string (MaskList.searchByPattern example_masklist "*!*@HOST.EXAMPLE") /\
  In "*!*@Host.Example"%string (MaskList.searchByPattern example_masklist "*!*@hOsT.eXaMpLe").
Proof.
  destruct (searchByPattern_finds_stored example_masklist "*!*@Host.Example")
    as (_ & H & _ & Hany & _).
  - vm_compute. left. reflexivity.
  - split; [exact H|]. apply Hany. reflexivity.
Defined.

(** ** Addresses of web gateways *)

Lemma all_below_spec (n : nat) (f : Z -> bool) (a : Z) :
  all_below n f = true -> 0 <= a < Z.of_nat n -> f a = true.
Proof.
  intros Hall Ha. unfold all_below in Hall.
  rewrite forallb_forall in Hall.
  specialize (Hall (Z.to_nat a)). rewrite Z2Nat.id in Hall by lia.
  apply Hall. apply in_seq. lia.
Qed.

Lemma parse_hex2 (a : Z) : 0 <= a < 256 -> PyInt.parse 16 (hex2 a) = Ret a.
Proof.
  intros Ha.
  assert (H : all_below 256 (fun n => match PyInt.parse 16 (hex2 n) with
                                      | Ret v => v =? n
                                      | Raise _ => false
                                      end) = true) by (vm_compute; reflexivity).
  pose proof (all_below_spec _ _ a H ltac:(lia)) as Hc. cbv beta in Hc.
  destruct (PyInt.parse 16 (hex2 a)) as [v|e]; [|discriminate].
  apply Z.eqb_eq in Hc. now subst.
Qed.

Lemma parse_hex2_upper (a : Z) : 0 <= a < 256 -> PyInt.parse 16 (upper (hex2 a)) = Ret a.
Proof.
  intros Ha.
  assert (H : all_below 256 (fun n => match PyInt.parse 16 (upper (hex2 n)) with
                                      | Ret v => v =? n
                                      | Raise _ => false
                                      end) = true) by (vm_compute; reflexivity).
  pose proof (all_below_spec _ _ a H ltac:(lia)) as Hc. cbv beta in Hc.
  destruct (PyInt.parse 16 (upper (hex2 a))) as [v|e]; [|discriminate].
  apply Z.eqb_eq in Hc. now subst.
Qed.

Lemma hex_to_ip_chunks (c1 c2 c3 c4 c5 c6 c7 c8 : ascii) :
  let chunk x y := String x (String y EmptyString) in
  hex_to_ip (String c1 (String c2 (String c3 (String c4
               (String c5 (String c6 (String c7 (String c8 EmptyString))))))))
  = try_except
      (do ip <- PyInt.map_py (PyInt.parse 16)
                  [chunk c1 c2; chunk c3 c4; chunk c5 c6; chunk c7 c8];
       Ret (join "." (List.map of_Z ip)))
      EmptyString.
Proof. reflexivity. Qed.

Lemma hex_to_ip_decodes (a b c d : Z) :
  0 <= a < 256 -> 0 <= b < 256 -> 0 <= c < 256 -> 0 <= d < 256 ->
  hex_to_ip (hex_of_ip a b c d) = dotted_quad a b c d /\
  hex_to_ip (upper (hex_of_ip a b c d)) = dotted_quad a b c d.
Proof.
  intros Ha Hb Hc Hd. split.
  - unfold hex_of_ip, hex2.
    cbv [String.append]. rewrite hex_to_ip_chunks. cbv zeta.
    fold (hex2 a) (hex2 b) (hex2 c) (hex2 d). cbn [PyInt.map_py].
    rewrite !parse_hex2 by assumption. reflexivity.
  - unfold hex_of_ip, hex2.
    cbv [String.append upper]. rewrite hex_to_ip_chunks. cbv zeta.
    change (String (upper_char (hex_digit (a / 16)))
              (String (upper_char (hex_digit (a mod 16))) EmptyString))
      with (upper (hex2 a)).
    change (String (upper_char (hex_digit (b / 16)))
              (String (upper_char (hex_digit (b mod 16))) EmptyString))
      with (upper (hex2 b)).
    change (String (upper_char (hex_digit (c / 16)))
              (String (upper_char (hex_digit (c mod 16))) EmptyString))
      with (upper (hex2 c)).
    change (String (upper_char (hex_digit (d / 16)))
              (String (upper_char (hex_digit (d mod 16))) EmptyString))
      with (upper (hex2 d)).
    cbn [PyInt.map_py].
    rewrite !parse_hex2_upper by assumption. reflexivity.
Qed.

Lemma scan_digits_append (base : Z) (s rest : string) (acc : Z) (any : bool) :
  all_chars (fun c => PyInt.digit_value c <? base) s = true ->
  match rest with
  | EmptyString => True
  | String c _ => (PyInt.digit_value c <? base) = false
  end ->
  PyInt.scan_digits base (s +:+ rest) acc any
  = (fst (fst (PyInt.scan_digits base s acc any)),
     snd (fst (PyInt.scan_digits base s acc any)), rest).
Proof.
  revert acc any. induction s as [|c s IH]; intros acc any Hall Hrest.
  - change (EmptyString +:+ rest) with rest. destruct rest as [|x r]; [reflexivity|].
    cbn [PyInt.scan_digits]. rewrite Hrest. reflexivity.
  - cbn [all_chars] in Hall. apply andb_prop in Hall as [Hc Hs].
    change (String c s +:+ rest) with (String c (s +:+ rest)).
    cbn [PyInt.scan_digits]. rewrite Hc. now apply IH.
Qed.

Lemma of_Z_octet (a : Z) :
  0 <= a < 256 ->
  exists c s,
    of_Z a = String c s /\ is_digit c = true /\
    (a <> 0 -> c <> "0"%char) /\
    all_chars (fun c => PyInt.digit_value c <? 10) (of_Z a) = true /\
    PyInt.scan_digits 10 (of_Z a) 0 false = (a, true, EmptyString) /\
    count "." (of_Z a) = 0.
Proof.
  intros Ha.
  assert (H : all_below 256
                (fun n => match of_Z n with
                          | String c s =>
                              is_digit c
                              && ((n =? 0) || negb (Ascii.eqb c "0"))
                              && all_chars (fun c => PyInt.digit_value c <? 10) (of_Z n)
                              && match PyInt.scan_digits 10 (of_Z n) 0 false with
                                 | (v, any, r) => (v =? n) && any && String.eqb r EmptyString
                                 end
                              && (count "." (of_Z n) =? 0)
                          | EmptyString => false
                          end) = true) by (vm_compute; reflexivity).
  pose proof (all_below_spec _ _ a H ltac:(lia)) as Hc. cbv beta in Hc.
  destruct (of_Z a) as [|c s] eqn:E; [discriminate|].
  exists c, s.
  apply andb_prop in Hc as [Hc Hcount]. apply andb_prop in Hc as [Hc Hscan].
  apply andb_prop in Hc as [Hc Hall]. apply andb_prop in Hc as [Hdig Hlead].
  split; [reflexivity|]. split; [exact Hdig|]. split; [|split; [exact Hall|split]].
  - intros Hne -> . apply orb_prop in Hlead as [Hz|Hz]; [apply Z.eqb_eq in Hz; lia|].
    discriminate.
  - destruct (PyInt.scan_digits 10 (String c s) 0 false) as [[v any] r].
    apply andb_prop in Hscan as [Hv Hr]. apply andb_prop in Hv as [Hv Hany].
    apply Z.eqb_eq in Hv. apply String.eqb_eq in Hr. destruct any; [|discriminate].
    now subst.
  - now apply Z.eqb_eq.
Qed.

Lemma strtoul0_decimal (c : ascii) (s : string) :
  c <> "0"%char ->
  Socket.strtoul0 (String c s)
  = (fst (fst (PyInt.scan_digits 10 (String c s) 0 false)),
     snd (PyInt.scan_digits 10 (String c s) 0 false)).
Proof.
  intros Hc. unfold Socket.strtoul0.
  destruct c as [[] [] [] [] [] [] [] []]; try contradiction;
    destruct (PyInt.scan_digits 10 _ 0 false) as [[v any] r]; reflexivity.
Qed.

Lemma strtoul0_of_Z (a : Z) (rest : string) :
  0 <= a < 256 -> ends_number rest ->
  Socket.strtoul0 (of_Z a +:+ rest) = (a, rest).
Proof.
  intros Ha Hrest.
  assert (Hstop : forall base, 8 <= base <= 10 ->
                    match rest with
                    | EmptyString => True
                    | String c _ => (PyInt.digit_value c <? base) = false
                    end).
  { intros base Hb. destruct Hrest as [->|[r ->]]; [exact I|].
    apply Z.ltb_ge. change (PyInt.digit_value ".") with 37. lia. }
  destruct (Z.eq_dec a 0) as [->|Hne].
  - change (of_Z 0 +:+ rest) with (String "0" rest).
    destruct Hrest as [->|[r ->]]; [reflexivity|]. destruct r; reflexivity.
  - destruct (of_Z_octet a Ha) as (c & s & E & _ & Hlead & Hall & Hscan & _).
    rewrite E. change (String c s +:+ rest) with (String c (s +:+ rest)).
    rewrite strtoul0_decimal by now apply Hlead.
    change (String c (s +:+ rest)) with (String c s +:+ rest). rewrite <- E.
    rewrite (scan_digits_append 10 (of_Z a) rest 0 false Hall (Hstop 10 ltac:(lia))).
    rewrite Hscan. reflexivity.
Qed.

Lemma aton_loop_digit (fuel : nat) (cp t : string) (c : ascii) (parts : list Z) :
  cp = String c t -> is_digit c = true ->
  Socket.aton_loop (S fuel) cp parts
  = (let '(val, rest) := Socket.strtoul0 cp in
     if 4294967295 <? val then None
     else
       match rest with
       | String "." rest' =>
           if (3 <=? Z.of_nat (List.length parts)) || (255 <? val) then None
           else Socket.aton_loop fuel rest' (parts ++ [val])
       | String c' _ =>
           if negb (is_space c') then None
           else if Socket.last_part_max (List.length parts) <? val then None
           else Some (Socket.pack parts val)
       | EmptyString =>
           if Socket.last_part_max (List.length parts) <? val then None
           else Some (Socket.pack parts val)
       end).
Proof. intros -> Hdig. cbn [Socket.aton_loop]. rewrite Hdig. reflexivity. Qed.

Lemma aton_step (fuel : nat) (a : Z) (rest : string) (parts : list Z) :
  0 <= a < 256 -> (List.length parts < 3)%nat ->
  Socket.aton_loop (S fuel) (of_Z a +:+ (String "." rest)) parts
  = Socket.aton_loop fuel rest (parts ++ [a]).
Proof.
  intros Ha Hparts.
  destruct (of_Z_octet a Ha) as (c & s & E & Hdig & _).
  rewrite (aton_loop_digit fuel _ (s +:+ (String "." rest)) c parts)
    by first [exact Hdig | rewrite E; reflexivity].
  rewrite (strtoul0_of_Z a (String "." rest) Ha) by (right; now eexists).
  replace (4294967295 <? a) with false by (symmetry; apply Z.ltb_ge; lia).
  replace (3 <=? Z.of_nat (List.length parts)) with false
    by (symmetry; apply Z.leb_gt; lia).
  replace (255 <? a) with false by (symmetry; apply Z.ltb_ge; lia).
  reflexivity.
Qed.

Lemma aton_last (fuel : nat) (a : Z) (parts : list Z) :
  0 <= a < 256 ->
  Socket.aton_loop (S fuel) (of_Z a) parts = Some (Socket.pack parts a).
Proof.
  intros Ha.
  destruct (of_Z_octet a Ha) as (c & s & E & Hdig & _).
  rewrite (aton_loop_digit fuel _ s c parts E Hdig).
  assert (Es : Socket.strtoul0 (of_Z a) = (a, EmptyString)).
  { pose proof (strtoul0_of_Z a EmptyString Ha (or_introl eq_refl)) as Hs.
    assert (Eapp : of_Z a +:+ EmptyString = of_Z a).
    { generalize (of_Z a). intros t. induction t as [|x t IH]; [reflexivity|].
      change (String x t +:+ "") with (String x (t +:+ "")). now rewrite IH. }
    now rewrite Eapp in Hs. }
  rewrite Es.
  replace (4294967295 <? a) with false by (symmetry; apply Z.ltb_ge; lia).
  assert (Hmax : (Socket.last_part_max (List.length parts) <? a) = false).
  { apply Z.ltb_ge. unfold Socket.last_part_max.
    destruct (List.length parts) as [|[|[|n]]]; lia. }
  rewrite Hmax. reflexivity.
Qed.

Lemma len_cons (c : ascii) (t : string) : len (String c t) = 1 + len t.
Proof. unfold len. simpl String.length. lia. Qed.

Lemma count_append (c : ascii) (a b : string) :
  count c (a +:+ b) = count c a + count c b.
Proof.
  induction a as [|x a IH]; [reflexivity|].
  change (String x a +:+ b) with (String x (a +:+ b)). cbn [count]. rewrite IH. lia.
Qed.

Lemma is_ip_dotted_quad (a b c d : Z) :
  0 <= a < 256 -> 0 <= b < 256 -> 0 <= c < 256 -> 0 <= d < 256 ->
  is_ip (dotted_quad a b c d) = Ret true.
Proof.
  intros Ha Hb Hc Hd.
  destruct (hex_to_ip_decodes a b c d Ha Hb Hc Hd) as [Hlow _].
  assert (Eq : dotted_quad a b c d
               = of_Z a +:+ (String "." (of_Z b +:+ (String "." (of_Z c +:+ (String "." (of_Z d)))))))
    by reflexivity.
  unfold is_ip.
  assert (Hcount : count "." (dotted_quad a b c d) = 3).
  { rewrite Eq.
    repeat (rewrite count_append; cbn [count Ascii.eqb Bool.eqb]).
    destruct (of_Z_octet a Ha) as (_ & _ & _ & _ & _ & _ & _ & ->).
    destruct (of_Z_octet b Hb) as (_ & _ & _ & _ & _ & _ & _ & ->).
    destruct (of_Z_octet c Hc) as (_ & _ & _ & _ & _ & _ & _ & ->).
    destruct (of_Z_octet d Hd) as (_ & _ & _ & _ & _ & _ & _ & ->).
    reflexivity. }
  rewrite Hcount. cbn [Z.eqb Pos.eqb negb].
  unfold Socket.inet_aton.
  rewrite has_nul_false by (rewrite <- Hlow; apply hex_to_ip_no_nul).
  assert (Hfuel : exists k, S (String.length (dotted_quad a b c d)) = S (S (S (S k)))).
  { exists (String.length (dotted_quad a b c d) - 3)%nat.
    assert (3 <= len (dotted_quad a b c d)).
    { rewrite Eq. repeat (rewrite len_append || rewrite len_cons).
      pose proof (len_nonneg (of_Z a)). pose proof (len_nonneg (of_Z b)).
      pose proof (len_nonneg (of_Z c)). pose proof (len_nonneg (of_Z d)). lia. }
    unfold len in *. lia. }
  destruct Hfuel as [k ->]. rewrite Eq.
  rewrite aton_step by (assumption || (cbn; lia)).
  rewrite aton_step by (assumption || (cbn; lia)).
  rewrite aton_step by (assumption || (cbn; lia)).
  rewrite aton_last by assumption. reflexivity.
Qed.

(** X4: What a web gateway encodes is decoded again, and passes for an IP
    address: the eight hexadecimal digits of the four octets of an address,
    in lower or in upper case, are decoded by [hex_to_ip] to the dotted form
    of the address, and [is_ip] accepts that form. *)
Theorem hex_to_ip_round_trip (a b c d : Z) :
  0 <= a < 256 -> 0 <= b < 256 -> 0 <= c < 256 -> 0 <= d < 256 ->
  hex_to_ip (hex_of_ip a b c d) = dotted_quad a b c d /\
  hex_to_ip (upper (hex_of_ip a b c d)) = dotted_quad a b c d /\
  is_ip (dotted_quad a b c d) = Ret true.
Proof.
  intros Ha Hb Hc Hd.
  destruct (hex_to_ip_decodes a b c d Ha Hb Hc Hd) as [Hlow Hup].
  split; [exact Hlow|]. split; [exact Hup|].
  now apply is_ip_dotted_quad.
Qed.

Lemma hex_to_ip_round_trip_witness :
  hex_to_ip "c0a800fe" = "192.168.0.254"%string /\
  hex_to_ip "C0A800FE" = "192.168.0.254"%string /\
  is_ip "192.168.0.254" = Ret true.
Proof.
  apply (hex_to_ip_round_trip 192 168 0 254); lia.
Defined.

(** ** Host names *)

Lemma occurs_split_on (c sep : ascii) (s : string) :
  occurs c s -> c = sep \/ exists piece, In piece (split_on sep s) /\ occurs c piece.
Proof.
  induction s as [|x s IH]; intros Ho.
  - destruct Ho as [[|i] Hi]; discriminate.
  - apply occurs_cons in Ho. cbn [split_on].
    destruct (Ascii.eqb_spec x sep) as [->|Hne].
    + destruct Ho as [->|Ho]; [now left|].
      destruct (IH Ho) as [->|(piece & Hin & Hp)]; [now left|].
      right. exists piece. split; [now right|exact Hp].
    + destruct (split_on sep s) as [|piece rest] eqn:E.
      * destruct Ho as [->|Ho].
        -- right. eexists. split; [now left|]. apply occurs_cons. now left.
        -- destruct (IH Ho) as [->|(p & [] & _)]. now left.
      * destruct Ho as [->|Ho].
        -- right. eexists. split; [now left|]. apply occurs_cons. now left.
        -- destruct (IH Ho) as [->|(p & [<-|Hin] & Hp)]; [now left| |].
           ++ right. eexists. split; [now left|]. apply occurs_cons. now right.
           ++ right. exists p. split; [now right|exact Hp].
Qed.

Lemma label_tail_chars (s : string) (c : ascii) :
  label_tail s = true -> occurs c s -> label_char c = true \/ c = newline.
Proof.
  induction s as [|x s IH]; intros Ht Ho.
  - destruct Ho as [[|i] Hi]; discriminate.
  - apply occurs_cons in Ho. destruct s as [|y s].
    + destruct Ho as [->|[[|i] Hi]]; try discriminate.
      cbn [label_tail] in Ht. apply orb_prop in Ht as [Ht|Ht]; [now left|].
      right. now apply Ascii.eqb_eq in Ht.
    + assert (E : label_tail (String x (String y s))
                  = label_char x && label_tail (String y s)) by reflexivity.
      rewrite E in Ht. apply andb_prop in Ht as [Hx Ht].
      destruct Ho as [->|Ho]; [now left|]. now apply IH.
Qed.

Lemma valid_label_chars (s : string) (c : ascii) :
  valid_label s = true -> occurs c s -> label_char c = true \/ c = newline.
Proof.
  destruct s as [|x s]; [discriminate|]. cbn [valid_label]. intros Hv Ho.
  apply andb_prop in Hv as [Hx Ht]. apply occurs_cons in Ho as [->|Ho]; [now left|].
  now apply (label_tail_chars s).
Qed.

Lemma substring_init (s : string) (c : ascii) :
  c <> "."%char -> occurs c s -> String.get (String.length s - 1) s = Some "."%char ->
  occurs c (String.substring 0 (String.length s - 1) s).
Proof.
  intros Hc. induction s as [|x s IH]; intros Ho Hlast.
  - destruct Ho as [[|i] Hi]; discriminate.
  - destruct s as [|y s].
    + cbn in Hlast. apply occurs_cons in Ho as [->|[[|i] Hi]]; try discriminate.
      congruence.
    + assert (E : (String.length (String x (String y s)) - 1
                   = S (String.length (String y s) - 1))%nat)
        by (simpl String.length; lia).
      rewrite E in *.
      cbn [String.substring]. apply occurs_cons.
      apply occurs_cons in Ho as [->|Ho]; [now left|]. right.
      apply IH; [exact Ho|]. exact Hlast.
Qed.

Lemma slice_to_minus_one (s : string) :
  slice_to s (-1) = String.substring 0 (String.length s - 1) s.
Proof.
  destruct s as [|x s]; [reflexivity|].
  unfold slice_to, slice, clamp.
  assert (E : len (String x s) = 1 + len s) by apply len_cons.
  pose proof (len_nonneg s) as Hs.
  change (0 <? 0) with false. change (-1 <? 0) with true. cbv iota.
  rewrite E.
  rewrite (Z.min_r (1 + len s) 0) by lia. rewrite (Z.max_r 0 0) by lia.
  rewrite (Z.min_r (1 + len s) (-1 + (1 + len s))) by lia.
  rewrite Z.max_r by lia.
  destruct (0 <? -1 + (1 + len s)) eqn:Hpos.
  - cbn [Z.to_nat]. f_equal. unfold len. simpl String.length. lia.
  - apply Z.ltb_ge in Hpos. assert (len s = 0) by lia.
    destruct s; [reflexivity|]. rewrite len_cons in *. pose proof (len_nonneg s). lia.
Qed.

Lemma is_hostname_chars (s : string) (c : ascii) :
  is_hostname s = true -> occurs c s ->
  is_alnum c = true \/ c = "-"%char \/ c = "."%char \/ c = newline.
Proof.
  unfold is_hostname. intros Hh Ho.
  destruct (String.eqb s EmptyString) eqn:Hne; [discriminate|].
  cbn [orb] in Hh. destruct (255 <? len s) eqn:Hlen; [discriminate|].
  destruct (Ascii.eqb_spec c ".") as [->|Hdot]; [now right; right; left|].
  assert (Ho' : occurs c (if bool_decide (last_char s = Some "."%char)
                          then slice_to s (-1) else s)).
  { destruct (bool_decide (last_char s = Some "."%char)) eqn:Hl; [|exact Ho].
    apply bool_decide_eq_true in Hl. rewrite slice_to_minus_one.
    now apply substring_init. }
  apply (occurs_split_on c ".") in Ho' as [->|(piece & Hin & Hp)]; [contradiction|].
  rewrite forallb_forall in Hh. specialize (Hh piece Hin).
  unfold label_ok in Hh. apply andb_prop in Hh as [_ Hv].
  destruct (valid_label_chars piece c Hv Hp) as [Hl|Hn]; [|now right; right; right].
  unfold label_char in Hl. apply orb_prop in Hl as [Hl|Hl]; [now left|].
  right. left. now apply Ascii.eqb_eq in Hl.
Qed.

Lemma is_hostname_rejects (s : string) (c : ascii) :
  occurs c s -> is_alnum c = false -> c <> "-"%char -> c <> "."%char -> c <> newline ->
  is_hostname s = false.
Proof.
  intros Ho Ha Hh Hd Hn. apply not_true_is_false. intros Ht.
  destruct (is_hostname_chars s c Ht Ho) as [E|[E|[E|E]]]; congruence.
Qed.

(** X5: A valid host name is not empty, has at most 255 characters, and holds
    letters, digits, hyphens and dots only (and possibly a newline, which
    [$] lets pass at the end of a label). So a host with any other character,
    such as the [/] of a gateway cloak, is no valid host name. *)
Theorem is_hostname_characters (s : string) :
  (is_hostname s = true ->
   s <> EmptyString /\ len s <= 255 /\
   forall c, occurs c s ->
             is_alnum c = true \/ c = "-"%char \/ c = "."%char \/ c = newline) /\
  (occurs "/" s -> is_hostname s = false).
Proof.
  split.
  - intros Hh. split; [|split].
    + intros ->. discriminate.
    + unfold is_hostname in Hh.
      destruct (String.eqb s EmptyString); [discriminate|]. cbn [orb] in Hh.
      destruct (255 <? len s) eqn:Hlen; [discriminate|]. now apply Z.ltb_ge in Hlen.
    + intros c. now apply is_hostname_chars.
  - intros Ho. apply (is_hostname_rejects s "/" Ho); [reflexivity|discriminate..].
Qed.

Lemma is_hostname_characters_witness :
  len "irc.example.org" <= 255 /\ is_hostname "gateway/web/freenode/ip.192.168.0.254" = false.
Proof.
  destruct (is_hostname_characters "irc.example.org") as [H _].
  destruct (H eq_refl) as (_ & Hlen & _).
  destruct (is_hostname_characters "gateway/web/freenode/ip.192.168.0.254") as [_ H'].
  split; [exact Hlen|]. apply H'. exists 7%nat. reflexivity.
Defined.

(** ** Banning a user of a web gateway *)

Lemma all_chars_occurs (f : ascii -> bool) (s : string) (c : ascii) :
  all_chars f s = true -> occurs c s -> f c = true.
Proof.
  induction s as [|x s IH]; intros Ha Ho.
  - destruct Ho as [[|i] Hi]; discriminate.
  - cbn [all_chars] in Ha. apply andb_prop in Ha as [Hx Hs].
    apply occurs_cons in Ho as [->|Ho]; [exact Hx|now apply IH].
Qed.

Lemma all_chars_append (f : ascii -> bool) (a b : string) :
  all_chars f (a +:+ b) = all_chars f a && all_chars f b.
Proof.
  induction a as [|x a IH]; [reflexivity|].
  change (String x a +:+ b) with (String x (a +:+ b)). cbn [all_chars].
  now rewrite IH, andb_assoc.
Qed.

Lemma hex_of_ip_alnum (a b c d : Z) :
  0 <= a < 256 -> 0 <= b < 256 -> 0 <= c < 256 -> 0 <= d < 256 ->
  all_chars is_alnum (hex_of_ip a b c d) = true.
Proof.
  intros Ha Hb Hc Hd.
  assert (H : all_below 256 (fun n => all_chars is_alnum (hex2 n)) = true)
    by (vm_compute; reflexivity).
  unfold hex_of_ip. rewrite !all_chars_append.
  rewrite (all_below_spec _ _ a H), (all_below_spec _ _ b H),
    (all_below_spec _ _ c H), (all_below_spec _ _ d H) by lia.
  reflexivity.
Qed.

Lemma hex_of_ip_head (a b c d : Z) :
  exists x y rest, hex_of_ip a b c d = String x (String y rest).
Proof. now eexists _, _, _. Qed.

(** The user name of a hostmask, trimmed, when it is all letters and
    digits: nothing is cut off. *)
Lemma get_user_trim_alnum (nick user host : string) :
  nick <> EmptyString ->
  ~ occurs "!" nick -> ~ occurs "@" nick -> ~ occurs " " nick -> ~ occurs " " host ->
  all_chars is_alnum user = true -> 2 <= len user ->
  get_user (nick +:+ "!" +:+ user +:+ "@" +:+ host) true = Ret user /\
  get_user (nick +:+ "!" +:+ user +:+ "@" +:+ host) false = Ret user /\
  get_host (nick +:+ "!" +:+ user +:+ "@" +:+ host) = host.
Proof.
  intros Hne Hbang Hat Hsp Hhsp Hal Hlen.
  assert (Hno : forall c, is_alnum c = false -> ~ occurs c user).
  { intros c Hc Ho. rewrite (all_chars_occurs _ _ _ Hal Ho) in Hc. discriminate. }
  destruct (hostmask_finds nick user host Hbang Hat Hsp
              (Hno "@"%char eq_refl) (Hno " "%char eq_refl) Hhsp) as (Fb & Fa & Fs).
  assert (Hnick : 1 <= len nick).
  { destruct nick; [contradiction|]. rewrite len_cons. pose proof (len_nonneg nick). lia. }
  unfold get_user, get_host. rewrite Fb, Fa, Fs.
  replace ((0 <? len nick) && (2 <? len nick + 1 + len user)
           && (len nick <? len nick + 1 + len user)) with true
    by (symmetry; rewrite !andb_true_iff; repeat split; apply Z.ltb_lt; lia).
  rewrite hostmask_user_slice.
  replace (len nick + 1 + len user <? 3) with false by (symmetry; apply Z.ltb_ge; lia).
  replace ((0 <? -1) && (len nick + 1 + len user <? -1)) with false by reflexivity.
  rewrite hostmask_host_slice.
  split; [|split; reflexivity].
  destruct user as [|x [|y user]];
    [unfold len in Hlen; simpl String.length in Hlen; lia
    |unfold len in Hlen; simpl String.length in Hlen; lia|].
  change (getitem (String x (String y user)) 0) with (Ret (A := ascii) x).
  cbn [py_bind all_chars] in *.
  apply andb_prop in Hal as [Hx Hal]. apply andb_prop in Hal as [Hy _].
  destruct (Ascii.eqb_spec x "~") as [->|_]; [discriminate|].
  assert (E : slice_to (String x (String y user)) 2 = String x (String y EmptyString)).
  { pose proof (slice_to_prefix (String x (String y EmptyString)) user) as Hp.
    exact Hp. }
  rewrite E.
  assert (Ei : String.eqb (String x (String y EmptyString)) "i=" = false).
  { apply String.eqb_neq. intros [= _ ->]. discriminate. }
  assert (En : String.eqb (String x (String y EmptyString)) "n=" = false).
  { apply String.eqb_neq. intros [= _ ->]. discriminate. }
  rewrite Ei, En. reflexivity.
Qed.

Lemma get_user_trim_returns_on (s : string) :
  0 < len s -> exists r, (do c <- getitem s 0;
                          if Ascii.eqb c "~" then Ret (slice_from s 1)
                          else if String.eqb (slice_to s 2) "i=" || String.eqb (slice_to s 2) "n="
                               then Ret (slice_from s 2)
                               else Ret s) = Ret r.
Proof.
  intros Hl. destruct (getitem_0_nonempty s Hl) as [c ->]. cbn [py_bind].
  destruct (Ascii.eqb c "~"); [now eexists|]. destruct (_ || _); now eexists.
Qed.

Lemma trim_returns (s : string) :
  ~ (0 < find "!" s /\ 2 < find "@" s /\ find "@" s = find "!" s + 1) ->
  exists r, get_user s true = Ret r.
Proof.
  intros Hnot. unfold get_user.
  destruct ((0 <? find "!" s) && (2 <? find "@" s) && (find "!" s <? find "@" s))
    eqn:Hcond; [|now eexists].
  rewrite !andb_true_iff, !Z.ltb_lt in Hcond. destruct Hcond as [[Hn Hm] Hnm].
  apply get_user_trim_returns_on.
  destruct (find_range "@" s) as [Hf|Hf]; [lia|].
  rewrite slice_length by lia. lia.
Qed.

Lemma get_host_of_parts (nick user host : string) :
  ~ occurs "!" nick -> ~ occurs "@" nick -> ~ occurs " " nick ->
  ~ occurs "@" user -> ~ occurs " " user -> ~ occurs " " host ->
  2 <= len nick + len user ->
  get_host (nick +:+ "!" +:+ user +:+ "@" +:+ host) = host.
Proof.
  intros Hbang Hat Hsp Huat Husp Hhsp Hlen.
  destruct (hostmask_finds nick user host Hbang Hat Hsp Huat Husp Hhsp) as (_ & Fa & Fs).
  unfold get_host. rewrite Fa, Fs.
  replace (len nick + 1 + len user <? 3) with false by (symmetry; apply Z.ltb_ge; lia).
  replace ((0 <? -1) && (len nick + 1 + len user <? -1)) with false by reflexivity.
  apply hostmask_host_slice.
Qed.

(** X6: A user of a web gateway is banned by user name: when the user part of
    a hostmask is the address of the user in hexadecimal, the host part has
    a [/] (as gateway cloaks have) and does not show the address, the webchat
    strategy bans [*!user@*]. When the host part is a valid host name it
    bans the host, [*!*@host], whatever the user part, as long as there is
    one: any user part that is not empty and has no [@] and no space. *)
Theorem webchat_bans_gateway_user (nick host : string) (a b c d : Z) :
  nick <> EmptyString ->
  ~ occurs "!" nick -> ~ occurs "@" nick -> ~ occurs " " nick -> ~ occurs " " host ->
  0 <= a < 256 -> 0 <= b < 256 -> 0 <= c < 256 -> 0 <= d < 256 ->
  let hostmask := nick +:+ "!" +:+ hex_of_ip a b c d +:+ "@" +:+ host in
  (occurs "/" host -> contains (dotted_quad a b c d) host = false ->
   make_banmask ["webchat"%string] hostmask = Ret ("*!" +:+ hex_of_ip a b c d +:+ "@*")) /\
  (forall user : string,
      user <> EmptyString -> ~ occurs "@" user -> ~ occurs " " user ->
      is_hostname host = true ->
      make_banmask ["webchat"%string] (nick +:+ "!" +:+ user +:+ "@" +:+ host)
      = Ret ("*!*@" +:+ host)) /\
  (is_hostname host = true ->
   make_banmask ["webchat"%string] hostmask = Ret ("*!*@" +:+ host)).
Proof.
  intros Hne Hbang Hat Hsp Hhsp Ha Hb Hc Hd hostmask.
  destruct (get_user_trim_alnum nick (hex_of_ip a b c d) host Hne Hbang Hat Hsp Hhsp)
    as (Ht & Hu & Hh).
  { now apply hex_of_ip_alnum. }
  { unfold hex_of_ip. rewrite !len_append. change (len (hex2 a)) with 2.
    change (len (hex2 b)) with 2. change (len (hex2 c)) with 2.
    change (len (hex2 d)) with 2. lia. }
  fold hostmask in Ht, Hu, Hh.
  destruct (hex_to_ip_decodes a b c d Ha Hb Hc Hd) as [Hdec _].
  split; [|split].
  - intros Hslash Hnot. unfold make_banmask.
    change (str_in "exact" ["webchat"%string]) with false.
    change (str_in "webchat" ["webchat"%string]) with true. cbv iota.
    rewrite Ht. cbn [py_bind]. rewrite Hh, Hdec.
    rewrite (is_hostname_rejects host "/" Hslash) by (reflexivity || discriminate).
    rewrite is_ip_dotted_quad by assumption. cbn [py_bind].
    rewrite Hnot. cbn [negb andb]. rewrite Hu. reflexivity.
  - intros user Hune Huat Husp Hvalid.
    assert (Ln : 1 <= len nick).
    { destruct nick; [contradiction|]. rewrite len_cons. pose proof (len_nonneg nick). lia. }
    assert (Lu : 1 <= len user).
    { destruct user; [contradiction|]. rewrite len_cons. pose proof (len_nonneg user). lia. }
    destruct (hostmask_finds nick user host Hbang Hat Hsp Huat Husp Hhsp) as (Fb & Fa & _).
    destruct (trim_returns (nick +:+ "!" +:+ user +:+ "@" +:+ host)) as [t Htrim].
    { rewrite Fb, Fa. lia. }
    unfold make_banmask.
    change (str_in "exact" ["webchat"%string]) with false.
    change (str_in "webchat" ["webchat"%string]) with true. cbv iota.
    rewrite Htrim. cbn [py_bind].
    rewrite get_host_of_parts by (assumption || lia).
    rewrite Hvalid. reflexivity.
  - intros Hvalid. unfold make_banmask.
    change (str_in "exact" ["webchat"%string]) with false.
    change (str_in "webchat" ["webchat"%string]) with true. cbv iota.
    rewrite Ht. cbn [py_bind]. rewrite Hh, Hvalid. reflexivity.
Qed.

Lemma webchat_bans_gateway_user_witness :
  make_banmask ["webchat"%string] "troll!c0a800fe@gateway/web/freenode/session"
  = Ret "*!c0a800fe@*"%string /\
  make_banmask ["webchat"%string] "troll!~evil@host.example.net"
  = Ret "*!*@host.example.net"%string.
Proof.
  split.
  - destruct (webchat_bans_gateway_user "troll" "gateway/web/freenode/session"
                192 168 0 254) as (H & _ & _); try lia.
    + discriminate.
    + apply no_char_in_literal; reflexivity.
    + apply no_char_in_literal; reflexivity.
    + apply no_char_in_literal; reflexivity.
    + apply no_char_in_literal; reflexivity.
    + apply H; [exists 7%nat; reflexivity|vm_compute; reflexivity].
  - destruct (webchat_bans_gateway_user "troll" "host.example.net" 192 168 0 254)
      as (_ & H & _); try lia.
    + discriminate.
    + apply no_char_in_literal; reflexivity.
    + apply no_char_in_literal; reflexivity.
    + apply no_char_in_literal; reflexivity.
    + apply no_char_in_literal; reflexivity.
    + apply (H "~evil"%string).
      * discriminate.
      * apply no_char_in_literal; reflexivity.
      * apply no_char_in_literal; reflexivity.
      * vm_compute. reflexivity.
Defined.

(** ** The user part cut short *)

(** X7: A hostmask with nothing between the [!] and the [@]: [get_user] returns
    the empty user, but with [trim] it looks at the first character of the
    user and raises [IndexError], and so does the webchat strategy of
    [make_banmask]. With [trim], [get_user] raises in no other case. *)
Theorem trim_of_empty_user (s : string) (banmask : list string) :
  (0 < find "!" s /\ 2 < find "@" s /\ find "@" s = find "!" s + 1 ->
   get_user s true = Raise IndexError /\
   get_user s false = Ret EmptyString /\
   (str_in "exact" banmask = false -> str_in "webchat" banmask = true ->
    make_banmask banmask s = Raise IndexError)) /\
  (~ (0 < find "!" s /\ 2 < find "@" s /\ find "@" s = find "!" s + 1) ->
   exists r, get_user s true = Ret r).
Proof.
  split.
  - intros (Hn & Hm & E).
    assert (Hcond : (0 <? find "!" s) && (2 <? find "@" s) && (find "!" s <? find "@" s)
                    = true).
    { rewrite !andb_true_iff. repeat split; apply Z.ltb_lt; lia. }
    assert (Hslice : slice s (find "!" s + 1) (find "@" s) = EmptyString).
    { unfold slice. rewrite E. now rewrite Z.ltb_irrefl. }
    assert (Htrim : get_user s true = Raise IndexError).
    { unfold get_user. rewrite Hcond, Hslice. reflexivity. }
    split; [exact Htrim|]. split.
    + unfold get_user. rewrite Hcond, Hslice. reflexivity.
    + intros Hex Hweb. unfold make_banmask.
      destruct banmask as [|b banmask]; [discriminate|].
      rewrite Hex, Hweb, Htrim. reflexivity.
  - apply trim_returns.
Qed.

Lemma trim_of_empty_user_witness :
  get_user "ab!@host.example" true = Raise IndexError /\
  make_banmask ["webchat"%string] "ab!@host.example" = Raise IndexError.
Proof.
  destruct (trim_of_empty_user "ab!@host.example" ["webchat"%string]) as [H _].
  destruct H as (H1 & _ & H2).
  - vm_compute. repeat split.
  - split; [exact H1|]. now apply H2.
Defined.

(** ** A ban and the user it was made for *)

Lemma regexp_search_literal (a p s : string) :
  regexp_search p s = true -> regexp_search (a +:+ p) (a +:+ s) = true.
Proof.
  intros Hp. induction a as [|c a IH]; [exact Hp|].
  change (String c a +:+ p) with (String c (a +:+ p)).
  change (String c a +:+ s) with (String c (a +:+ s)).
  cbn [regexp_search]. destruct (Ascii.eqb_spec c "*") as [->|Hstar].
  - apply orb_true_iff. right. cbn [negb Ascii.eqb Bool.eqb newline andb].
    destruct (a +:+ s); now rewrite IH.
  - rewrite Ascii.eqb_refl, IH.
    destruct (Ascii.eqb_spec c "?") as [->|_]; reflexivity.
Qed.

Lemma regexp_search_skip (a p s : string) :
  ~ occurs newline a -> regexp_search p s = true ->
  regexp_search (String "*" p) (a +:+ s) = true.
Proof.
  intros Hno Hp. cbn [regexp_search Ascii.eqb Bool.eqb].
  induction a as [|x a IH].
  - change (EmptyString +:+ s) with s. destruct s; now rewrite Hp.
  - change (String x a +:+ s) with (String x (a +:+ s)).
    apply orb_true_iff. right. apply andb_true_iff. split.
    + apply negb_true_iff. apply Ascii.eqb_neq. intros ->.
      apply Hno. apply occurs_cons. now left.
    + apply IH. intros Ho. apply Hno. apply occurs_cons. now right.
Qed.

Lemma regexp_search_part (a a' p s : string) :
  a' = a \/ a' = "*"%string -> ~ occurs newline a ->
  regexp_search p s = true -> regexp_search (a' +:+ p) (a +:+ s) = true.
Proof.
  intros [->| ->] Hno Hp; [now apply regexp_search_literal|].
  change ("*" +:+ p) with (String "*" p). now apply regexp_search_skip.
Qed.

Lemma star_has_none (c : ascii) : c <> "*"%char -> ~ occurs c "*".
Proof. intros Hc Ho. apply occurs_single in Ho. congruence. Qed.

Lemma nonempty_len (s : string) : s <> EmptyString -> 1 <= len s.
Proof.
  destruct s; [contradiction|]. intros _. rewrite len_cons.
  pose proof (len_nonneg s). lia.
Qed.

Lemma wildcard_mask (nick user host n' u' h' : string) :
  nick <> EmptyString -> user <> EmptyString -> host <> EmptyString ->
  ~ occurs "!" nick -> ~ occurs "@" nick -> ~ occurs " " nick -> ~ occurs newline nick ->
  ~ occurs "@" user -> ~ occurs " " user -> ~ occurs newline user ->
  ~ occurs " " host -> ~ occurs newline host ->
  n' = nick \/ n' = "*"%string -> u' = user \/ u' = "*"%string ->
  h' = host \/ h' = "*"%string ->
  is_hostmask (n' +:+ "!" +:+ u' +:+ "@" +:+ h') = true /\
  regexp_search (n' +:+ "!" +:+ u' +:+ "@" +:+ h')
                (nick +:+ "!" +:+ user +:+ "@" +:+ host) = true.
Proof.
  intros Hn Hu Hh Hbang Hat Hsp Hnl Huat Husp Hunl Hhsp Hhnl Hn' Hu' Hh'.
  split.
  - assert (Fn : ~ occurs "!" n' /\ ~ occurs "@" n' /\ ~ occurs " " n' /\ 1 <= len n').
    { destruct Hn' as [->| ->]; [auto using nonempty_len|].
      repeat split; try (apply star_has_none; discriminate). reflexivity. }
    assert (Fu : ~ occurs "@" u' /\ ~ occurs " " u' /\ 1 <= len u').
    { destruct Hu' as [->| ->]; [auto using nonempty_len|].
      repeat split; try (apply star_has_none; discriminate). reflexivity. }
    assert (Fh : ~ occurs " " h' /\ 1 <= len h').
    { destruct Hh' as [->| ->]; [auto using nonempty_len|].
      repeat split; try (apply star_has_none; discriminate). reflexivity. }
    destruct Fn as (F1 & F2 & F3 & F4), Fu as (F5 & F6 & F7), Fh as (F8 & F9).
    destruct (hostmask_finds n' u' h' F1 F2 F3 F5 F6 F8) as (Fb & Fa & _).
    unfold is_hostmask. rewrite Fb, Fa, !len_append.
    change (len "!") with 1. change (len "@") with 1.
    rewrite !andb_true_iff. repeat split;
      first [apply Z.ltb_lt; lia | apply Z.leb_le; lia].
  - apply regexp_search_part; [exact Hn'|exact Hnl|].
    apply (regexp_search_literal "!").
    apply regexp_search_part; [exact Hu'|exact Hunl|].
    apply (regexp_search_literal "@").
    destruct Hh' as [->| ->]; [apply regexp_search_self|now apply regexp_search_star].
Qed.

Lemma strategy_part (flag : bool) (part : string) :
  (if flag then part else "*"%string) = part \/ (if flag then part else "*"%string) = "*"%string.
Proof. destruct flag; auto. Qed.

(** X18: A ban matches the user it was made for. For a hostmask
    [nick!user@host] whose parts are not empty and have no space and no
    newline (and the nick no [!], [@] or leading colon, the user no [@]),
    whatever the strategy, [make_banmask] returns a mask that has the shape
    of a hostmask and matches that hostmask, so that, once the mask is in a
    list, [searchByHostmask] finds it for this user. *)
Theorem ban_matches_its_target (banmask : list string) (nick user host : string) :
  banmask <> [] ->
  nick <> EmptyString -> user <> EmptyString -> host <> EmptyString ->
  first_char nick <> Some ":"%char ->
  ~ occurs "!" nick -> ~ occurs "@" nick -> ~ occurs " " nick -> ~ occurs newline nick ->
  ~ occurs "@" user -> ~ occurs " " user -> ~ occurs newline user ->
  ~ occurs " " host -> ~ occurs newline host ->
  let hostmask := nick +:+ "!" +:+ user +:+ "@" +:+ host in
  exists m,
    make_banmask banmask hostmask = Ret m /\
    is_hostmask m = true /\
    hostmask_pattern_match m (OneStr hostmask) = [hostmask] /\
    forall l : MaskList.t,
      In m (CaseInsensibleDict.keys (MaskList.masks l)) ->
      In m (MaskList.searchByHostmask l hostmask).
Proof.
  intros Hb Hn Hu Hh Hcolon Hbang Hat Hsp Hnl Huat Husp Hunl Hhsp Hhnl hostmask.
  pose proof (nonempty_len nick Hn) as Ln. pose proof (nonempty_len user Hu) as Lu.
  destruct (hostmask_parts nick user host Hn Hcolon Hbang Hat Hsp Huat Husp Hhsp
              ltac:(lia)) as (Gn & _ & Gu & Gh).
  fold hostmask in Gn, Gu, Gh.
  assert (Hmask : forall n' u' h',
             n' = nick \/ n' = "*"%string -> u' = user \/ u' = "*"%string ->
             h' = host \/ h' = "*"%string ->
             let m := n' +:+ "!" +:+ u' +:+ "@" +:+ h' in
             is_hostmask m = true /\
             hostmask_pattern_match m (OneStr hostmask) = [hostmask] /\
             forall l : MaskList.t,
               In m (CaseInsensibleDict.keys (MaskList.masks l)) ->
               In m (MaskList.searchByHostmask l hostmask)).
  { intros n' u' h' Hn' Hu' Hh' m.
    destruct (wildcard_mask nick user host n' u' h' Hn Hu Hh Hbang Hat Hsp Hnl
                Huat Husp Hunl Hhsp Hhnl Hn' Hu' Hh') as (Him & Hre).
    fold m in Him, Hre. fold hostmask in Hre.
    assert (Hpm : hostmask_pattern_match m (OneStr hostmask) = [hostmask]).
    { unfold hostmask_pattern_match, pattern_match. rewrite Him.
      cbn [as_list List.filter]. now rewrite Hre. }
    split; [exact Him|]. split; [exact Hpm|].
    intros l Hin. unfold MaskList.searchByHostmask. apply List.filter_In.
    split; [exact Hin|]. now rewrite Hpm. }
  unfold make_banmask. destruct banmask as [|b banmask]; [contradiction|].
  destruct (str_in "exact" (b :: banmask)).
  - exists hostmask. split; [reflexivity|]. apply (Hmask nick user host); now left.
  - destruct (str_in "webchat" (b :: banmask)).
    + assert (Ht : exists t, get_user hostmask true = Ret t).
      { destruct (trim_returns hostmask) as [t Ht]; [|now exists t].
        destruct (hostmask_finds nick user host Hbang Hat Hsp Huat Husp Hhsp) as (Fb & Fa & _).
        fold hostmask in Fb, Fa. lia. }
      destruct Ht as [t ->]. cbn [py_bind]. rewrite Gh.
      destruct (is_ip_hex_to_ip_returns t) as [decodes Hd].
      destruct (is_hostname host).
      * cbn [py_bind]. eexists. split; [reflexivity|].
        apply (Hmask "*"%string "*"%string host); auto.
      * rewrite Hd. cbn [py_bind].
        destruct (decodes && negb (contains (hex_to_ip t) host)).
        -- rewrite Gu. cbn [py_bind]. eexists. split; [reflexivity|].
           apply (Hmask "*"%string user "*"%string); auto.
        -- eexists. split; [reflexivity|].
           apply (Hmask "*"%string "*"%string host); auto.
    + rewrite Gn, Gu, Gh.
      destruct (str_in "nick" (b :: banmask)), (str_in "user" (b :: banmask)),
        (str_in "host" (b :: banmask)); cbn [py_bind];
        (eexists; split; [reflexivity|]; apply Hmask; auto).
Qed.

Lemma ban_matches_its_target_witness :
  exists m,
    make_banmask ["host"%string] "troll!~evil@host.example.net" = Ret m /\
    hostmask_pattern_match m (OneStr "troll!~evil@host.example.net")
    = ["troll!~evil@host.example.net"%string].
Proof.
  destruct (ban_matches_its_target ["host"%string] "troll" "~evil" "host.example.net")
    as (m & Hm & _ & Hp & _);
    try discriminate;
    try (intros [i Hi]; vm_compute in Hi;
         repeat (destruct i as [|i]; [discriminate|]); discriminate).
  exists m. now split.
Defined.

(** ** Delays of queued commands *)

Lemma queue_all_spec (cmds : list (string * string)) (st : state) :
  Forall (fun c => fst c <> EmptyString) cmds ->
  queue_all cmds st
  = Ret (set_commands (commands st ++ normals (wait st) cmds)
                      (set_wait (wait st + Z.of_nat (List.length cmds)) st)).
Proof.
  intros Hne. revert st. induction Hne as [|[cmd buffer] cmds Hc Hcs IH]; intros st.
  - cbn. rewrite app_nil_r, Z.add_0_r. destruct st; reflexivity.
  - cbn [queue_all normals]. unfold queue at 1. cbn in Hc.
    destruct (String.eqb_spec cmd EmptyString) as [->|_]; [contradiction|].
    cbn [py_bind]. rewrite IH. destruct st; cbn -[Z.add Z.of_nat].
    rewrite <- app_assoc. cbn [app]. rewrite Nat2Z.inj_succ.
    unfold set_commands, set_wait. cbn -[Z.add Z.of_nat]. f_equal. f_equal. lia.
Qed.

Lemma run_loop_normals (host : Host) (cmds : list (string * string)) (w : Z) (st : state) :
  commands st = normals w cmds ->
  run_loop host (normals w cmds) st
  = mkState [] 0 (hook_signal st) (hook_timeout st) (hooks st)
            (next_hook st) (clock st) (config st)
            (commands_sent st ++ (if debug_is_2 st then [] else sent_normals w cmds))
            (errors st).
Proof.
  revert w st. induction cmds as [|[cmd buffer] cmds IH]; intros w st Hcs.
  - destruct st as [cs wt gs gt hs nx ck cf snt errs]. cbn in Hcs. subst cs.
    cbn [normals run_loop sent_normals]. unfold set_wait.
    cbn [commands wait hook_signal hook_timeout hooks next_hook clock config
         commands_sent errors].
    replace (snt ++ (if debug_is_2 _ then [] else [])) with snt
      by (destruct (debug_is_2 _); now rewrite app_nil_r).
    reflexivity.
  - destruct st as [cs wt gs gt hs nx ck cf snt errs]. clear Hcs.
    cbn [normals run_loop call]. unfold Message_call.
    assert (Hs : (if negb (w =? 0) then "/wait " +:+ of_Z w +:+ " " +:+ cmd else cmd)
                 = sent_as cmd w) by (unfold sent_as; now destruct (w =? 0)).
    rewrite Hs. unfold debug_is_2, set_commands.
    cbn [commands wait hook_signal hook_timeout hooks next_hook clock config
         commands_sent errors].
    destruct (String.eqb (config_get_plugin cf "debug") "2") eqn:Hdbg.
    + rewrite IH by reflexivity. unfold debug_is_2.
      cbn [commands wait hook_signal hook_timeout hooks next_hook clock config
           commands_sent errors]. rewrite Hdbg. reflexivity.
    + rewrite IH by reflexivity. unfold debug_is_2, command.
      cbn [commands wait hook_signal hook_timeout hooks next_hook clock config
           commands_sent errors]. rewrite Hdbg, <- app_assoc. reflexivity.
Qed.

(** X8: Commands that are queued one after the other are sent in that order
    with delays that grow by one: on an empty queue with [wait] 0, the [N]
    commands of a list (none of them empty, [N] at most 20) are sent by [run]
    as they are for the first and with [/wait 1], [/wait 2], ... in front for
    those that follow; the queue is empty afterwards and [wait] is 0 again.
    (With the option [debug] set to "2" nothing is sent.) *)
Theorem queued_commands_are_spaced (host : Host) (cmds : list (string * string))
  (st : state) :
  commands st = [] -> wait st = 0 ->
  Forall (fun c => fst c <> EmptyString) cmds ->
  (List.length cmds <= 20)%nat ->
  exists st1,
    queue_all cmds st = Ret st1 /\
    commands st1 = normals 0 cmds /\
    wait st1 = Z.of_nat (List.length cmds) /\
    commands (run host st1) = [] /\
    wait (run host st1) = 0 /\
    errors (run host st1) = errors st /\
    commands_sent (run host st1)
    = commands_sent st ++ (if debug_is_2 st then [] else sent_normals 0 cmds).
Proof.
  intros Hcs Hw Hne Hlen. rewrite (queue_all_spec cmds st Hne).
  rewrite Hcs, Hw. cbn [app]. rewrite Z.add_0_l.
  set (st1 := set_commands (normals 0 cmds) (set_wait (Z.of_nat (List.length cmds)) st)).
  exists st1. split; [reflexivity|].
  assert (Hn : forall w l, List.length (normals w l) = List.length l).
  { intros w l. revert w. induction l as [|[c b] l IH]; intros w; cbn; [reflexivity|].
    now rewrite IH. }
  assert (Hc1 : commands st1 = normals 0 cmds) by (destruct st; reflexivity).
  split; [exact Hc1|]. split; [destruct st; reflexivity|].
  unfold run. rewrite Hc1, Hn.
  replace (20 <? Z.of_nat (List.length cmds)) with false
    by (symmetry; apply Z.ltb_ge; lia).
  rewrite run_loop_normals by exact Hc1.
  cbn [commands wait errors commands_sent].
  split; [reflexivity|]. split; [reflexivity|].
  split; [destruct st; reflexivity|]. destruct st; reflexivity.
Qed.

Lemma queued_commands_are_spaced_witness :
  exists st1,
    queue_all [("/kick a", "0xbuf"); ("/kick b", "0xbuf"); ("/kick c", "0xbuf")]%string
              (queue_init ∅) = Ret st1 /\
    commands_sent (run example_host st1)
    = [("0xbuf", "/kick a"); ("0xbuf", "/wait 1 /kick b"); ("0xbuf", "/wait 2 /kick c")]%string.
Proof.
  destruct (queued_commands_are_spaced example_host
              [("/kick a", "0xbuf"); ("/kick b", "0xbuf"); ("/kick c", "0xbuf")]%string
              (queue_init ∅) eq_refl eq_refl)
    as (st1 & Hq & _ & _ & _ & _ & _ & Hs).
  - repeat constructor; discriminate.
  - cbn. lia.
  - exists st1. split; [exact Hq|exact Hs].
Defined.

(** ** The hooks of the queue come and go in pairs *)

Lemma hooks_ok_fields (st st' : state) :
  hook_signal st' = hook_signal st -> hook_timeout st' = hook_timeout st ->
  hooks st' = hooks st -> hooks_ok st -> hooks_ok st'.
Proof.
  intros Es Et Eh [(Hs & Ht & Hh)|(hs & ht & Hs & Ht & Hh & Hrest)].
  - left. unfold idle. rewrite Es, Et, Eh. now repeat split.
  - right. exists hs, ht. unfold waiting_on. rewrite Es, Et, Eh. now repeat split.
Qed.

Lemma unhooked_both (st : state) :
  hooks_ok st ->
  idle (set_globals None None
          (unhook_global (hook_timeout (unhook_global (hook_signal st) st))
                         (unhook_global (hook_signal st) st))).
Proof.
  intros [(Hs & Ht & Hh)|(hs & ht & Hs & Ht & Hh & Hne & _)];
    destruct st as [cs wt gs gt hks nx ck cf snt errs]; cbn in Hs, Ht, Hh; subst.
  - repeat split.
  - unfold unhook_global. cbn -[unhook]. rewrite unhook_pair_first by assumption.
    cbn -[unhook]. rewrite unhook_single. repeat split.
Qed.

Ltac waiting_fields :=
  split; [reflexivity|]; split; [reflexivity|]; split; [reflexivity|];
  split; [cbn; lia|]; split; [now eexists|]; split; [reflexivity|];
  split; [now eexists _, _|reflexivity].

Lemma call_hooks_ok (host : Host) (pack : Message) (st : state) :
  hooks_ok st -> hooks_ok (fst (call host pack st)).
Proof.
  intros Hok. destruct pack as [cmd buffer w|cmd buffer w server channel nick|server channel].
  - unfold call, Message_call. destruct (debug_is_2 st); [exact Hok|].
    apply (hooks_ok_fields st); [destruct st; reflexivity..|exact Hok].
  - right.
    destruct st as [cs wt gs gt hks nx ck cf snt errs].
    destruct Hok as [(Hs & Ht & Hh)|(hs & ht & Hs & Ht & Hh & Hne & _)];
      cbn in Hs, Ht, Hh; subst.
    + destruct (String.eqb (config_get_plugin cf "debug") "2") eqn:Hdbg;
        unfold call, Message_call, debug_is_2; cbn; rewrite Hdbg; cbn;
        rewrite ?Hdbg; cbn;
        eexists _, _; unfold waiting_on; cbn; waiting_fields.
    + destruct (String.eqb (config_get_plugin cf "debug") "2") eqn:Hdbg;
        unfold call, Message_call, debug_is_2, unhook_global;
        cbn -[unhook]; rewrite (unhook_pair_second _ _ Hne);
        cbn -[unhook]; rewrite unhook_single; cbn; rewrite Hdbg; cbn;
        rewrite ?Hdbg; cbn;
        eexists _, _; unfold waiting_on; cbn; waiting_fields.
  - unfold call.
    destruct (String.eqb channel EmptyString || negb (irc_is_channel host channel));
      [exact Hok|].
    destruct (negb (set_mem channel _)); [|exact Hok].
    apply (hooks_ok_fields st); [destruct st; reflexivity..|exact Hok].
Qed.

Lemma run_loop_hooks_ok (host : Host) (cs : list Message) (st : state) :
  hooks_ok st -> hooks_ok (run_loop host cs st).
Proof.
  revert st. induction cs as [|pack rest IH]; intros st Hok.
  - apply (hooks_ok_fields st); [destruct st; reflexivity..|exact Hok].
  - cbn [run_loop].
    pose proof (call_hooks_ok host pack (set_commands rest st)
                  (hooks_ok_set_commands rest st Hok)) as Hc.
    destruct (call host pack (set_commands rest st)) as [st' rt]. cbn [fst] in Hc.
    destruct rt; [now apply IH|exact Hc].
Qed.

Lemma run_hooks_ok (host : Host) (st : state) : hooks_ok st -> hooks_ok (run host st).
Proof.
  intros Hok. unfold run. destruct (20 <? _).
  - apply (hooks_ok_fields st); [destruct st; reflexivity..|exact Hok].
  - now apply run_loop_hooks_ok.
Qed.

Lemma idle_hooks_ok (st : state) : idle st -> hooks_ok st.
Proof. now left. Qed.

Lemma queue_continue_cb_hooks_ok (host : Host) (st : state) (data sd : string) :
  hooks_ok st -> hooks_ok (fst (queue_continue_cb host st data sd)).
Proof.
  intros Hok. unfold queue_continue_cb.
  destruct (after_first_space sd) as [r|e]; [|exact Hok].
  destruct (String.eqb (strip r) data); [|exact Hok].
  cbn [fst]. apply run_hooks_ok, idle_hooks_ok. now apply unhooked_both.
Qed.

Lemma signal_send_hooks_ok (host : Host) (st : state) (signal sd : string) :
  hooks_ok st -> hooks_ok (signal_send host st signal sd).
Proof.
  intros Hok. unfold signal_send. pose proof Hok as Hok'.
  destruct Hok' as [(Hs & Ht & Hh)|(hs & ht & Hs & Ht & Hh & Hne & [mask Hm] & Hcb
                                    & (iv & due & Hw) & Hcb')].
  - rewrite Hh. left. now repeat split.
  - rewrite Hh. cbn [fold_left].
    assert (H1 : hooks_ok (deliver host signal sd st hs)).
    { unfold deliver. rewrite Hm. destruct (_ && _); [|exact Hok].
      now apply queue_continue_cb_hooks_ok. }
    unfold deliver at 1. rewrite Hw. exact H1.
Qed.

Lemma elapse_hooks_ok (st : state) (ms : Z) : hooks_ok st -> hooks_ok (elapse st ms).
Proof.
  intros Hok. unfold elapse.
  destruct Hok as [(Hs & Ht & Hh)|(hs & ht & Hs & Ht & Hh & Hne & [mask Hm] & Hcb
                                   & (iv & due & Hw) & Hcb')].
  - destruct st as [cs wt gs gt hks nx ck cf snt errs]. cbn in Hs, Ht, Hh. subst.
    left. repeat split.
  - destruct st as [cs wt gs gt hks nx ck cf snt errs]. cbn in Hs, Ht, Hh. subst.
    cbn [set_clock hooks fold_left commands wait hook_signal hook_timeout next_hook
         clock config commands_sent errors].
    unfold fire at 2. rewrite Hm. unfold fire. rewrite Hw.
    unfold set_clock at 1 2. cbn [hooks clock].
    match goal with |- context [andb ?a ?b] => destruct (andb a b) eqn:Hdue end.
    + rewrite Hcb'. change (String.eqb "queue_timeout_cb" "queue_timeout_cb") with true.
      cbv iota. change (1 =? 1) with true. cbv iota.
      unfold queue_timeout_cb, unhook_global. cbn -[unhook bool_decide].
      rewrite unhook_pair_first by assumption. cbn -[unhook bool_decide].
      rewrite unhook_single, ?Hdue. left. unfold idle. cbn. auto.
    + rewrite ?Hdue. right. exists hs, ht. unfold waiting_on. cbn. eauto 12.
Qed.

Lemma steps_hooks_ok (host : Host) (evs : list event) (st : state) :
  hooks_ok st -> hooks_ok (steps host st evs).
Proof.
  revert st. induction evs as [|ev evs IH]; intros st Hok; [exact Hok|].
  unfold steps in *. cbn [fold_left]. apply IH.
  destruct ev as [signal sd|ms]; cbn [step].
  - now apply signal_send_hooks_ok.
  - now apply elapse_hooks_ok.
Qed.

(** X9: At any time the queue has no hook at all, or the two hooks of the last
    [WaitForOp]: one signal hook and one timer that fires once, both held by
    the globals [hook_signal] and [hook_timeout]. This holds when the script
    is loaded and is kept by [queue], [clear] and [run], by every signal and
    by the passing of time, so a hook is never left behind and never
    installed twice. *)
Theorem hooks_come_in_pairs (host : Host) (st : state) :
  hooks_ok st ->
  (forall cmd type w buffer st', queue st cmd type w buffer = Ret st' -> hooks_ok st') /\
  hooks_ok (clear st) /\
  hooks_ok (run host st) /\
  (forall evs : list event, hooks_ok (steps host st evs)) /\
  (List.length (hooks (run host st)) = 0%nat \/ List.length (hooks (run host st)) = 2%nat).
Proof.
  intros Hok. split; [|split; [|split; [|split]]].
  - intros cmd type w buffer st' Hq. unfold queue in Hq.
    destruct (match type with
              | TNormal => _
              | TWaitForOp server channel nick => _
              | TAddChannel server channel => _
              end) as [pack|e]; cbn in Hq; [|discriminate].
    injection Hq as <-.
    apply (hooks_ok_fields st); [destruct st; reflexivity..|exact Hok].
  - apply (hooks_ok_fields st); [destruct st; reflexivity..|exact Hok].
  - now apply run_hooks_ok.
  - intros evs. now apply steps_hooks_ok.
  - destruct (run_hooks_ok host st Hok) as [(_ & _ & Hh)|(hs & ht & _ & _ & Hh & _)];
      rewrite Hh; [now left|now right].
Qed.

Lemma hooks_come_in_pairs_witness :
  hooks_ok (steps example_host (run example_host (example_queue ∅))
                  [Elapse 1000; Signal "freenode,irc_in2_MODE" ":x!y@z MODE #chan +o me"]).
Proof.
  destruct (hooks_come_in_pairs example_host (run example_host (example_queue ∅)))
    as (_ & _ & _ & H & _).
  - destruct (hooks_come_in_pairs example_host (example_queue ∅)) as (_ & _ & H & _).
    + left. repeat split.
    + exact H.
  - apply H.
Defined.

(** ** The watch list *)

Lemma split_on_free (c : ascii) (s : string) : ~ occurs c s -> split_on c s = [s].
Proof.
  induction s as [|x s IH]; intros Hf; [reflexivity|].
  cbn [split_on]. destruct (Ascii.eqb_spec x c) as [->|Hne].
  - destruct Hf. apply occurs_cons. now left.
  - rewrite IH; [reflexivity|]. intros Ho. apply Hf. apply occurs_cons. now right.
Qed.

Lemma split_on_append (c : ascii) (x r : string) :
  ~ occurs c x -> split_on c (x +:+ String c r) = x :: split_on c r.
Proof.
  induction x as [|a x IH]; intros Hf.
  - change (EmptyString +:+ String c r) with (String c r).
    cbn [split_on]. now rewrite Ascii.eqb_refl.
  - change (String a x +:+ String c r) with (String a (x +:+ String c r)).
    cbn [split_on]. destruct (Ascii.eqb_spec a c) as [->|Hne].
    + destruct Hf. apply occurs_cons. now left.
    + rewrite IH; [reflexivity|]. intros Ho. apply Hf. apply occurs_cons. now right.
Qed.

Lemma split_on_join (c : ascii) (l : list string) :
  l <> [] -> List.Forall (fun x => ~ occurs c x) l ->
  split_on c (join (String c EmptyString) l) = l.
Proof.
  induction l as [|x l IH]; intros Hne Hf; [now destruct Hne|].
  apply List.Forall_cons_iff in Hf. destruct Hf as [Hx Hf].
  destruct l as [|y l].
  - cbn [join]. now apply split_on_free.
  - change (join (String c EmptyString) (x :: y :: l))
      with (x +:+ String c EmptyString +:+ join (String c EmptyString) (y :: l)).
    change (String c EmptyString +:+ join (String c EmptyString) (y :: l))
      with (String c (join (String c EmptyString) (y :: l))).
    rewrite split_on_append by exact Hx. now rewrite IH.
Qed.

Lemma split_on_pieces (c : ascii) (s piece : string) :
  In piece (split_on c s) -> ~ occurs c piece.
Proof.
  revert piece. induction s as [|x s IH]; intros piece Hin.
  - destruct Hin as [<-|[]]. intros [i Hi]. destruct i; discriminate.
  - cbn [split_on] in Hin. destruct (Ascii.eqb_spec x c) as [->|Hne].
    + destruct Hin as [<-|Hin]; [|now apply IH].
      intros [i Hi]. destruct i; discriminate.
    + destruct (split_on c s) as [|p rest].
      * destruct Hin as [<-|[]]. rewrite occurs_single. exact Hne.
      * destruct Hin as [<-|Hin].
        -- rewrite occurs_cons. intros [E|Ho]; [contradiction|].
           revert Ho. apply IH. now left.
        -- apply IH. now right.
Qed.

Lemma set_mem_app (x : string) (l1 l2 : list string) :
  set_mem x (l1 ++ l2) = set_mem x l1 || set_mem x l2.
Proof. unfold set_mem. apply existsb_app. Qed.

Lemma set_mem_fold (x y : string) (l : list string) :
  fold_key x = fold_key y -> set_mem x l = set_mem y l.
Proof.
  intros E. unfold set_mem. induction l as [|z l IH]; [reflexivity|].
  cbn [existsb]. rewrite IH. unfold case_eq_key. now rewrite E.
Qed.

Lemma set_mem_self (x : string) : set_mem x [x] = true.
Proof. unfold set_mem, case_eq_key. cbn [existsb]. now rewrite bool_decide_eq_true_2. Qed.

Lemma set_mem_set_add (x y : string) (l : list string) :
  set_mem x (set_add l y) = set_mem x l || set_mem x [y].
Proof.
  unfold set_add. destruct (set_mem y l) eqn:Hy; [|apply set_mem_app].
  destruct (set_mem x l) eqn:Hx; [reflexivity|].
  cbn [orb]. unfold set_mem at 1. cbn [existsb]. rewrite orb_false_r.
  unfold case_eq_key. destruct (bool_decide (fold_key x = fold_key y)) eqn:E; [|reflexivity].
  apply bool_decide_eq_true in E. rewrite (set_mem_fold x y l E) in Hx. congruence.
Qed.

Lemma set_mem_fold_left (x : string) (l acc : list string) :
  set_mem x (fold_left set_add l acc) = set_mem x acc || set_mem x l.
Proof.
  revert acc. induction l as [|y l IH]; intros acc.
  - cbn. now rewrite orb_false_r.
  - cbn [fold_left]. rewrite IH, set_mem_set_add.
    change (y :: l) with ([y] ++ l). rewrite set_mem_app. now rewrite orb_assoc.
Qed.

Lemma set_mem_CaseInsensibleSet (x : string) (l : list string) :
  set_mem x (CaseInsensibleSet l) = set_mem x l.
Proof. unfold CaseInsensibleSet. now rewrite set_mem_fold_left. Qed.

Lemma Forall_set_add (P : string -> Prop) (l : list string) (y : string) :
  List.Forall P l -> P y -> List.Forall P (set_add l y).
Proof.
  intros Hl Hy. unfold set_add. destruct (set_mem y l); [exact Hl|].
  apply List.Forall_app. split; [exact Hl|]. now constructor.
Qed.

Lemma Forall_CaseInsensibleSet (P : string -> Prop) (l : list string) :
  List.Forall P l -> List.Forall P (CaseInsensibleSet l).
Proof.
  unfold CaseInsensibleSet. assert (Hg : forall acc, List.Forall P acc -> List.Forall P l ->
                                                    List.Forall P (fold_left set_add l acc)).
  { induction l as [|y l IH]; intros acc Ha Hl; [exact Ha|].
    apply List.Forall_cons_iff in Hl. destruct Hl as [Hy Hl].
    cbn [fold_left]. apply IH; [now apply Forall_set_add|exact Hl]. }
  intros Hl. apply Hg; [constructor|exact Hl].
Qed.

Lemma get_config_list_pieces (st : state) (option : string) :
  List.Forall (fun x => ~ occurs "," x) (get_config_list st option).
Proof.
  unfold get_config_list. destruct (String.eqb _ _); [constructor|].
  apply List.Forall_forall. intros x Hx. exact (split_on_pieces "," _ x Hx).
Qed.

Lemma join_nonempty (sep : string) (l : list string) (x : string) :
  x <> EmptyString -> join sep (l ++ [x]) <> EmptyString.
Proof.
  intros Hx. induction l as [|y l IH]; [exact Hx|].
  change ((y :: l) ++ [x]) with (y :: (l ++ [x])).
  destruct (l ++ [x]) as [|z r] eqn:E; [now destruct l|].
  cbn [join]. intros Hj.
  destruct y; [|discriminate].
  change (EmptyString +:+ sep +:+ join sep (z :: r)) with (sep +:+ join sep (z :: r)) in Hj.
  destruct sep; [|discriminate].
  now apply IH.
Qed.

Lemma lower_nonempty (a b : string) :
  fold_key a = fold_key b -> b <> EmptyString -> a <> EmptyString.
Proof. intros E Hb ->. destruct b; [now destruct Hb|discriminate]. Qed.

Lemma AddChannel_adds (host : Host) (st : state) (server channel : string) :
  channel <> EmptyString -> irc_is_channel host channel = true ->
  ~ occurs "," channel ->
  let option := "watchlist." +:+ server in
  let st' := fst (call host (AddChannel server channel) st) in
  set_mem channel (get_config_list st' option) = true /\
  (forall x, set_mem x (get_config_list st option) = true ->
             set_mem x (get_config_list st' option) = true) /\
  (set_mem channel (get_config_list st option) = true -> st' = st).
Proof.
  intros Hne Hch Hcomma option st'. subst st'.
  cbn [call]. apply String.eqb_neq in Hne. rewrite Hne, Hch. cbn [orb negb].
  fold option. rewrite set_mem_CaseInsensibleSet.
  destruct (set_mem channel (get_config_list st option)) eqn:Hmem; cbn [negb fst].
  - now repeat split.
  - set (channels := CaseInsensibleSet (get_config_list st option)).
    assert (Hadd : set_add channels channel = channels ++ [channel]).
    { unfold set_add, channels. now rewrite set_mem_CaseInsensibleSet, Hmem. }
    assert (Hlist : get_config_list
                      (set_config (<[option := join "," (set_add channels channel)]>
                                     (config st)) st) option
                    = channels ++ [channel]).
    { unfold get_config_list, set_config, config_get_plugin. cbn [config].
      rewrite lookup_insert_eq, Hadd.
      assert (Hj : join "," (channels ++ [channel]) <> EmptyString).
      { apply join_nonempty. now apply String.eqb_neq. }
      apply String.eqb_neq in Hj. rewrite Hj.
      apply split_on_join; [now destruct channels|].
      apply List.Forall_app. split; [|now constructor].
      apply Forall_CaseInsensibleSet, get_config_list_pieces. }
    rewrite Hlist. split; [|split].
    + rewrite set_mem_app, set_mem_self. apply orb_true_r.
    + intros x Hx. rewrite set_mem_app. unfold channels.
      rewrite set_mem_CaseInsensibleSet, Hx. reflexivity.
    + discriminate.
Qed.

(** X10: A channel is put on the watch list once. After [AddChannel] has run for
    a channel (a channel name with no comma), the option
    [watchlist.<server>] lists the channel, every channel it listed before
    is still listed, and running [AddChannel] again for the channel in any
    spelling changes nothing. The queue goes on in every case. *)
Theorem watchlist_has_channel_once (host : Host) (st : state) (server channel : string) :
  channel <> EmptyString -> irc_is_channel host channel = true ->
  ~ occurs "," channel ->
  let option := "watchlist." +:+ server in
  let st' := fst (call host (AddChannel server channel) st) in
  snd (call host (AddChannel server channel) st) = true /\
  set_mem channel (get_config_list st' option) = true /\
  (forall x, set_mem x (get_config_list st option) = true ->
             set_mem x (get_config_list st' option) = true) /\
  (forall channel', fold_key channel' = fold_key channel ->
                    call host (AddChannel server channel') st' = (st', true)) /\
  commands st' = commands st /\ commands_sent st' = commands_sent st /\
  hooks st' = hooks st.
Proof.
  intros Hne Hch Hcomma option st'.
  destruct (AddChannel_adds host st server channel Hne Hch Hcomma) as (Hmem & Hkeep & _).
  fold option in Hmem, Hkeep. fold st' in Hmem, Hkeep.
  split; [|split; [exact Hmem|split; [exact Hkeep|split]]].
  - cbn [call]. destruct (_ || _); [reflexivity|]. now destruct (negb _).
  - intros channel' E. cbn [call]. destruct (_ || _); [reflexivity|].
    fold option. rewrite set_mem_CaseInsensibleSet.
    now rewrite (set_mem_fold channel' channel _ E), Hmem.
  - subst st'. cbn [call]. destruct (_ || _); [now repeat split|].
    destruct (negb _); now repeat split.
Qed.

Lemma watchlist_has_channel_once_witness :
  set_mem "#chan" (get_config_list
    (fst (call example_host (AddChannel "freenode" "#Chan")
               (set_config (<["watchlist.freenode" := "#weechat,#python"]> ∅)
                           (queue_init ∅))))
    "watchlist.freenode") = true.
Proof.
  rewrite (set_mem_fold "#chan" "#Chan") by reflexivity.
  refine (proj1 (proj2 (watchlist_has_channel_once example_host _ "freenode" "#Chan"
                          _ _ _))).
  - discriminate.
  - reflexivity.
  - intros [i Hi]. do 6 (destruct i as [|i]; [discriminate|]). discriminate.
Defined.

(** ** The fetch queue and its hooks *)

Lemma filter_unhook (f : hook -> bool) (l : list hook) (h : hook) :
  List.filter f (unhook l h) = unhook (List.filter f l) h.
Proof.
  unfold unhook. induction l as [|x l IH]; [reflexivity|].
  cbn [List.filter]. destruct (negb (hook_id x =? hook_id h)%nat) eqn:E1, (f x) eqn:E2;
    cbn [List.filter]; rewrite ?E1, ?E2, IH; reflexivity.
Qed.

Lemma unhook_fetch_pair (h1 h2 : hook) : unhook (unhook [h1; h2] h1) h2 = [].
Proof.
  unfold unhook. cbn [List.filter]. rewrite Nat.eqb_refl. cbn [negb].
  destruct (hook_id h2 =? hook_id h1)%nat; cbn [negb List.filter];
    [reflexivity|]. now rewrite Nat.eqb_refl.
Qed.

Lemma maskModes_mode (self : MaskCache.instance) :
  MaskCache.maskModes (MaskCache.mode self) = Ret self.
Proof. destruct self; reflexivity. Qed.

Lemma fetch_ok_caches (st st' : MaskCache.state) :
  MaskCache.hook_queue st' = MaskCache.hook_queue st ->
  MaskCache.hook_fetch st' = MaskCache.hook_fetch st ->
  MaskCache.hooks st' = MaskCache.hooks st ->
  fetch_ok st -> fetch_ok st'.
Proof. unfold fetch_ok. intros -> -> ->. trivial. Qed.

Lemma fetch_fetch_ok (host : Host) (now : Z) (self : MaskCache.instance)
  (st : MaskCache.state) (server channel : string) :
  fetch_ok st -> fetch_ok (MaskCache.fetch host now self st server channel).
Proof.
  intros Hok. unfold MaskCache.fetch.
  destruct (negb _); [exact Hok|].
  destruct (match CaseInsensibleDict.getitem _ _ with Ret _ => _ | Raise _ => _ end);
    [exact Hok|].
  destruct (_ || _); [exact Hok|].
  unfold MaskCache.key_in_queue.
  destruct (bool_decide _) eqn:Hin; [exact Hok|].
  apply bool_decide_eq_false in Hin. rewrite list_elem_of_In in Hin.
  destruct Hok as (Hnd & Hmodes & Hfilter & Hempty & Hfull).
  destruct st as [bl ml q hf hks nx isup cf snt sd errs].
  cbn [MaskCache.hook_queue MaskCache.hook_fetch MaskCache.hooks MaskCache.next_hook
       MaskCache.set_queue MaskCache.banlist MaskCache.mutelist MaskCache.isupport
       MaskCache.config MaskCache.commands_sent MaskCache.said MaskCache.errors] in *.
  assert (Hq : q ++ [(server, channel, MaskCache.mode self)] <> []).
  { destruct q; discriminate. }
  destruct hf as [|h hf].
  - unfold fetch_ok. cbn.
    split; [|split; [|split; [|split]]].
    + apply NoDup_app. split; [exact Hnd|]. split.
      * intros x Hx Hx'. apply list_elem_of_In in Hx.
        apply list_elem_of_singleton in Hx'. subst x. now apply Hin.
      * apply NoDup_singleton.
    + intros key Hk. apply in_app_or in Hk. destruct Hk as [Hk|[<-|[]]].
      * now apply Hmodes.
      * exists self. apply maskModes_mode.
    + rewrite List.filter_app, Hfilter. reflexivity.
    + intros E. now destruct Hq.
    + intros _. eexists _, _. repeat split.
  - assert (Hne : q <> []) by (intros E; specialize (Hempty E); discriminate).
    unfold fetch_ok. cbn.
    split; [|split; [|split; [|split]]].
    + apply NoDup_app. split; [exact Hnd|]. split.
      * intros x Hx Hx'. apply list_elem_of_In in Hx.
        apply list_elem_of_singleton in Hx'. subst x. now apply Hin.
      * apply NoDup_singleton.
    + intros key Hk. apply in_app_or in Hk. destruct Hk as [Hk|[<-|[]]].
      * now apply Hmodes.
      * exists self. apply maskModes_mode.
    + exact Hfilter.
    + intros E. now destruct Hq.
    + intros _. now apply Hfull.
Qed.

Lemma masklist_add_cb_fetch_ok (now : Z) (st : MaskCache.state)
  (modifier_data str : string) :
  fetch_ok st -> fetch_ok (fst (MaskCache.masklist_add_cb now st modifier_data str)).
Proof.
  intros Hok. unfold MaskCache.masklist_add_cb.
  destruct (MaskCache.last4 (split_ws str)) as [|a [|b [|c [|d [|e l]]]]]; try exact Hok.
  destruct (MaskCache.hook_queue st) as [|[[serv chan] mode] rest] eqn:Hq; [exact Hok|].
  destruct (bool_decide _).
  - destruct (MaskCache.maskModes mode) as [self|e]; [|exact Hok].
    cbn [fst]. eapply fetch_ok_caches; [..|exact Hok]; destruct self; reflexivity.
  - cbn [fst]. eapply fetch_ok_caches; [..|exact Hok]; reflexivity.
Qed.

Lemma masklist_end_cb_pops (st : MaskCache.state) (key : string * string * string)
  (rest : list (string * string * string)) :
  fetch_ok st -> MaskCache.hook_queue st = key :: rest ->
  snd (MaskCache.masklist_end_cb st) = Ret EmptyString /\
  MaskCache.hook_queue (fst (MaskCache.masklist_end_cb st)) = rest /\
  fetch_ok (fst (MaskCache.masklist_end_cb st)).
Proof.
  intros (Hnd & Hmodes & Hfilter & Hempty & Hfull) Hq.
  unfold MaskCache.masklist_end_cb. rewrite Hq.
  destruct key as [[server channel] mode].
  destruct (Hmodes (server, channel, mode)) as [self Hself].
  { rewrite Hq. now left. }
  cbn [snd] in Hself. rewrite Hself.
  destruct (Hfull ltac:(rewrite Hq; discriminate)) as (h1 & h2 & Hf & Hw1 & Hc1 & Hw2 & Hc2).
  rewrite Hq in Hnd, Hmodes. apply NoDup_cons in Hnd. destruct Hnd as [_ Hnd].
  destruct st as [bl ml q hf hks nx isup cf snt sd errs].
  cbn [MaskCache.hook_queue MaskCache.hook_fetch MaskCache.hooks] in *.
  rewrite Hf in Hfilter. subst q hf.
  set (st1 := if negb _ then _ else _).
  assert (H1 : MaskCache.hook_queue st1 = rest /\ MaskCache.hook_fetch st1 = [h1; h2]
               /\ MaskCache.hooks st1 = hks /\ MaskCache.next_hook st1 = nx).
  { unfold st1. destruct (negb _); destruct self; cbn; auto. }
  destruct H1 as (Hq1 & Hf1 & Hh1 & Hn1).
  rewrite Hq1, Hf1, Hh1, Hn1. cbn [fst snd].
  split; [reflexivity|].
  destruct rest as [|k rest].
  - split; [destruct st1; cbn in *; now subst|].
    unfold fetch_ok. destruct st1. cbn in *. subst.
    split; [constructor|]. split; [intros ? []|].
    split; [|split; [reflexivity|intros E; now destruct E]].
    rewrite !filter_unhook, Hfilter. apply unhook_fetch_pair.
  - split; [exact Hq1|].
    unfold fetch_ok. rewrite Hq1, Hf1, Hh1.
    split; [exact Hnd|]. split; [intros key Hk; apply Hmodes; now right|].
    split; [exact Hfilter|]. split; [discriminate|].
    intros _. exists h1, h2. auto.
Qed.

Lemma masklist_end_cb_fetch_ok (st : MaskCache.state) :
  fetch_ok st -> fetch_ok (fst (MaskCache.masklist_end_cb st)).
Proof.
  intros Hok. destruct (MaskCache.hook_queue st) as [|key rest] eqn:Hq.
  - unfold MaskCache.masklist_end_cb. rewrite Hq. exact Hok.
  - now apply (masklist_end_cb_pops st key rest).
Qed.

(** X11: The two modifier hooks of a fetch are installed exactly while a request
    is queued. [fetch] and the two callbacks keep it so: no request is
    queued twice, the host has the pair of hooks from the first request on,
    and the callback of the end of a list, which takes the first request
    off the queue, removes both hooks when it takes the last. While the
    hooks are installed that callback finds a request and does not raise. *)
Theorem fetch_hooks_follow_queue (host : Host) (st : MaskCache.state) :
  fetch_ok st ->
  (forall now self server channel,
      fetch_ok (MaskCache.fetch host now self st server channel)) /\
  (forall now modifier_data str,
      fetch_ok (fst (MaskCache.masklist_add_cb now st modifier_data str))) /\
  fetch_ok (fst (MaskCache.masklist_end_cb st)) /\
  (forall key rest,
      MaskCache.hook_queue st = key :: rest ->
      snd (MaskCache.masklist_end_cb st) = Ret EmptyString /\
      MaskCache.hook_queue (fst (MaskCache.masklist_end_cb st)) = rest) /\
  (MaskCache.hook_fetch st <> [] <-> MaskCache.hook_queue st <> []).
Proof.
  intros Hok. split; [|split; [|split; [|split]]].
  - intros. now apply fetch_fetch_ok.
  - intros. now apply masklist_add_cb_fetch_ok.
  - now apply masklist_end_cb_fetch_ok.
  - intros key rest Hq. destruct (masklist_end_cb_pops st key rest Hok Hq) as (? & ? & _).
    now split.
  - destruct Hok as (_ & _ & _ & Hempty & Hfull). split.
    + intros Hf Hq. now apply Hf, Hempty.
    + intros Hq. destruct (Hfull Hq) as (h1 & h2 & -> & _). discriminate.
Qed.

Lemma fetch_hooks_follow_queue_witness :
  fetch_ok fetch_first /\
  MaskCache.hooks (fst (MaskCache.masklist_end_cb fetch_first)) = [].
Proof.
  assert (H0 : fetch_ok masks_init).
  { unfold fetch_ok. cbn. split; [constructor|]. split; [intros ? []|].
    split; [reflexivity|]. split; [reflexivity|]. intros E. now destruct E. }
  destruct (fetch_hooks_follow_queue example_host masks_init H0) as (Hf & _).
  split; [apply Hf|]. vm_compute. reflexivity.
Defined.

(** ** Masks added and removed *)

Lemma MaskCache_remove_absent (c : MaskCache.cache) (server channel : string)
  (mask : option string) :
  CaseInsensibleDict.contains c (server, channel) = false ->
  MaskCache.remove c server channel mask = c.
Proof.
  intros Hc. unfold MaskCache.remove. destruct mask as [mask|].
  - unfold CaseInsensibleDict.getitem. apply contains_false in Hc. now rewrite Hc.
  - now rewrite delitem_absent.
Qed.

Lemma MaskCache_remove_other (c : MaskCache.cache) (server channel : string)
  (mask : option string) (key' : string * string) :
  fold_key key' <> fold_key (server, channel) ->
  CaseInsensibleDict.getitem (MaskCache.remove c server channel mask) key'
  = CaseInsensibleDict.getitem c key'.
Proof.
  intros Hne. unfold MaskCache.remove. destruct mask as [mask|].
  - destruct (CaseInsensibleDict.getitem c (server, channel)) as [l|e]; [|reflexivity].
    cbn [py_bind]. destruct (MaskList.delitem l mask) as [l'|e]; [|reflexivity].
    cbn [py_bind try_except]. apply getitem_setitem_other. congruence.
  - destruct (CaseInsensibleDict.contains c (server, channel)) eqn:Hc.
    + rewrite delitem_present by exact Hc. cbn [try_except].
      unfold CaseInsensibleDict.getitem. rewrite lookup_delete_ne by congruence.
      reflexivity.
    + now rewrite delitem_absent.
Qed.

Lemma MaskCache_remove_list (c : MaskCache.cache) (server channel : string)
  (key' : string * string) :
  fold_key key' = fold_key (server, channel) ->
  CaseInsensibleDict.contains (MaskCache.remove c server channel None) key' = false.
Proof.
  intros E. unfold MaskCache.remove.
  destruct (CaseInsensibleDict.contains c (server, channel)) eqn:Hc.
  - rewrite delitem_present by exact Hc. cbn [try_except].
    apply contains_false. rewrite E. apply lookup_delete_eq.
  - rewrite delitem_absent by exact Hc. cbn [try_except].
    now rewrite (contains_fold c key' (server, channel) E).
Qed.

Lemma MaskCache_remove_mask (c : MaskCache.cache) (server channel mask : string)
  (l : MaskList.t) :
  CaseInsensibleDict.getitem c (server, channel) = Ret l ->
  (MaskList.contains l mask = false ->
   MaskCache.remove c server channel (Some mask) = c) /\
  exists l',
    CaseInsensibleDict.getitem (MaskCache.remove c server channel (Some mask))
                               (server, channel) = Ret l' /\
    (forall m, fold_key m = fold_key mask -> MaskList.contains l' m = false) /\
    (forall m, fold_key m <> fold_key mask ->
               MaskList.getitem l' m = MaskList.getitem l m).
Proof.
  intros Hl. unfold MaskCache.remove. rewrite Hl. cbn [py_bind].
  unfold MaskList.delitem, MaskList.contains.
  destruct (CaseInsensibleDict.contains (MaskList.masks l) mask) eqn:Hc.
  - split; [discriminate|].
    rewrite delitem_present by exact Hc. cbn [py_bind try_except].
    eexists. split; [now apply getitem_setitem|]. split.
    + intros m E. cbn [MaskList.masks]. apply contains_false. rewrite E.
      apply lookup_delete_eq.
    + intros m Hne. unfold MaskList.getitem, CaseInsensibleDict.getitem.
      cbn [MaskList.masks]. rewrite lookup_delete_ne by congruence. reflexivity.
  - rewrite delitem_absent by exact Hc. cbn [py_bind try_except].
    split; [reflexivity|]. exists l. split; [exact Hl|]. split.
    + intros m E. now rewrite (contains_fold _ m mask E).
    + reflexivity.
Qed.

(** X12: [remove] takes a mask, or a whole list, out of the cache under any
    spelling of the server, the channel and the mask, leaves every other
    list and every other mask as they were, and changes nothing (and does
    not raise) when the list or the mask is not there. *)
Theorem remove_forgets (c : MaskCache.cache) (server channel : string) :
  (forall key', fold_key key' = fold_key (server, channel) ->
     CaseInsensibleDict.contains (MaskCache.remove c server channel None) key' = false) /\
  (forall key' mask, fold_key key' <> fold_key (server, channel) ->
     CaseInsensibleDict.getitem (MaskCache.remove c server channel mask) key'
     = CaseInsensibleDict.getitem c key') /\
  (CaseInsensibleDict.contains c (server, channel) = false ->
   forall mask, MaskCache.remove c server channel mask = c) /\
  (forall l mask,
     CaseInsensibleDict.getitem c (server, channel) = Ret l ->
     (MaskList.contains l mask = false ->
      MaskCache.remove c server channel (Some mask) = c) /\
     exists l',
       CaseInsensibleDict.getitem (MaskCache.remove c server channel (Some mask))
                                  (server, channel) = Ret l' /\
       (forall m, fold_key m = fold_key mask -> MaskList.contains l' m = false) /\
       (forall m, fold_key m <> fold_key mask ->
                  MaskList.getitem l' m = MaskList.getitem l m)).
Proof.
  split; [|split; [|split]].
  - intros key' E. now apply MaskCache_remove_list.
  - intros key' mask Hne. now apply MaskCache_remove_other.
  - intros Hc mask. now apply MaskCache_remove_absent.
  - intros l mask Hl. now apply MaskCache_remove_mask.
Qed.

Lemma truthy_PStr (s : string) : s <> EmptyString -> truthy (PStr s) = true.
Proof. intros Hs. cbn. destruct s; [now destruct Hs|reflexivity]. Qed.

Lemma MaskCache_add_list (now : Z) (c : MaskCache.cache) (server channel mask : string)
  (d : mask_fields) :
  exists l0,
    CaseInsensibleDict.getitem
      (if CaseInsensibleDict.contains c (server, channel) then c
       else MaskCache.initList c server channel) (server, channel) = Ret l0 /\
    (CaseInsensibleDict.contains c (server, channel) = true ->
     CaseInsensibleDict.getitem c (server, channel) = Ret l0) /\
    (CaseInsensibleDict.contains c (server, channel) = false -> l0 = MaskList.init).
Proof.
  destruct (CaseInsensibleDict.contains c (server, channel)) eqn:Hc.
  - pose proof Hc as Hc'. apply contains_true in Hc'. destruct Hc' as [[k0 l0] Hl].
    exists l0. unfold CaseInsensibleDict.getitem. rewrite Hl. now repeat split.
  - exists MaskList.init. split; [now apply getitem_setitem|]. now split.
Qed.

(** X13: The date of a listed mask. A mask that is new to the list gets the
    date as a number: the text of the date is read as an integer, and when
    it cannot be read the entry is not stored and [ValueError] is raised,
    though the list of the channel, if it was missing, has been created by
    then. A mask that the list has already is updated without reading the
    date: its date becomes the text as it was received. *)
Theorem listed_mask_date (now : Z) (c : MaskCache.cache)
  (server channel mask op stamp : string) :
  stamp <> EmptyString ->
  let d := MaskFields None (Some (PStr op)) (Some (PStr stamp)) None in
  let r := MaskCache.add now c server channel mask d in
  let absent :=
    forall l0, CaseInsensibleDict.getitem c (server, channel) = Ret l0 ->
               MaskList.contains l0 mask = false in
  (forall n, absent -> PyInt.parse 10 stamp = Ret n ->
     snd r = Ret tt /\
     exists l ban,
       CaseInsensibleDict.getitem (fst r) (server, channel) = Ret l /\
       MaskList.getitem l mask = Ret ban /\
       date ban = PInt n /\ operator ban = PStr op) /\
  (forall e, absent -> PyInt.parse 10 stamp = Raise e ->
     snd r = Raise e /\
     exists l,
       CaseInsensibleDict.getitem (fst r) (server, channel) = Ret l /\
       MaskList.contains l mask = false) /\
  (forall l0 old,
     CaseInsensibleDict.getitem c (server, channel) = Ret l0 ->
     MaskList.getitem l0 mask = Ret old ->
     snd r = Ret tt /\
     exists l ban,
       CaseInsensibleDict.getitem (fst r) (server, channel) = Ret l /\
       MaskList.getitem l mask = Ret ban /\
       date ban = PStr stamp).
Proof.
  intros Hstamp d r absent. subst r absent. unfold MaskCache.add.
  destruct (MaskCache_add_list now c server channel mask d) as (l0 & Hl0 & Hpres & Hnew).
  rewrite Hl0.
  assert (Habs : (forall l1, CaseInsensibleDict.getitem c (server, channel) = Ret l1 ->
                             MaskList.contains l1 mask = false) ->
                 MaskList.contains l0 mask = false).
  { intros Ha. destruct (CaseInsensibleDict.contains c (server, channel)) eqn:Hc.
    - apply Ha. now apply Hpres.
    - rewrite Hnew by reflexivity. reflexivity. }
  split; [|split].
  - intros n Ha Hn. specialize (Habs Ha).
    unfold MaskList.setitem. unfold MaskList.contains in Habs. rewrite Habs.
    unfold MaskObject_init. cbn [kw_date kw_default d].
    rewrite truthy_PStr by exact Hstamp. cbn [py_int]. rewrite Hn. cbn [py_bind fst snd].
    split; [reflexivity|]. eexists _, _. split; [now apply getitem_setitem|].
    split; [unfold MaskList.getitem; cbn [MaskList.masks]; now apply getitem_setitem|].
    now split.
  - intros e Ha He. specialize (Habs Ha).
    unfold MaskList.setitem. pose proof Habs as Habs'.
    unfold MaskList.contains in Habs. rewrite Habs.
    unfold MaskObject_init. cbn [kw_date kw_default d].
    rewrite truthy_PStr by exact Hstamp. cbn [py_int]. rewrite He. cbn [py_bind fst snd].
    split; [reflexivity|]. exists l0. now split.
  - intros l1 old Hl1 Hold.
    assert (Hc : CaseInsensibleDict.contains c (server, channel) = true).
    { apply contains_true. unfold CaseInsensibleDict.getitem in Hl1.
      destruct (c !! fold_key (server, channel)) as [[k0 v]|]; [eauto|discriminate]. }
    specialize (Hpres Hc). rewrite Hl1 in Hpres. injection Hpres as <-.
    rewrite (MaskList_setitem_existing now l1 mask d old Hold). cbn [fst snd].
    split; [reflexivity|]. eexists _, _. split; [now apply getitem_setitem|].
    split; [unfold MaskList.getitem; cbn [MaskList.masks]; now apply getitem_setitem|].
    cbn [date MaskObject_update merge_field kw_date d].
    now rewrite truthy_PStr by exact Hstamp.
Qed.

Lemma listed_mask_date_witness :
  exists l ban,
    CaseInsensibleDict.getitem
      (fst (MaskCache.add 1000 ∅ "freenode" "#chan" "*!*@one.example"
              (MaskFields None (Some (PStr "op!o@example.net"))
                          (Some (PStr "1271814548")) None)))
      ("freenode", "#chan")%string = Ret l /\
    MaskList.getitem l "*!*@one.example" = Ret ban /\
    date ban = PInt 1271814548.
Proof.
  destruct (listed_mask_date 1000 ∅ "freenode" "#chan" "*!*@one.example"
              "op!o@example.net" "1271814548") as (H & _).
  - discriminate.
  - destruct (H 1271814548) as (_ & l & ban & Hl & Hb & Hd & _).
    + intros l0 Hl0. vm_compute in Hl0. discriminate.
    + vm_compute. reflexivity.
    + exists l, ban. auto.
Defined.

(** ** Modes that are fetched *)

Lemma prefix_of_single (p : string) (c : ascii) :
  prefix p (String c EmptyString) = true ->
  p = EmptyString \/ p = String c EmptyString.
Proof.
  destruct p as [|a p]; [now left|]. cbn [prefix].
  intros Hp. apply andb_prop in Hp. destruct Hp as [Ha Hp].
  apply Ascii.eqb_eq in Ha. subst a.
  destruct p; [now right|discriminate].
Qed.

Lemma contains_in_single (p : string) (c : ascii) :
  contains p (String c EmptyString) = true ->
  p = EmptyString \/ p = String c EmptyString.
Proof.
  cbn [contains]. intros Hp. apply orb_prop in Hp. destruct Hp as [Hp|Hp].
  - now apply prefix_of_single.
  - apply orb_prop in Hp. destruct Hp as [Hp|Hp]; [|discriminate].
    destruct p; [now left|discriminate].
Qed.

(** X14: Without the modes of a server only bans are fetched: when the server
    has announced no [CHANMODES] (or an empty first group) and, the server
    being unknown, no option [chanmodes.<server>] is set, the modes taken
    to use masks are just [b], so a fetch of the quiet list does nothing. *)
Theorem quiets_need_chanmodes (host : Host) (now : Z) (st : MaskCache.state)
  (server channel : string) :
  match MaskCache.isupport st !! server with
  | Some (Some (first :: _)) => first = EmptyString
  | Some _ => True
  | None => config_get_plugin (MaskCache.config st) ("chanmodes." +:+ server) = EmptyString
  end ->
  MaskCache.supported_modes st server "b" = true /\
  MaskCache.supported_modes st server "q" = false /\
  (forall mode, mode <> EmptyString ->
                MaskCache.supported_modes st server mode = true -> mode = "b"%string) /\
  MaskCache.fetch host now MaskCache.Mutes st server channel = st.
Proof.
  intros Hdef.
  assert (Hm : forall mode, MaskCache.supported_modes st server mode = contains mode "b").
  { intros mode. unfold MaskCache.supported_modes.
    destruct (MaskCache.isupport st !! server) as [[[|first l]|]|].
    - reflexivity.
    - now rewrite Hdef.
    - reflexivity.
    - now rewrite Hdef. }
  split; [now rewrite Hm|]. split; [now rewrite Hm|]. split.
  - intros mode Hne Hs. rewrite Hm in Hs.
    destruct (contains_in_single mode "b" Hs); [contradiction|assumption].
  - unfold MaskCache.fetch. rewrite Hm. reflexivity.
Qed.

Lemma quiets_need_chanmodes_witness :
  MaskCache.fetch example_host 1000 MaskCache.Mutes masks_init "freenode" "#chan"
  = masks_init.
Proof.
  apply (quiets_need_chanmodes example_host 1000 masks_init "freenode" "#chan").
  reflexivity.
Defined.

(** ** The cache of users *)

Lemma fill_spec (nicks : list (string * string)) (l : UserList.t) :
  exists l',
    UserCache.fill l nicks = Ret l' /\
    (forall k : string,
        ~ In k (List.map (fun e => fold_key (fst e)) nicks) ->
        UserList.users l' !! k = UserList.users l !! k) /\
    (NoDup (List.map (fun e => fold_key (fst e)) nicks) ->
     forall name h, In (name, h) nicks ->
                    UserList.getitem l' name = Ret (name +:+ "!" +:+ h)).
Proof.
  revert l. induction nicks as [|[n0 h0] rest IH]; intros l.
  - exists l. split; [reflexivity|]. split; [reflexivity|]. intros _ name h [].
  - cbn [UserCache.fill]. rewrite UserList_setitem_returns. cbn [py_bind].
    set (l1 := UserList.mk _ _).
    destruct (IH l1) as (l' & Hfill & Hout & Hin).
    exists l'. split; [exact Hfill|]. split.
    + intros k Hk. cbn [List.map In fst] in Hk.
      rewrite Hout by tauto. unfold l1. cbn [UserList.users].
      unfold CaseInsensibleDict.setitem. apply lookup_insert_ne. tauto.
    + intros Hnd name h Hi. cbn [List.map fst] in Hnd.
      apply NoDup_cons in Hnd. destruct Hnd as [Hnot Hnd].
      destruct Hi as [Hi|Hi].
      * injection Hi as -> ->.
        unfold UserList.getitem, CaseInsensibleDict.getitem.
        rewrite Hout by (now rewrite <- list_elem_of_In).
        unfold l1. cbn [UserList.users]. unfold CaseInsensibleDict.setitem.
        rewrite lookup_insert_eq. reflexivity.
      * now apply Hin.
Qed.

Lemma get_cached (host : Host) (c : UserCache.cache) (server channel : string)
  (users : UserList.t) :
  CaseInsensibleDict.getitem c (server, channel) = Ret users ->
  UserCache.get host c server channel = Ret (c, users).
Proof. intros Hg. unfold UserCache.get. now rewrite Hg. Qed.

Lemma get_fills (host : Host) (c : UserCache.cache) (server channel : string)
  (nicks : list (string * string)) :
  CaseInsensibleDict.contains c (server, channel) = false ->
  infolist_irc_nick host server channel = Some nicks ->
  exists users,
    UserCache.get host c server channel
    = Ret (CaseInsensibleDict.setitem c (server, channel) users, users) /\
    (NoDup (List.map (fun e => fold_key (fst e)) nicks) ->
     forall name h, In (name, h) nicks ->
                    UserList.getitem users name = Ret (name +:+ "!" +:+ h)).
Proof.
  intros Hc Hn. unfold UserCache.get, CaseInsensibleDict.getitem.
  apply contains_false in Hc. rewrite Hc. unfold UserCache.generate_cache. rewrite Hn.
  destruct (fill_spec nicks UserList.init) as (users & Hfill & _ & Hin).
  exists users. rewrite Hfill. cbn [py_bind]. now split.
Qed.

(** X15: The users of a channel are asked of the host once. What [get] finds in
    the cache, under any spelling of the server and the channel, it returns
    without asking; a list it gets from the host is stored and is what the
    next call returns; when the host has no list (the channel is not
    joined) it returns an empty list and stores nothing, so the next call
    asks again. *)
Theorem user_lists_are_cached (host : Host) (c : UserCache.cache)
  (server channel : string) :
  (forall users,
      CaseInsensibleDict.getitem c (server, channel) = Ret users ->
      forall (host' : Host) (server' channel' : string),
        fold_key (server', channel') = fold_key (server, channel) ->
        UserCache.get host' c server' channel' = Ret (c, users)) /\
  (CaseInsensibleDict.contains c (server, channel) = false ->
   (infolist_irc_nick host server channel = None ->
    UserCache.get host c server channel = Ret (c, UserList.init)) /\
   (forall nicks,
       infolist_irc_nick host server channel = Some nicks ->
       exists c' users,
         UserCache.get host c server channel = Ret (c', users) /\
         (forall (host' : Host) (server' channel' : string),
             fold_key (server', channel') = fold_key (server, channel) ->
             UserCache.get host' c' server' channel' = Ret (c', users)) /\
         (forall key, fold_key key <> fold_key (server, channel) ->
                      CaseInsensibleDict.getitem c' key = CaseInsensibleDict.getitem c key))).
Proof.
  split.
  - intros users Hg host' server' channel' E. apply get_cached.
    now rewrite (getitem_fold c (server', channel') (server, channel) E).
  - intros Hc. split.
    + intros Hn. unfold UserCache.get, CaseInsensibleDict.getitem.
      apply contains_false in Hc. rewrite Hc. unfold UserCache.generate_cache.
      now rewrite Hn.
    + intros nicks Hn. destruct (get_fills host c server channel nicks Hc Hn)
        as (users & Hget & _).
      eexists _, users. split; [exact Hget|]. split.
      * intros host' server' channel' E. apply get_cached.
        apply getitem_setitem. now symmetry.
      * intros key Hne. apply getitem_setitem_other. congruence.
Qed.

(** X16: The hostmask of a nick of a channel: when the channel is not cached and
    the host lists its nicks, no two of them the same but for case,
    [hostFromNick] gives [nick!user@host] for a listed nick, asked for in
    any spelling, with the nick as the host spells it; the list is cached
    on the way and answers the same question again without the host. *)
Theorem hostFromNick_of_listed_nick (host : Host) (c : UserCache.cache)
  (server channel : string) (nicks : list (string * string)) (name h nick : string) :
  channel <> EmptyString ->
  CaseInsensibleDict.contains c (server, channel) = false ->
  infolist_irc_nick host server channel = Some nicks ->
  NoDup (List.map (fun e => fold_key (fst e)) nicks) ->
  In (name, h) nicks ->
  fold_key nick = fold_key name ->
  exists c',
    UserCache.hostFromNick host c nick server channel
    = Ret (c', Some (name +:+ "!" +:+ h)) /\
    forall host' : Host,
      UserCache.hostFromNick host' c' nick server channel
      = Ret (c', Some (name +:+ "!" +:+ h)).
Proof.
  intros Hch Hc Hn Hnd Hin E.
  destruct (get_fills host c server channel nicks Hc Hn) as (users & Hget & Hlook).
  specialize (Hlook Hnd name h Hin).
  assert (Hnick : UserList.getitem users nick = Ret (name +:+ "!" +:+ h)).
  { unfold UserList.getitem in *.
    now rewrite (getitem_fold (UserList.users users) nick name E). }
  assert (Hcont : UserList.contains users nick = true).
  { unfold UserList.contains. apply contains_true.
    unfold UserList.getitem, CaseInsensibleDict.getitem in Hnick.
    destruct (UserList.users users !! fold_key nick); [eauto|discriminate]. }
  assert (Hne : String.eqb channel EmptyString = false).
  { apply String.eqb_neq. exact Hch. }
  exists (CaseInsensibleDict.setitem c (server, channel) users). split.
  - unfold UserCache.hostFromNick. rewrite Hne, Hget. cbn [py_bind fst snd].
    rewrite Hcont, Hnick. reflexivity.
  - intros host'. unfold UserCache.hostFromNick. rewrite Hne.
    rewrite (get_cached host' _ server channel users) by now apply getitem_setitem.
    cbn [py_bind fst snd]. rewrite Hcont, Hnick. reflexivity.
Qed.

Lemma hostFromNick_of_listed_nick_witness :
  exists c',
    UserCache.hostFromNick example_host_in_channel ∅ "ALICE" "freenode" "#chan"
    = Ret (c', Some "Alice!~alice@host.example"%string).
Proof.
  destruct (hostFromNick_of_listed_nick example_host_in_channel ∅ "freenode" "#chan"
              [("Alice", "~alice@host.example"); ("bob", "bob@10.0.0.1")]%string
              "Alice" "~alice@host.example" "ALICE") as (c' & H & _).
  - discriminate.
  - reflexivity.
  - reflexivity.
  - repeat constructor; rewrite list_elem_of_In; cbn; intuition discriminate.
  - now left.
  - reflexivity.
  - exists c'. exact H.
Defined.

(** ** Elapsed time in words *)

Lemma time_elapsed_loop_S (fuel : nat) (elapsed : Z) (ret : list string) (level : Z) :
  time_elapsed_loop (S fuel) elapsed ret level
  = if elapsed =? 0 then Some EmptyString
    else
      let '(part, elapsed) :=
        if 31536000 <? elapsed then
          (of_Z (elapsed / 31536000) +:+ "y", elapsed mod 31536000)
        else if 86400 <? elapsed then
          (of_Z (elapsed / 86400) +:+ "d", elapsed mod 86400)
        else if 3600 <? elapsed then
          (of_Z (elapsed / 3600) +:+ "h", elapsed mod 3600)
        else if 60 <? elapsed then
          (of_Z (elapsed / 60) +:+ "m", elapsed mod 60)
        else (of_Z elapsed +:+ "s", 0) in
      let ret := ret ++ [part] in
      if (level <=? Z.of_nat (List.length ret)) || (elapsed =? 0)
      then Some (join " " ret)
      else time_elapsed_loop fuel elapsed ret level.
Proof. reflexivity. Qed.

Ltac time_unit :=
  rewrite time_elapsed_loop_S;
  repeat match goal with
         | |- context [if ?a <? ?b then _ else _] => destruct (Z.ltb_spec a b); try lia
         | |- context [if ?a =? ?b then _ else _] => destruct (Z.eqb_spec a b); try lia
         end;
  cbv zeta; rewrite List.length_app; cbn [List.length];
  rewrite (Nat2Z.inj_add _ 1); change (Z.of_nat 1) with 1.

Lemma time_elapsed_seconds (fuel : nat) (e level : Z) (ret : list string) :
  e <> 0 -> e <= 60 ->
  time_elapsed_loop (S fuel) e ret level = Some (join " " (ret ++ [of_Z e +:+ "s"])).
Proof.
  intros Hne Hle. time_unit. now rewrite orb_true_r.
Qed.

Lemma time_elapsed_minutes (fuel : nat) (e level : Z) (ret : list string) :
  60 < e <= 3600 ->
  time_elapsed_loop (S (S fuel)) e ret level
  = Some (join " " (if (level <=? Z.of_nat (List.length ret) + 1) || (e mod 60 =? 0)
                    then ret ++ [of_Z (e / 60) +:+ "m"]
                    else ret ++ [of_Z (e / 60) +:+ "m"; of_Z (e mod 60) +:+ "s"])).
Proof.
  intros He. pose proof (Z.mod_pos_bound e 60 ltac:(lia)) as Hm.
  time_unit.
  destruct ((level <=? Z.of_nat (List.length ret) + 1) || (e mod 60 =? 0)) eqn:Hstop.
  - reflexivity.
  - apply orb_false_elim in Hstop. destruct Hstop as [_ Hr]. apply Z.eqb_neq in Hr.
    rewrite time_elapsed_seconds by lia.
    now rewrite <- List.app_assoc.
Qed.

Lemma time_elapsed_hours (fuel : nat) (e level : Z) (ret : list string) :
  3600 < e <= 86400 ->
  let r := e mod 3600 in
  let n := Z.of_nat (List.length ret) in
  time_elapsed_loop (S (S (S fuel))) e ret level
  = Some (join " "
       (ret ++ (of_Z (e / 3600) +:+ "h")
            :: (if (level <=? n + 1) || (r =? 0) then []
                else if r <=? 60 then [of_Z r +:+ "s"]
                else if (level <=? n + 2) || (r mod 60 =? 0) then [of_Z (r / 60) +:+ "m"]
                else [of_Z (r / 60) +:+ "m"; of_Z (r mod 60) +:+ "s"]))).
Proof.
  intros He r n. subst n. pose proof (Z.mod_pos_bound e 3600 ltac:(lia)) as Hm.
  fold r in Hm. time_unit. fold r.
  destruct ((level <=? Z.of_nat (List.length ret) + 1) || (r =? 0)) eqn:Hstop;
    [reflexivity|].
  apply orb_false_elim in Hstop. destruct Hstop as [_ Hr]. apply Z.eqb_neq in Hr.
  destruct (Z.leb_spec r 60) as [Hs|Hs].
  - rewrite time_elapsed_seconds by lia. now rewrite <- List.app_assoc.
  - rewrite time_elapsed_minutes by lia.
    rewrite List.length_app. cbn [List.length].
    rewrite (Nat2Z.inj_add _ 1). change (Z.of_nat 1) with 1.
    replace (Z.of_nat (List.length ret) + 1 + 1) with (Z.of_nat (List.length ret) + 2)
      by lia.
    destruct ((level <=? Z.of_nat (List.length ret) + 2) || (r mod 60 =? 0));
      now rewrite <- List.app_assoc.
Qed.

Lemma time_elapsed_returns_60 (fuel : nat) (e level : Z) (ret : list string) :
  e <= 60 -> exists s, time_elapsed_loop (S fuel) e ret level = Some s.
Proof.
  intros He. destruct (Z.eq_dec e 0) as [->|Hne]; [now eexists|].
  rewrite time_elapsed_seconds by assumption. now eexists.
Qed.

Lemma time_elapsed_returns_hour (fuel : nat) (e level : Z) (ret : list string) :
  e <= 3600 -> exists s, time_elapsed_loop (S (S fuel)) e ret level = Some s.
Proof.
  intros He. destruct (Z.le_gt_cases e 60) as [Hs|Hs].
  - now apply time_elapsed_returns_60.
  - rewrite time_elapsed_minutes by lia. now eexists.
Qed.

Lemma time_elapsed_returns_day (fuel : nat) (e level : Z) (ret : list string) :
  e <= 86400 -> exists s, time_elapsed_loop (S (S (S fuel))) e ret level = Some s.
Proof.
  intros He. destruct (Z.le_gt_cases e 3600) as [Hs|Hs].
  - now apply time_elapsed_returns_hour.
  - rewrite time_elapsed_hours by lia. now eexists.
Qed.

Lemma time_elapsed_returns_year (fuel : nat) (e level : Z) (ret : list string) :
  e <= 31536000 ->
  exists s, time_elapsed_loop (S (S (S (S fuel)))) e ret level = Some s.
Proof.
  intros He. destruct (Z.le_gt_cases e 86400) as [Hs|Hs].
  - now apply time_elapsed_returns_day.
  - pose proof (Z.mod_pos_bound e 86400 ltac:(lia)) as Hm.
    time_unit. destruct (_ || _); [now eexists|].
    apply time_elapsed_returns_day. lia.
Qed.

Lemma time_elapsed_returns (e level : Z) : exists s, time_elapsed e level = Some s.
Proof.
  unfold time_elapsed. destruct (Z.le_gt_cases e 31536000) as [Hs|Hs].
  - now apply time_elapsed_returns_year.
  - pose proof (Z.mod_pos_bound e 31536000 ltac:(lia)) as Hm.
    time_unit. destruct (_ || _); [now eexists|].
    apply time_elapsed_returns_year. lia.
Qed.

(** X17: [time_elapsed] always returns, after five calls at most. It writes
    nothing for 0. Anything else up to 60, a full minute and negative
    numbers included, is written in seconds; beyond a minute and up to a
    full hour it is written in minutes, and in seconds too when some are
    left and [level] allows two parts; beyond an hour and up to a full day
    it is written in hours, followed by what is left in seconds if that is
    at most 60 and else in minutes, and then in seconds when [level] allows
    three parts. *)
Theorem time_elapsed_in_words (e level : Z) :
  (exists s, time_elapsed e level = Some s) /\
  time_elapsed 0 level = Some EmptyString /\
  (e <> 0 -> e <= 60 -> time_elapsed e level = Some (of_Z e +:+ "s")) /\
  (60 < e <= 3600 ->
   time_elapsed e level
   = Some (join " " (if (level <=? 1) || (e mod 60 =? 0)
                     then [of_Z (e / 60) +:+ "m"]
                     else [of_Z (e / 60) +:+ "m"; of_Z (e mod 60) +:+ "s"]))) /\
  (3600 < e <= 86400 ->
   let r := e mod 3600 in
   time_elapsed e level
   = Some (join " "
        ((of_Z (e / 3600) +:+ "h")
           :: (if (level <=? 1) || (r =? 0) then []
               else if r <=? 60 then [of_Z r +:+ "s"]
               else if (level <=? 2) || (r mod 60 =? 0) then [of_Z (r / 60) +:+ "m"]
               else [of_Z (r / 60) +:+ "m"; of_Z (r mod 60) +:+ "s"])))).
Proof.
  split; [apply time_elapsed_returns|]. split; [reflexivity|]. split; [|split].
  - intros Hne He. unfold time_elapsed. now rewrite time_elapsed_seconds.
  - intros He. unfold time_elapsed. now rewrite time_elapsed_minutes.
  - intros He r. unfold time_elapsed. now rewrite time_elapsed_hours.
Qed.

(** ** Signals that keep the user cache *)

Lemma append_nil_r (s : string) : s +:+ EmptyString = s.
Proof.
  induction s as [|x s IH]; [reflexivity|].
  change (String x s +:+ "") with (String x (s +:+ "")). now rewrite IH.
Qed.

Lemma rev_string_app (acc s : string) :
  rev_string acc s = rev_string EmptyString s +:+ acc.
Proof.
  revert acc. induction s as [|c s IH]; intros acc; [reflexivity|].
  cbn [rev_string]. rewrite (IH (String c acc)), (IH (String c EmptyString)).
  now rewrite append_assoc.
Qed.

Lemma rev_string_rev (cur s : string) :
  rev_string EmptyString (rev_string cur s) = rev_string EmptyString cur +:+ s.
Proof.
  revert cur. induction s as [|c s IH]; intros cur.
  - cbn [rev_string]. now rewrite append_nil_r.
  - cbn [rev_string]. rewrite IH. cbn [rev_string].
    rewrite (rev_string_app (String c EmptyString) cur). now rewrite append_assoc.
Qed.

Lemma flush_token (t : string) (out : list string) :
  t <> EmptyString -> flush (rev_string EmptyString t) out = t :: out.
Proof.
  intros Ht. unfold flush.
  pose proof (rev_string_rev EmptyString t) as Hr. cbn [rev_string] in Hr.
  change (EmptyString +:+ t) with t in Hr.
  destruct (rev_string EmptyString t) eqn:E.
  - cbn [rev_string] in Hr. congruence.
  - now rewrite Hr.
Qed.

Lemma split_ws_aux_token (t s cur : string) :
  no_space t = true -> split_ws_aux (t +:+ s) cur = split_ws_aux s (rev_string cur t).
Proof.
  revert cur. induction t as [|c t IH]; intros cur Ht; [reflexivity|].
  change (String c t +:+ s) with (String c (t +:+ s)).
  unfold no_space in Ht. cbn [all_chars] in Ht. apply andb_prop in Ht as [Hc Ht].
  cbn [split_ws_aux rev_string]. apply negb_true_iff in Hc. rewrite Hc.
  now apply IH.
Qed.

Lemma split_ws_token (t s : string) :
  t <> EmptyString -> no_space t = true ->
  split_ws (t +:+ String " " s) = t :: split_ws s.
Proof.
  intros Hne Ht. unfold split_ws. rewrite split_ws_aux_token by exact Ht.
  cbn [split_ws_aux]. change (is_space " ") with true. cbv iota.
  now apply flush_token.
Qed.

Lemma split_ws_last (t : string) :
  t <> EmptyString -> no_space t = true -> split_ws t = [t].
Proof.
  intros Hne Ht. unfold split_ws. rewrite <- (append_nil_r t) at 1.
  rewrite split_ws_aux_token by exact Ht. cbn [split_ws_aux].
  now apply flush_token.
Qed.

Lemma no_space_occurs (t : string) : no_space t = true -> ~ occurs " " t.
Proof.
  intros Ht Ho. pose proof (all_chars_occurs _ _ _ Ht Ho) as H. discriminate.
Qed.

Lemma nonempty_cons_app (c : ascii) (s : string) : String c s <> EmptyString.
Proof. discriminate. Qed.

Lemma append_nonempty (a b : string) : a <> EmptyString -> a +:+ b <> EmptyString.
Proof. destruct a; [contradiction|discriminate]. Qed.

(** [server,<name of the signal>] names the server. *)
Lemma signal_server (server tail : string) :
  ~ occurs "," server ->
  slice_to (server +:+ "," +:+ tail) (find "," (server +:+ "," +:+ tail)) = server.
Proof.
  intros Hs. change ("," +:+ tail) with (String "," tail).
  rewrite find_append by exact Hs. apply slice_to_prefix.
Qed.

Lemma lstrip_colon (channel word : string) :
  first_char channel <> Some ":"%char ->
  word = channel \/ word = ":" +:+ channel ->
  lstrip_char ":" word = channel.
Proof.
  intros Hc Hw.
  assert (H0 : lstrip_char ":" channel = channel).
  { destruct channel as [|x channel]; [reflexivity|]. cbn [lstrip_char].
    destruct (Ascii.eqb_spec x ":") as [->|_]; [now destruct Hc|reflexivity]. }
  destruct Hw as [->| ->]; [exact H0|].
  change (":" +:+ channel) with (String ":" channel). cbn [lstrip_char].
  now rewrite Ascii.eqb_refl.
Qed.

Lemma get_nick_of_prefix (nick r : string) :
  nick <> EmptyString -> ~ occurs "!" nick ->
  get_nick (String ":" (nick +:+ String "!" r)) = Ret nick.
Proof.
  intros Hne Hbang. unfold get_nick.
  assert (F : find "!" (String ":" (nick +:+ String "!" r)) = 1 + len nick).
  { unfold find. cbn [find_from]. change (Ascii.eqb ":" "!") with false. cbv iota.
    change (0 + 1) with 1. now rewrite find_from_append. }
  rewrite F. pose proof (len_nonneg nick).
  replace (1 + len nick <? 1) with false by (symmetry; apply Z.ltb_ge; lia).
  change (getitem (String ":" (nick +:+ String "!" r)) 0) with (Ret (A := ascii) ":"%char).
  cbn [py_bind]. rewrite Ascii.eqb_refl.
  pose proof (slice_middle ":" nick (String "!" r)) as Hm.
  change (len ":") with 1 in Hm. f_equal. exact Hm.
Qed.

(** The shape of the data of a signal: [:nick!user@host COMMAND word] and
    possibly more after a space. *)
Section SignalData.
Variables (nick uh cmd word rest : string).
Hypothesis Hnick : nick <> EmptyString.
Hypothesis Hbang : ~ occurs "!" nick.
Hypothesis Hnsp : no_space nick = true.
Hypothesis Husp : no_space uh = true.
Hypothesis Hcmd : cmd <> EmptyString.
Hypothesis Hcsp : no_space cmd = true.
Hypothesis Hword : word <> EmptyString.
Hypothesis Hwsp : no_space word = true.
Hypothesis Hrest : rest = EmptyString \/ exists r, rest = String " " r.

Let hostmask : string := nick +:+ "!" +:+ uh.
Let signal_data : string := ":" +:+ hostmask +:+ " " +:+ cmd +:+ " " +:+ word +:+ rest.

Lemma no_space_hostmask : no_space (String ":" hostmask) = true.
Proof.
  unfold no_space, hostmask. cbn [all_chars]. rewrite all_chars_append.
  fold (no_space nick). rewrite Hnsp.
  change ("!" +:+ uh) with (String "!" uh). cbn [all_chars]. fold (no_space uh).
  now rewrite Husp.
Qed.

Lemma signal_data_words :
  list_getitem (split_ws signal_data) 2 = Ret word.
Proof.
  unfold signal_data.
  change (":" +:+ hostmask +:+ " " +:+ cmd +:+ " " +:+ word +:+ rest)
    with (String ":" (hostmask +:+ String " " (cmd +:+ String " " (word +:+ rest)))).
  change (String ":" (hostmask +:+ String " " (cmd +:+ String " " (word +:+ rest))))
    with (String ":" hostmask +:+ String " " (cmd +:+ String " " (word +:+ rest))).
  rewrite split_ws_token by (discriminate || apply no_space_hostmask).
  rewrite split_ws_token by assumption.
  destruct Hrest as [->|[r ->]].
  - rewrite append_nil_r, split_ws_last by assumption. reflexivity.
  - rewrite split_ws_token by assumption. reflexivity.
Qed.

Lemma signal_data_nick : get_nick signal_data = Ret nick.
Proof.
  unfold signal_data, hostmask.
  replace (":" +:+ (nick +:+ "!" +:+ uh) +:+ " " +:+ cmd +:+ " " +:+ word +:+ rest)
    with (String ":" (nick +:+ String "!" (uh +:+ " " +:+ cmd +:+ " " +:+ word +:+ rest))).
  - now apply get_nick_of_prefix.
  - change (":" +:+ (nick +:+ "!" +:+ uh) +:+ " " +:+ cmd +:+ " " +:+ word +:+ rest)
      with (String ":" ((nick +:+ "!" +:+ uh) +:+ " " +:+ cmd +:+ " " +:+ word +:+ rest)).
    f_equal. rewrite !append_assoc. reflexivity.
Qed.

Lemma signal_data_hostname :
  slice signal_data 1 (find " " signal_data) = hostmask.
Proof.
  assert (F : find " " signal_data = 1 + len hostmask).
  { unfold signal_data.
    change (":" +:+ hostmask +:+ " " +:+ cmd +:+ " " +:+ word +:+ rest)
      with (String ":" hostmask +:+ String " " (cmd +:+ " " +:+ word +:+ rest)).
    rewrite find_append by (apply no_space_occurs, no_space_hostmask).
    now rewrite len_cons. }
  rewrite F. pose proof (slice_middle ":" hostmask
                           (" " +:+ cmd +:+ " " +:+ word +:+ rest)) as Hm.
  change (len ":") with 1 in Hm. exact Hm.
Qed.

End SignalData.

Lemma UserList_setitem_lookup (l : UserList.t) (nick hostname : string) :
  exists l',
    UserList.setitem l nick hostname = Ret l' /\
    UserList.getitem l' nick = Ret hostname /\
    pending_since l' nick = None /\
    forall k, fold_key k <> fold_key nick ->
              UserList.getitem l' k = UserList.getitem l k /\
              pending_since l' k = pending_since l k.
Proof.
  eexists. split; [apply UserList_setitem_returns|]. split; [|split].
  - unfold UserList.getitem. cbn [UserList.users]. now apply getitem_setitem.
  - unfold pending_since. cbn [UserList._temp_users]. now rewrite lookup_delete_eq.
  - intros k Hk. split.
    + unfold UserList.getitem. cbn [UserList.users].
      apply getitem_setitem_other. congruence.
    + unfold pending_since. cbn [UserList._temp_users].
      rewrite lookup_delete_ne by congruence. reflexivity.
Qed.

(** X19: What a JOIN and a PART do to the cache of users. From the data of the
    signal, [:nick!user@host COMMAND channel] with the channel possibly led
    by a colon and possibly followed by more, the decorator reads the
    server, the channel and the nick. For a channel that is cached, the
    PART marks the nick with the time, and the JOIN of somebody else stores
    [nick!user@host] under the nick and takes the mark away, leaving the
    other nicks as they were. For a channel that is not cached neither
    does anything, and our own JOIN to a channel that is not tracked does
    nothing either. *)
Theorem join_and_part_keep_users (host : Host) (own_nick : string -> string)
  (chanop_channels : list (string * string)) (users : UserCache.cache) (now : Z)
  (server tail nick uh cmd channel word rest : string) :
  ~ occurs "," server ->
  nick <> EmptyString -> ~ occurs "!" nick -> no_space nick = true ->
  no_space uh = true ->
  cmd <> EmptyString -> no_space cmd = true ->
  channel <> EmptyString -> no_space channel = true ->
  first_char channel <> Some ":"%char ->
  word = channel \/ word = ":" +:+ channel ->
  rest = EmptyString \/ (exists r, rest = String " " r) ->
  let signal := server +:+ "," +:+ tail in
  let hostmask := nick +:+ "!" +:+ uh in
  let signal_data := ":" +:+ hostmask +:+ " " +:+ cmd +:+ " " +:+ word +:+ rest in
  let key := (server, channel) in
  signal_parse signal signal_data = Ret (server, channel, nick) /\
  (CaseInsensibleDict.contains users key = false ->
   part_cb now users signal signal_data = Ret users /\
   (nick <> own_nick server ->
    join_cb host own_nick chanop_channels users signal signal_data = Ret users)) /\
  (forall l,
      CaseInsensibleDict.getitem users key = Ret l ->
      part_cb now users signal signal_data
      = Ret (CaseInsensibleDict.setitem users key (UserList.remove now l nick)) /\
      (nick <> own_nick server ->
       exists l',
         join_cb host own_nick chanop_channels users signal signal_data
         = Ret (CaseInsensibleDict.setitem users key l') /\
         UserList.getitem l' nick = Ret hostmask /\
         pending_since l' nick = None /\
         forall k, fold_key k <> fold_key nick ->
                   UserList.getitem l' k = UserList.getitem l k /\
                   pending_since l' k = pending_since l k)) /\
  (nick = own_nick server -> is_tracked chanop_channels server channel = false ->
   join_cb host own_nick chanop_channels users signal signal_data = Ret users).
Proof.
  intros Hserver Hnick Hbang Hnsp Husp Hcmd Hcsp Hch Hchsp Hcolon Hword Hrest
         signal hostmask signal_data key.
  assert (Hw : word <> EmptyString).
  { destruct Hword as [->| ->]; [exact Hch|discriminate]. }
  assert (Hwsp : no_space word = true).
  { destruct Hword as [->| ->]; [exact Hchsp|].
    change (":" +:+ channel) with (String ":" channel).
    unfold no_space. cbn [all_chars]. exact Hchsp. }
  assert (Hparse : signal_parse signal signal_data = Ret (server, channel, nick)).
  { unfold signal_parse, signal, signal_data, hostmask.
    rewrite signal_server by exact Hserver.
    rewrite signal_data_words by assumption. cbn [py_bind].
    rewrite signal_data_nick by assumption. cbn [py_bind].
    now rewrite (lstrip_colon channel word). }
  assert (Hhost : slice signal_data 1 (find " " signal_data) = hostmask).
  { unfold signal_data, hostmask. now apply signal_data_hostname. }
  split; [exact Hparse|]. split; [|split].
  - intros Hc. split.
    + unfold part_cb. rewrite Hparse. cbn [py_bind]. fold key. now rewrite Hc.
    + intros Hown. unfold join_cb. rewrite Hparse. cbn [py_bind]. fold key.
      apply String.eqb_neq in Hown. now rewrite Hown, Hc.
  - intros l Hl.
    assert (Hc : CaseInsensibleDict.contains users key = true).
    { apply contains_true. unfold CaseInsensibleDict.getitem in Hl.
      destruct (users !! fold_key key) as [[k0 v]|]; [eauto|discriminate]. }
    split.
    + unfold part_cb. rewrite Hparse. cbn [py_bind]. fold key. now rewrite Hc, Hl.
    + intros Hown. destruct (UserList_setitem_lookup l nick hostmask)
        as (l' & Hset & Hget & Hpend & Hother).
      exists l'. split; [|now split].
      unfold join_cb. rewrite Hparse. cbn [py_bind]. fold key.
      apply String.eqb_neq in Hown. rewrite Hown, Hc, Hl, Hhost. cbn [py_bind].
      now rewrite Hset.
  - intros Hown Htr. unfold join_cb. rewrite Hparse. cbn [py_bind].
    apply String.eqb_eq in Hown. now rewrite Hown, Htr.
Qed.

Lemma join_and_part_keep_users_witness :
  exists l',
    join_cb example_host (fun _ => "me"%string) []
            (CaseInsensibleDict.setitem ∅ ("freenode", "#chan")%string UserList.init)
            "freenode,irc_in_join" ":Alice!~alice@host.example JOIN :#chan"
    = Ret (CaseInsensibleDict.setitem
             (CaseInsensibleDict.setitem ∅ ("freenode", "#chan")%string UserList.init)
             ("freenode", "#chan")%string l') /\
    UserList.getitem l' "Alice" = Ret "Alice!~alice@host.example"%string.
Proof.
  destruct (join_and_part_keep_users example_host (fun _ => "me"%string) []
              (CaseInsensibleDict.setitem ∅ ("freenode", "#chan")%string UserList.init)
              0 "freenode" "irc_in_join" "Alice" "~alice@host.example" "JOIN"
              "#chan" ":#chan" EmptyString) as (_ & _ & H & _);
    try reflexivity; try discriminate; try (now right); try (now left).
  - intros [i Hi]. vm_compute in Hi.
    repeat (destruct i as [|i]; [discriminate|]). discriminate.
  - intros [i Hi]. vm_compute in Hi.
    repeat (destruct i as [|i]; [discriminate|]). discriminate.
  - destruct (H UserList.init) as (_ & Hj); [reflexivity|].
    destruct Hj as (l' & Hj & Hg & _); [discriminate|].
    exists l'. now split.
Defined.

(** ** A nick that quits or changes *)

Lemma for_keys_spec (f : UserList.t -> py UserList.t) (g : UserList.t -> UserList.t)
  (its : list ((string * string) * UserList.t)) (c : UserCache.cache) :
  (forall l, f l = Ret (g l)) ->
  NoDup (List.map (fun e => fold_key (fst e)) its) ->
  (forall k l, In (k, l) its -> c !! fold_key k = Some (k, l)) ->
  exists c',
    for_keys f (List.map fst its) c = Ret c' /\
    (forall k l, In (k, l) its -> c' !! fold_key k = Some (k, g l)) /\
    (forall i, ~ In i (List.map (fun e => fold_key (fst e)) its) -> c' !! i = c !! i).
Proof.
  intros Hf. revert c. induction its as [|[k l] rest IH]; intros c Hnd Hin.
  - exists c. split; [reflexivity|]. split; [intros k l []|reflexivity].
  - cbn [List.map fst] in Hnd. apply NoDup_cons in Hnd. destruct Hnd as [Hnot Hnd].
    rewrite list_elem_of_In in Hnot.
    pose proof (Hin k l (or_introl eq_refl)) as Hk.
    cbn [List.map fst for_keys]. unfold CaseInsensibleDict.getitem at 1.
    rewrite Hk. cbn [py_bind]. rewrite Hf. cbn [py_bind].
    assert (Hstored : CaseInsensibleDict.setitem c k (g l)
                      = <[fold_key k := (k, g l)]> c).
    { unfold CaseInsensibleDict.setitem, CaseInsensibleDict.stored_key. now rewrite Hk. }
    rewrite Hstored.
    destruct (IH (<[fold_key k := (k, g l)]> c) Hnd) as (c' & Hrun & Hsel & Hout).
    { intros k' l' Hi. rewrite lookup_insert_ne; [apply Hin; now right|].
      intros E. apply Hnot. apply in_map_iff. exists (k', l'). now split. }
    exists c'. split; [exact Hrun|]. split.
    + intros k' l' [Hi|Hi].
      * injection Hi as <- <-. rewrite Hout by exact Hnot. apply lookup_insert_eq.
      * now apply Hsel.
    + intros i Hi. cbn [In] in Hi. rewrite Hout by tauto.
      apply lookup_insert_ne. tauto.
Qed.

Lemma for_selected (f : UserList.t -> py UserList.t) (g : UserList.t -> UserList.t)
  (sel : (string * string) * UserList.t -> bool) (users : UserCache.cache) :
  dict_ok users -> (forall l, f l = Ret (g l)) ->
  exists users',
    for_keys f (List.map fst (List.filter sel (CaseInsensibleDict.items users))) users
    = Ret users' /\
    forall i, users' !! i
              = match users !! i with
                | Some (k0, l) => Some (k0, if sel (k0, l) then g l else l)
                | None => None
                end.
Proof.
  intros Hok Hf.
  assert (Hitems : forall k l, In (k, l) (CaseInsensibleDict.items users) ->
                               users !! fold_key k = Some (k, l)).
  { intros k l Hi. unfold CaseInsensibleDict.items in Hi.
    apply in_map_iff in Hi as ([j [k1 l1]] & [= -> ->] & Hj).
    apply list_elem_of_In, elem_of_map_to_list in Hj.
    now rewrite (Hok _ _ _ Hj). }
  assert (Hnd : NoDup (List.map (fun e : (string * string) * UserList.t => fold_key (fst e))
                                (CaseInsensibleDict.items users))).
  { unfold CaseInsensibleDict.items. rewrite List.map_map.
    assert (Hfst : List.map (fun x : (string * string) * ((string * string) * UserList.t)
                             => fold_key (fst (snd x))) (map_to_list users)
                   = List.map fst (map_to_list users)).
    { apply map_ext_in. intros [j [k0 w]] Hj. simpl.
      apply list_elem_of_In, elem_of_map_to_list in Hj. now apply Hok in Hj. }
    rewrite Hfst. apply NoDup_fst_map_to_list. }
  destruct (for_keys_spec f g (List.filter sel (CaseInsensibleDict.items users)) users Hf)
    as (users' & Hrun & Hsel & Hout).
  - revert Hnd. generalize (CaseInsensibleDict.items users). intros its.
    induction its as [|e its IH]; intros Hnd; [constructor|].
    cbn [List.map] in Hnd. apply NoDup_cons in Hnd. destruct Hnd as [Hnot Hnd].
    cbn [List.filter]. destruct (sel e); [|now apply IH].
    cbn [List.map]. apply NoDup_cons. split; [|now apply IH].
    intros Hi. apply Hnot. rewrite list_elem_of_In in *.
    apply in_map_iff in Hi as (e' & E & He'). apply List.filter_In in He' as [He' _].
    apply in_map_iff. now exists e'.
  - intros k l Hi. apply List.filter_In in Hi as [Hi _]. now apply Hitems.
  - exists users'. split; [exact Hrun|]. intros i.
    destruct (users !! i) as [[k0 l]|] eqn:E.
    + pose proof (Hok _ _ _ E) as Hk0.
      assert (Hit : In (k0, l) (CaseInsensibleDict.items users)).
      { unfold CaseInsensibleDict.items. apply in_map_iff. exists (i, (k0, l)).
        split; [reflexivity|]. now apply list_elem_of_In, elem_of_map_to_list. }
      destruct (sel (k0, l)) eqn:Hs.
      * rewrite <- Hk0. apply Hsel. apply List.filter_In. now split.
      * rewrite Hout; [exact E|]. intros Hi.
        apply in_map_iff in Hi as ([k1 l1] & Hk1 & He). cbn [fst] in Hk1.
        apply List.filter_In in He as [He Hs1].
        apply Hitems in He. rewrite Hk1, E in He. injection He as -> ->. congruence.
    + rewrite Hout; [exact E|]. intros Hi.
      apply in_map_iff in Hi as ([k1 l1] & Hk1 & He). cbn [fst] in Hk1.
      apply List.filter_In in He as [He _]. apply Hitems in He.
      rewrite Hk1, E in He. discriminate.
Qed.

Lemma no_channel_runs (f : list (string * string) -> string -> string -> UserCache.cache
                          -> py UserCache.cache)
  (users : UserCache.cache) (server tail nick sd : string) :
  ~ occurs "," server -> get_nick sd = Ret nick ->
  f [] nick sd users = Ret users ->
  signal_parse_no_channel f users (server +:+ "," +:+ tail) sd
  = f (UserCache.getKeys users server nick) nick sd users.
Proof.
  intros Hs Hn Hnil. unfold signal_parse_no_channel.
  rewrite signal_server by exact Hs. rewrite Hn. cbn [py_bind].
  destruct (UserCache.getKeys users server nick); [now rewrite Hnil|reflexivity].
Qed.

Lemma selected_key (users : UserCache.cache) (key k0 : string * string) (l : UserList.t)
  (server nick : string) :
  dict_ok users -> nick <> EmptyString ->
  users !! fold_key key = Some (k0, l) ->
  case_eq_key (fst k0) server
  && (String.eqb nick EmptyString || UserList.contains l nick)
  = case_eq_key (fst key) server && UserList.contains l nick.
Proof.
  intros Hok Hn Hl. apply Hok in Hl.
  apply String.eqb_neq in Hn. rewrite Hn. cbn [orb].
  unfold case_eq_key. f_equal.
  assert (E : fold_key (fst k0) = fold_key (fst key)).
  { change (fold_key k0) with (fold_key (fst k0), fold_key (snd k0)) in Hl.
    change (fold_key key) with (fold_key (fst key), fold_key (snd key)) in Hl.
    congruence. }
  now rewrite E.
Qed.

Lemma rfind_from_absent (c : ascii) (s : string) (i last : Z) :
  ~ occurs c s -> rfind_from c s i last = last.
Proof.
  revert i last. induction s as [|x s IH]; intros i last Hno; [reflexivity|].
  cbn [rfind_from]. destruct (Ascii.eqb_spec x c) as [->|Hne].
  - destruct Hno. apply occurs_cons. now left.
  - apply IH. intros Ho. apply Hno. apply occurs_cons. now right.
Qed.

Lemma rfind_from_append (c : ascii) (a b : string) (i last : Z) :
  ~ occurs c b -> rfind_from c (a +:+ String c b) i last = i + len a.
Proof.
  intros Hb. revert i last. induction a as [|x a IH]; intros i last.
  - change (EmptyString +:+ String c b) with (String c b). cbn [rfind_from].
    rewrite Ascii.eqb_refl, rfind_from_absent by exact Hb. unfold len. simpl. lia.
  - change (String x a +:+ String c b) with (String x (a +:+ String c b)).
    cbn [rfind_from]. rewrite IH, len_cons. lia.
Qed.

Lemma rfind_append (c : ascii) (a b : string) :
  ~ occurs c b -> rfind c (a +:+ String c b) = len a.
Proof. intros Hb. unfold rfind. now rewrite rfind_from_append. Qed.

(** The data of a NICK signal, [:nick!user@host NICK :newnick]. *)
Lemma nick_signal_data (nick uh newnick : string) :
  ~ occurs "!" nick -> no_space nick = true -> no_space uh = true ->
  no_space newnick = true ->
  let sd := ":" +:+ (nick +:+ "!" +:+ uh) +:+ " NICK :" +:+ newnick in
  slice sd 1 (find " " sd) = nick +:+ "!" +:+ uh /\
  slice_from sd (rfind " " sd + 2) = newnick /\
  slice_from (nick +:+ "!" +:+ uh) (find "!" (nick +:+ "!" +:+ uh) + 1) = uh.
Proof.
  intros Hb Hn Hu Hnew sd. split; [|split].
  - pose proof (signal_data_hostname nick uh "NICK" (":" +:+ newnick) EmptyString Hn Hu)
      as Hh.
    rewrite append_nil_r in Hh. exact Hh.
  - assert (E : sd = (":" +:+ (nick +:+ "!" +:+ uh) +:+ " NICK") +:+ String " " (":" +:+ newnick)).
    { unfold sd. rewrite !append_assoc. reflexivity. }
    rewrite E, rfind_append.
    + pose proof (slice_from_suffix
                    ((":" +:+ (nick +:+ "!" +:+ uh) +:+ " NICK") +:+ " :") newnick) as Hs.
      rewrite !append_assoc in Hs. rewrite !append_assoc.
      rewrite !len_append in *. change (len " :") with 2 in Hs.
      change (len " NICK") with 5 in *. change (len ":") with 1 in *.
      change (len "!") with 1 in *.
      replace (1 + (len nick + (1 + (len uh + 5))) + 2)
        with (1 + (len nick + (1 + (len uh + (5 + 2))))) by lia.
      exact Hs.
    + change (":" +:+ newnick) with (String ":" newnick). rewrite occurs_cons.
      intros [E'|Ho]; [discriminate|]. now apply (no_space_occurs newnick).
  - change ("!" +:+ uh) with (String "!" uh). rewrite find_append by exact Hb.
    pose proof (slice_from_suffix (nick +:+ "!") uh) as Hs.
    rewrite len_append in Hs. change (len "!") with 1 in Hs.
    now rewrite append_assoc in Hs.
Qed.


Lemma getitem_selected (sel : (string * string) * UserList.t -> bool)
  (g : UserList.t -> UserList.t) (users users' : UserCache.cache)
  (server nick : string) :
  dict_ok users -> nick <> EmptyString ->
  (forall e, sel e = case_eq_key (fst (fst e)) server
                     && (String.eqb nick EmptyString || UserList.contains (snd e) nick)) ->
  (forall i, users' !! i
             = match users !! i with
               | Some (k0, l) => Some (k0, if sel (k0, l) then g l else l)
               | None => None
               end) ->
  forall key,
    match CaseInsensibleDict.getitem users key with
    | Ret l =>
        CaseInsensibleDict.getitem users' key
        = Ret (if case_eq_key (fst key) server && UserList.contains l nick
               then g l else l)
    | Raise _ => CaseInsensibleDict.contains users' key = false
    end.
Proof.
  intros Hok Hn Hsel Hlook key. unfold CaseInsensibleDict.getitem.
  specialize (Hlook (fold_key key)).
  destruct (users !! fold_key key) as [[k0 l]|] eqn:E.
  - rewrite Hlook, Hsel. cbn [fst snd].
    now rewrite (selected_key users key k0 l server nick Hok Hn E).
  - apply contains_false. exact Hlook.
Qed.

(** X20: A nick that quits is marked, with the time, in every cached channel of
    the server that has it, and in no other. A nick that changes is marked
    in those channels too, and the new nick is stored there with its
    hostmask, [newnick!user@host], and without a mark; so when the new nick
    is the old one in another spelling the user is left with no mark. *)
Theorem quit_and_nick_follow_user (users : UserCache.cache) (now : Z)
  (server tail nick uh newnick r : string) :
  dict_ok users ->
  ~ occurs "," server ->
  nick <> EmptyString -> ~ occurs "!" nick ->
  no_space nick = true -> no_space uh = true -> no_space newnick = true ->
  let signal := server +:+ "," +:+ tail in
  (exists users',
      quit_cb now users signal (":" +:+ nick +:+ "!" +:+ r) = Ret users' /\
      forall key,
        match CaseInsensibleDict.getitem users key with
        | Ret l =>
            CaseInsensibleDict.getitem users' key
            = Ret (if case_eq_key (fst key) server && UserList.contains l nick
                   then UserList.remove now l nick else l)
        | Raise _ => CaseInsensibleDict.contains users' key = false
        end) /\
  (exists users',
      nick_cb now users signal (":" +:+ (nick +:+ "!" +:+ uh) +:+ " NICK :" +:+ newnick)
      = Ret users' /\
      forall key l,
        CaseInsensibleDict.getitem users key = Ret l ->
        if case_eq_key (fst key) server && UserList.contains l nick then
          exists l',
            CaseInsensibleDict.getitem users' key = Ret l' /\
            UserList.getitem l' newnick = Ret (newnick +:+ "!" +:+ uh) /\
            pending_since l' newnick = None /\
            (fold_key newnick <> fold_key nick ->
             UserList.getitem l' nick = UserList.getitem l nick /\
             pending_since l' nick = Some now)
        else CaseInsensibleDict.getitem users' key = Ret l).
Proof.
  intros Hok Hs Hn Hb Hnsp Husp Hnew signal. split.
  - unfold quit_cb, signal.
    change (":" +:+ nick +:+ "!" +:+ r) with (String ":" (nick +:+ String "!" r)).
    rewrite no_channel_runs with (nick := nick);
      [|exact Hs|now apply get_nick_of_prefix|reflexivity].
    unfold UserCache.getKeys.
    destruct (for_selected (fun l => Ret (UserList.remove now l nick))
                (fun l => UserList.remove now l nick)
                (fun e => case_eq_key (fst (fst e)) server
                          && (String.eqb nick EmptyString || UserList.contains (snd e) nick))
                users Hok ltac:(reflexivity)) as (users' & Hrun & Hlook).
    exists users'. split; [exact Hrun|].
    now apply (getitem_selected _ _ users users' server nick Hok Hn ltac:(reflexivity)).
  - destruct (nick_signal_data nick uh newnick Hb Hnsp Husp Hnew) as (Hhost & Hnewnick & Huh).
    set (sd := ":" +:+ (nick +:+ "!" +:+ uh) +:+ " NICK :" +:+ newnick) in *.
    assert (Hgn : get_nick sd = Ret nick).
    { replace sd with (String ":" (nick +:+ String "!" (uh +:+ " NICK :" +:+ newnick))).
      - now apply get_nick_of_prefix.
      - unfold sd.
        change (":" +:+ (nick +:+ "!" +:+ uh) +:+ " NICK :" +:+ newnick)
          with (String ":" ((nick +:+ "!" +:+ uh) +:+ " NICK :" +:+ newnick)).
        f_equal. rewrite !append_assoc. reflexivity. }
    unfold nick_cb, signal.
    rewrite no_channel_runs with (nick := nick); [|exact Hs|exact Hgn|reflexivity].
    cbv zeta. rewrite Hhost, Hnewnick, Huh.
    set (g := fun l : UserList.t =>
                UserList.mk
                  (CaseInsensibleDict.setitem (UserList.users (UserList.remove now l nick))
                                              newnick (newnick +:+ "!" +:+ uh))
                  (delete (fold_key newnick)
                          (UserList._temp_users (UserList.remove now l nick)))).
    unfold UserCache.getKeys.
    destruct (for_selected
                (fun l => UserList.setitem (UserList.remove now l nick) newnick
                                           (newnick +:+ "!" +:+ uh))
                g
                (fun e => case_eq_key (fst (fst e)) server
                          && (String.eqb nick EmptyString || UserList.contains (snd e) nick))
                users Hok) as (users' & Hrun & Hlook).
    { intros l. apply UserList_setitem_returns. }
    exists users'. split; [exact Hrun|].
    intros key l Hl.
    pose proof (getitem_selected _ g users users' server nick Hok Hn
                  ltac:(reflexivity) Hlook key) as Hkey.
    rewrite Hl in Hkey.
    destruct (case_eq_key (fst key) server && UserList.contains l nick); [|exact Hkey].
    exists (g l). split; [exact Hkey|].
    destruct (UserList_setitem_lookup (UserList.remove now l nick) newnick
                (newnick +:+ "!" +:+ uh)) as (l' & Hset & Hget & Hpend & Hother).
    assert (El : g l = l').
    { rewrite UserList_setitem_returns in Hset. now injection Hset. }
    rewrite El.
    split; [exact Hget|]. split; [exact Hpend|].
    intros Hne. destruct (Hother nick ltac:(congruence)) as [Hg Hp].
    split; [exact Hg|]. rewrite Hp. unfold pending_since, UserList.remove.
    cbn [UserList._temp_users]. unfold CaseInsensibleDict.setitem.
    now rewrite lookup_insert_eq.
Qed.

Lemma quit_and_nick_follow_user_witness :
  exists users' l',
    nick_cb 1000
      (CaseInsensibleDict.setitem ∅ ("freenode", "#chan")%string
         (UserList.mk (CaseInsensibleDict.setitem ∅ "Alice" "Alice!~alice@host.example") ∅))
      "freenode,irc_in_nick" ":Alice!~alice@host.example NICK :Alicia"
    = Ret users' /\
    CaseInsensibleDict.getitem users' ("freenode", "#chan")%string = Ret l' /\
    UserList.getitem l' "Alicia" = Ret "Alicia!~alice@host.example"%string /\
    pending_since l' "Alice" = Some 1000.
Proof.
  set (l0 := UserList.mk (CaseInsensibleDict.setitem ∅ "Alice" "Alice!~alice@host.example") ∅).
  destruct (quit_and_nick_follow_user
              (CaseInsensibleDict.setitem ∅ ("freenode", "#chan")%string l0)
              1000 "freenode" "irc_in_nick" "Alice" "~alice@host.example" "Alicia"
              EmptyString) as (_ & users' & Hrun & Hkeys).
  - apply dict_ok_setitem, dict_ok_empty.
  - intros [i Hi]. vm_compute in Hi.
    repeat (destruct i as [|i]; [discriminate|]). discriminate.
  - discriminate.
  - intros [i Hi]. vm_compute in Hi.
    repeat (destruct i as [|i]; [discriminate|]). discriminate.
  - vm_compute. reflexivity.
  - vm_compute. reflexivity.
  - vm_compute. reflexivity.
  - assert (Hg0 : CaseInsensibleDict.getitem
                    (CaseInsensibleDict.setitem ∅ ("freenode", "#chan")%string l0)
                    ("freenode", "#chan")%string = Ret l0).
    { now apply getitem_setitem. }
    specialize (Hkeys ("freenode", "#chan")%string l0 Hg0).
    assert (Hc : case_eq_key (fst ("freenode", "#chan")%string) "freenode"
                 && UserList.contains l0 "Alice" = true).
    { apply andb_true_iff. split; [vm_compute; reflexivity|].
      unfold UserList.contains, l0. cbn [UserList.users]. now apply contains_setitem. }
    rewrite Hc in Hkeys. destruct Hkeys as (l' & Hl' & Hg & _ & Hold).
    exists users', l'. split; [exact Hrun|]. split; [exact Hl'|]. split; [exact Hg|].
    apply Hold. vm_compute. discriminate.
Defined.

(** ** The garbage collector *)

Lemma is_tracked_fold (chanop_channels : list (string * string)) (k k' : string * string) :
  fold_key k = fold_key k' ->
  is_tracked chanop_channels (fst k) (snd k) = is_tracked chanop_channels (fst k') (snd k').
Proof.
  intros E. unfold is_tracked.
  induction chanop_channels as [|x l IH]; [reflexivity|].
  cbn [existsb]. rewrite IH. f_equal. unfold case_eq_key.
  change (fold_key (fst k, snd k)) with (fold_key k).
  change (fold_key (fst k', snd k')) with (fold_key k'). now rewrite E.
Qed.

Section PurgeFacts.
Context {V : Type}.
Implicit Types c : gmap (string * string) ((string * string) * V).

Lemma drop_untracked_spec (chanop_channels : list (string * string))
  (its : list ((string * string) * V)) c :
  NoDup (List.map (fun e => fold_key (fst e)) its) ->
  (forall k v, In (k, v) its -> c !! fold_key k = Some (k, v)) ->
  exists c',
    drop_untracked chanop_channels (List.map fst its) c = Ret c' /\
    (forall k v, In (k, v) its ->
                 c' !! fold_key k
                 = if is_tracked chanop_channels (fst k) (snd k) then Some (k, v) else None) /\
    (forall i, ~ In i (List.map (fun e => fold_key (fst e)) its) -> c' !! i = c !! i).
Proof.
  revert c. induction its as [|[k v] rest IH]; intros c Hnd Hin.
  - exists c. split; [reflexivity|]. split; [intros k v []|reflexivity].
  - cbn [List.map fst] in Hnd. apply NoDup_cons in Hnd. destruct Hnd as [Hnot Hnd].
    rewrite list_elem_of_In in Hnot.
    pose proof (Hin k v (or_introl eq_refl)) as Hk.
    cbn [List.map fst drop_untracked].
    destruct (is_tracked chanop_channels (fst k) (snd k)) eqn:Ht; cbn [negb].
    + destruct (IH c Hnd) as (c' & Hrun & Hsel & Hout).
      { intros k' v' Hi. apply Hin. now right. }
      exists c'. split; [exact Hrun|]. split.
      * intros k' v' [Hi|Hi].
        -- injection Hi as <- <-. rewrite Ht, Hout by exact Hnot. exact Hk.
        -- now apply Hsel.
      * intros i Hi. cbn [In] in Hi. apply Hout. tauto.
    + unfold CaseInsensibleDict.delitem. rewrite Hk. cbn [py_bind].
      destruct (IH (delete (fold_key k) c) Hnd) as (c' & Hrun & Hsel & Hout).
      { intros k' v' Hi. rewrite lookup_delete_ne; [apply Hin; now right|].
        intros E. apply Hnot. apply in_map_iff. exists (k', v'). now split. }
      exists c'. split; [exact Hrun|]. split.
      * intros k' v' [Hi|Hi].
        -- injection Hi as <- <-. rewrite Ht, Hout by exact Hnot. apply lookup_delete_eq.
        -- now apply Hsel.
      * intros i Hi. cbn [In] in Hi. rewrite Hout by tauto.
        apply lookup_delete_ne. tauto.
Qed.

Lemma ServerChannelDict_purge_spec (purge_data : V -> V)
  (chanop_channels : list (string * string)) c :
  dict_ok c ->
  exists c',
    ServerChannelDict_purge purge_data chanop_channels c = Ret c' /\
    forall i, c' !! i
              = match c !! i with
                | Some (k0, v) =>
                    if is_tracked chanop_channels (fst k0) (snd k0)
                    then Some (k0, purge_data v) else None
                | None => None
                end.
Proof.
  intros Hok.
  assert (Hitems : forall k v, In (k, v) (CaseInsensibleDict.items c) ->
                               c !! fold_key k = Some (k, v)).
  { intros k v Hi. unfold CaseInsensibleDict.items in Hi.
    apply in_map_iff in Hi as ([j [k1 v1]] & [= -> ->] & Hj).
    apply list_elem_of_In, elem_of_map_to_list in Hj.
    now rewrite (Hok _ _ _ Hj). }
  assert (Hnd : NoDup (List.map (fun e : (string * string) * V => fold_key (fst e))
                                (CaseInsensibleDict.items c))).
  { unfold CaseInsensibleDict.items. rewrite List.map_map.
    assert (Hfst : List.map (fun x : (string * string) * ((string * string) * V)
                             => fold_key (fst (snd x))) (map_to_list c)
                   = List.map fst (map_to_list c)).
    { apply map_ext_in. intros [j [k0 w]] Hj. simpl.
      apply list_elem_of_In, elem_of_map_to_list in Hj. now apply Hok in Hj. }
    rewrite Hfst. apply NoDup_fst_map_to_list. }
  assert (Hkeys : CaseInsensibleDict.keys c = List.map fst (CaseInsensibleDict.items c)).
  { unfold CaseInsensibleDict.keys, CaseInsensibleDict.items. now rewrite List.map_map. }
  destruct (drop_untracked_spec chanop_channels (CaseInsensibleDict.items c) c Hnd Hitems)
    as (c' & Hrun & Hsel & Hout).
  unfold ServerChannelDict_purge. rewrite Hkeys, Hrun. cbn [py_bind].
  eexists. split; [reflexivity|]. intros i. rewrite lookup_fmap.
  destruct (c !! i) as [[k0 v]|] eqn:E.
  - pose proof (Hok _ _ _ E) as Hk0.
    assert (Hit : In (k0, v) (CaseInsensibleDict.items c)).
    { unfold CaseInsensibleDict.items. apply in_map_iff. exists (i, (k0, v)).
      split; [reflexivity|]. now apply list_elem_of_In, elem_of_map_to_list. }
    rewrite <- Hk0, (Hsel k0 v Hit).
    now destruct (is_tracked chanop_channels (fst k0) (snd k0)).
  - rewrite Hout; [now rewrite E|]. intros Hi.
    apply in_map_iff in Hi as ([k1 v1] & Hk1 & He). cbn [fst] in Hk1.
    apply Hitems in He. rewrite Hk1, E in He. discriminate.
Qed.

Lemma purged_getitem (purge_data : V -> V) (chanop_channels : list (string * string))
  c c' (key : string * string) :
  dict_ok c ->
  (forall i, c' !! i
             = match c !! i with
               | Some (k0, v) =>
                   if is_tracked chanop_channels (fst k0) (snd k0)
                   then Some (k0, purge_data v) else None
               | None => None
               end) ->
  (is_tracked chanop_channels (fst key) (snd key) = false ->
   CaseInsensibleDict.contains c' key = false) /\
  (is_tracked chanop_channels (fst key) (snd key) = true ->
   match CaseInsensibleDict.getitem c key with
   | Ret v => CaseInsensibleDict.getitem c' key = Ret (purge_data v)
   | Raise _ => CaseInsensibleDict.getitem c' key = Raise KeyError
   end).
Proof.
  intros Hok Hlook. specialize (Hlook (fold_key key)).
  unfold CaseInsensibleDict.getitem.
  destruct (c !! fold_key key) as [[k0 v]|] eqn:E.
  - rewrite (is_tracked_fold chanop_channels k0 key (Hok _ _ _ E)) in Hlook. split.
    + intros Ht. rewrite Ht in Hlook. now apply contains_false.
    + intros Ht. rewrite Ht in Hlook. now rewrite Hlook.
  - split; intros _; [now apply contains_false|now rewrite Hlook].
Qed.

End PurgeFacts.

(** X21: The garbage collector forgets the channels that are not tracked, and
    no other: afterwards none of the three caches has a list for a channel
    that is not on the watch list, under any spelling, and for a tracked
    channel the masks are as they were and the users are those that
    [UserList.purge] leaves. *)
Theorem garbage_collector_keeps_tracked (now : Z)
  (chanop_channels : list (string * string))
  (banlist mutelist : MaskCache.cache) (users : UserCache.cache) :
  dict_ok banlist -> dict_ok mutelist -> dict_ok users ->
  exists b m u,
    garbage_collector_cb now chanop_channels banlist mutelist users = Ret (b, m, u) /\
    forall key : string * string,
      (is_tracked chanop_channels (fst key) (snd key) = false ->
       CaseInsensibleDict.contains b key = false /\
       CaseInsensibleDict.contains m key = false /\
       CaseInsensibleDict.contains u key = false) /\
      (is_tracked chanop_channels (fst key) (snd key) = true ->
       CaseInsensibleDict.getitem b key = CaseInsensibleDict.getitem banlist key /\
       CaseInsensibleDict.getitem m key = CaseInsensibleDict.getitem mutelist key /\
       match CaseInsensibleDict.getitem users key with
       | Ret l => CaseInsensibleDict.getitem u key = Ret (UserList.purge now l)
       | Raise _ => CaseInsensibleDict.getitem u key = Raise KeyError
       end).
Proof.
  intros Hb Hm Hu.
  destruct (ServerChannelDict_purge_spec MaskList.purge chanop_channels banlist Hb)
    as (b & Rb & Lb).
  destruct (ServerChannelDict_purge_spec MaskList.purge chanop_channels mutelist Hm)
    as (m & Rm & Lm).
  destruct (ServerChannelDict_purge_spec (UserList.purge now) chanop_channels users Hu)
    as (u & Ru & Lu).
  exists b, m, u. split.
  - unfold garbage_collector_cb. now rewrite Rb, Rm, Ru.
  - intros key.
    destruct (purged_getitem MaskList.purge chanop_channels banlist b key Hb Lb) as [Fb Tb].
    destruct (purged_getitem MaskList.purge chanop_channels mutelist m key Hm Lm) as [Fm Tm].
    destruct (purged_getitem (UserList.purge now) chanop_channels users u key Hu Lu)
      as [Fu Tu].
    split.
    + intros Ht. auto.
    + intros Ht. specialize (Tb Ht). specialize (Tm Ht). specialize (Tu Ht).
      split; [|split; [|exact Tu]].
      * unfold CaseInsensibleDict.getitem in *.
        destruct (banlist !! fold_key key) as [[k0 v]|]; exact Tb.
      * unfold CaseInsensibleDict.getitem in *.
        destruct (mutelist !! fold_key key) as [[k0 v]|]; exact Tm.
Qed.

Lemma garbage_collector_keeps_tracked_witness :
  exists b m u,
    garbage_collector_cb 5000 [("freenode", "#chan")%string] ∅ ∅
      (CaseInsensibleDict.setitem ∅ ("freenode", "#other")%string UserList.init)
    = Ret (b, m, u) /\
    CaseInsensibleDict.contains u ("freenode", "#other")%string = false.
Proof.
  destruct (garbage_collector_keeps_tracked 5000 [("freenode", "#chan")%string] ∅ ∅
              (CaseInsensibleDict.setitem ∅ ("freenode", "#other")%string UserList.init))
    as (b & m & u & Hrun & Hkeys).
  - apply dict_ok_empty.
  - apply dict_ok_empty.
  - apply dict_ok_setitem, dict_ok_empty.
  - exists b, m, u. split; [exact Hrun|].
    destruct (Hkeys ("freenode", "#other")%string) as [Hf _].
    apply Hf. vm_compute. reflexivity.
Defined.
